(** * The reservation engine of the Stone library bot (library_bot.py)

    A shallow embedding of the database layer of [library_bot.py]:
    the four relations [users], [books], [bookings], [waiting_list], the
    functions that read and write them ([create_booking],
    [complete_booking], [extend_booking], [add_to_waiting_list],
    [get_first_in_waiting_list], [notify_next_in_waiting_list],
    [get_available_book_instance]) and one pass of the body of the
    background task [check_reminders]. *)

From stdpp Require Import base option list sorting gmap strings pretty.
From Stdlib Require Import ZArith Lia Ascii.

Local Open Scope string_scope.
Local Open Scope list_scope.
Local Open Scope Z_scope.

(** ** Time

    A naive [datetime] is the number of microseconds since the epoch of the
    proleptic calendar, a [timedelta] a number of microseconds.  All
    timestamps are taken to lie far enough inside the range of [datetime]
    for the additions of the source not to overflow. *)

Module Datetime.

Definition datetime := Z.
Definition timedelta := Z.

Definition microseconds_per_second : Z := 1000000.
Definition timedelta_minutes (n : Z) : timedelta := n * 60 * microseconds_per_second.
Definition timedelta_hours (n : Z) : timedelta := n * 3600 * microseconds_per_second.
Definition timedelta_days (n : Z) : timedelta := n * 86400 * microseconds_per_second.
Definition timedelta_weeks (n : Z) : timedelta := timedelta_days (7 * n).

(** [dt.date()], as the ordinal of the calendar day. *)
Definition date (t : datetime) : Z := t `div` timedelta_days 1.

(** [dt.hour]. *)
Definition hour (t : datetime) : Z := (t `mod` timedelta_days 1) `div` timedelta_hours 1.

End Datetime.
Export Datetime.

(** ** Rows of the four tables

    Columns that no modelled function reads or writes ([created_at],
    [waiting_list.id]) are left out. *)

Record book := Book {
  b_id : Z;
  b_title : string;
  b_author : string;
  b_office : string;
  b_status : string;
  b_shelf : option Z;
  b_floor : option Z
}.

Record booking := Booking {
  bk_id : Z;
  bk_user_id : Z;
  bk_book_id : Z;
  bk_book_title : string;
  bk_office : string;
  bk_start_time : datetime;
  bk_duration : string;
  bk_end_time : datetime;
  bk_status : string;
  bk_extension_made : bool;
  bk_overdue_notified : bool
}.

Record user := User {
  u_first_name : string;
  u_last_name : option string;
  u_office : option string;
  u_current_book : option string;
  u_booking_start : option datetime;
  u_booking_duration : option string;
  u_booking_end : option datetime;
  u_status : string;
  u_rules_accepted : bool
}.

Record waiting := Waiting {
  w_user_id : Z;
  w_book_title : string;
  w_office : string;
  w_added_at : datetime;
  w_notified : bool
}.

(** The database.  [books], [bookings] and [waiting_list] list their rows in
    the order in which a scan of the table returns them; SQL fixes that order
    only under ORDER BY.  [users] is keyed by its primary key [user_id].
    [bookings_id_seq] is the next value of the sequence behind
    [bookings.id]. *)
Record db := Db {
  books : list book;
  bookings : list booking;
  users : gmap Z user;
  waiting_list : list waiting;
  bookings_id_seq : Z
}.

Global Instance book_eq_dec : EqDecision book.
Proof. solve_decision. Defined.
Global Instance booking_eq_dec : EqDecision booking.
Proof. solve_decision. Defined.
Global Instance user_eq_dec : EqDecision user.
Proof. solve_decision. Defined.
Global Instance waiting_eq_dec : EqDecision waiting.
Proof. solve_decision. Defined.
Global Instance db_eq_dec : EqDecision db.
Proof. solve_decision. Defined.

(** Functional updates of one field. *)
Definition set_books (f : list book → list book) (d : db) : db :=
  Db (f (books d)) (bookings d) (users d) (waiting_list d) (bookings_id_seq d).
Definition set_bookings (f : list booking → list booking) (d : db) : db :=
  Db (books d) (f (bookings d)) (users d) (waiting_list d) (bookings_id_seq d).
Definition set_users (f : gmap Z user → gmap Z user) (d : db) : db :=
  Db (books d) (bookings d) (f (users d)) (waiting_list d) (bookings_id_seq d).
Definition set_waiting_list (f : list waiting → list waiting) (d : db) : db :=
  Db (books d) (bookings d) (users d) (f (waiting_list d)) (bookings_id_seq d).
Definition set_bookings_id_seq (f : Z → Z) (d : db) : db :=
  Db (books d) (bookings d) (users d) (waiting_list d) (f (bookings_id_seq d)).

(** ** Messages, exceptions and the state of the process *)

(** A call of [bot.send_message]: the chat, the text, the parse mode and the
    buttons (text, callback data) of the inline keyboard. *)
Record message := Message {
  m_chat_id : Z;
  m_text : string;
  m_parse_mode : option string;
  m_reply_markup : option (list (string * string))
}.

Inductive exn :=
  | ValueError (msg : string)
  | ForeignKeyViolationError
  | TelegramAPIError.

(** What the functions act on: the committed content of the database, the
    messages delivered so far, and the attributes set on the function object
    [check_reminders]. *)
Record state := State {
  st_db : db;
  st_sent : list message;
  st_attrs : gmap string datetime
}.

Definition set_db (f : db → db) (s : state) : state :=
  State (f (st_db s)) (st_sent s) (st_attrs s).

(** ** A monad of state and exceptions *)

Definition M (S A : Type) : Type := S → (exn + A) * S.

Global Instance M_ret {S} : MRet (M S) := λ A a s, (inr a, s).
Global Instance M_bind {S} : MBind (M S) := λ A B k m s,
  match m s with
  | (inr a, s') => k a s'
  | (inl e, s') => (inl e, s')
  end.

Definition raise {S A} (e : exn) : M S A := λ s, (inl e, s).
Definition gets {S A} (q : S → A) : M S A := λ s, (inr (q s), s).
Definition modify {S} (f : S → S) : M S unit := λ s, (inr (), f s).

(** [try: m except Exception: h]. *)
Definition try_except {S A} (m : M S A) (h : exn → M S A) : M S A := λ s,
  match m s with
  | (inr a, s') => (inr a, s')
  | (inl e, s') => h e s'
  end.

(** ** Connections and transactions

    Every function of the source acquires a connection of its own from the
    pool.  A statement executed on a connection outside [conn.transaction()]
    commits at once.  Inside [async with conn.transaction()] the statements
    executed on [conn] stay pending until the block ends: they are committed
    when it ends normally and dropped when an exception leaves it.  A function
    called inside the block that acquires another connection is not part of
    the transaction: it sees and changes the committed content only. *)
Record txn := Txn {
  base : state;
  pending : db → db
}.

(** What a statement on [conn] sees: the committed rows and the pending
    writes of the transaction. *)
Definition view (t : txn) : db := pending t (st_db (base t)).

(** A call that runs on another connection. *)
Definition other_conn {A} (m : M state A) : M txn A := λ t,
  let '(r, s') := m (base t) in (r, Txn s' (pending t)).

(** A write executed on [conn]. *)
Definition on_conn (f : db → db) : M txn unit := λ t,
  (inr (), Txn (base t) (f ∘ pending t)).

Definition transaction {A} (body : M txn A) : M state A := λ s,
  match body (Txn s id) with
  | (inr a, t) => (inr a, set_db (pending t) (base t))
  | (inl e, t) => (inl e, base t)
  end.

(** A statement executed on a connection outside any transaction. *)
Definition execute (f : db → db) : M state unit := modify (set_db f).
Definition fetch {A} (q : db → A) : M state A := gets (q ∘ st_db).

(** ** SQL statements on a table kept as a list of rows *)

(** UPDATE t SET ... WHERE P: the rows keep their places. *)
Definition sql_update {A} (P : A → Prop) `{∀ x, Decision (P x)} (set : A → A)
    (rows : list A) : list A :=
  (λ x, if decide (P x) then set x else x) <$> rows.

(** DELETE FROM t WHERE P. *)
Definition sql_delete {A} (P : A → Prop) `{∀ x, Decision (P x)} (rows : list A) : list A :=
  filter (λ x, ¬ P x) rows.

(** INSERT INTO t: the new row is found last by a scan. *)
Definition sql_insert {A} (row : A) (rows : list A) : list A := rows ++ [row].

(** The SET clauses of the source. *)
Definition book_set_status (status : string) (b : book) : book :=
  Book (b_id b) (b_title b) (b_author b) (b_office b) status (b_shelf b) (b_floor b).

Definition booking_set_status (status : string) (b : booking) : booking :=
  Booking (bk_id b) (bk_user_id b) (bk_book_id b) (bk_book_title b) (bk_office b)
    (bk_start_time b) (bk_duration b) (bk_end_time b) status (bk_extension_made b)
    (bk_overdue_notified b).

Definition booking_set_extended (new_end : datetime) (b : booking) : booking :=
  Booking (bk_id b) (bk_user_id b) (bk_book_id b) (bk_book_title b) (bk_office b)
    (bk_start_time b) (bk_duration b) new_end (bk_status b) true (bk_overdue_notified b).

Definition booking_set_overdue_notified (b : booking) : booking :=
  Booking (bk_id b) (bk_user_id b) (bk_book_id b) (bk_book_title b) (bk_office b)
    (bk_start_time b) (bk_duration b) (bk_end_time b) (bk_status b) (bk_extension_made b)
    true.

Definition user_set_booked (book_title : string) (start_time : datetime)
    (duration : string) (end_time : datetime) (u : user) : user :=
  User (u_first_name u) (u_last_name u) (u_office u) (Some book_title) (Some start_time)
    (Some duration) (Some end_time) "booked" (u_rules_accepted u).

Definition user_set_available (u : user) : user :=
  User (u_first_name u) (u_last_name u) (u_office u) None None None None "available"
    (u_rules_accepted u).

(** SET booking_end = $1 on a row that also meets the rest of the WHERE
    clause of [extend_booking]: current_book = $3 AND status = 'booked'. *)
Definition user_set_booking_end (book_title : string) (new_end : datetime) (u : user) : user :=
  if decide (u_current_book u = Some book_title ∧ u_status u = "booked")
  then User (u_first_name u) (u_last_name u) (u_office u) (u_current_book u)
         (u_booking_start u) (u_booking_duration u) (Some new_end) (u_status u)
         (u_rules_accepted u)
  else u.

Definition waiting_set_notified (w : waiting) : waiting :=
  Waiting (w_user_id w) (w_book_title w) (w_office w) (w_added_at w) true.

(** The key of the constraint [unique_waiting_entry]. *)
Definition waiting_key (user_id : Z) (book_title office : string) (w : waiting) : Prop :=
  w_user_id w = user_id ∧ w_book_title w = book_title ∧ w_office w = office.

Global Instance waiting_key_dec u t o w : Decision (waiting_key u t o w).
Proof. unfold waiting_key. apply _. Defined.

(** ** Functions on the database *)

(** [update_book_status]: UPDATE books SET status = $1 WHERE id = $2, on a
    connection of its own. *)
Definition update_book_status (book_id : Z) (status : string) : M state unit :=
  execute (set_books (sql_update (λ b, b_id b = book_id) (book_set_status status))).

(** [get_user_info]: the row of [users] with that [user_id], if any. *)
Definition get_user_info (user_id : Z) : M state (option user) :=
  fetch (λ d, users d !! user_id).

(** [remove_from_waiting_list]: DELETE FROM waiting_list WHERE user_id = $1
    AND book_title = $2 AND office = $3, on a connection of its own. *)
Definition remove_from_waiting_list (user_id : Z) (book_title office : string) : M state unit :=
  execute (set_waiting_list (sql_delete (waiting_key user_id book_title office))).

(** The INSERT INTO bookings ... RETURNING id of [create_booking], executed on
    [conn].  The sequence advances whether or not the row is accepted and is
    never rolled back; the row must reference an existing user and an existing
    book (the REFERENCES clauses of the table); [status] takes its default
    'active'. *)
Definition insert_booking (user_id book_id : Z) (book_title office : string)
    (start_time : datetime) (duration : string) (end_time : datetime)
    (extension_made overdue_notified : bool) : M txn Z := λ t,
  let id := bookings_id_seq (st_db (base t)) in
  let t' := Txn (set_db (set_bookings_id_seq Z.succ) (base t)) (pending t) in
  let row := Booking id user_id book_id book_title office start_time duration
               end_time "active" extension_made overdue_notified in
  if decide (is_Some (users (view t') !! user_id) ∧
             Exists (λ b, b_id b = book_id) (books (view t')))
  then (inr id, Txn (base t') (set_bookings (sql_insert row) ∘ pending t'))
  else (inl ForeignKeyViolationError, t').

(** The duration classes of [create_booking] and the length of each. *)
Definition booking_length (duration : string) : option timedelta :=
  if decide (duration = "1 час") then Some (timedelta_hours 1)
  else if decide (duration = "1 неделя") then Some (timedelta_weeks 1)
  else if decide (duration = "1 месяц") then Some (timedelta_days 30)
  else if decide (duration = "3 месяца") then Some (timedelta_days 90)
  else if decide (duration = "6 месяцев") then Some (timedelta_days 180)
  else None.

(** [create_booking]; [now] is the value of [datetime.now()]. *)
Definition create_booking (now : datetime) (user_id book_id : Z)
    (book_title office duration : string) : M state (Z * datetime) :=
  let start_time := now in
  end_time ← match booking_length duration with
             | Some length => mret (start_time + length)
             | None => raise (ValueError ("Неизвестная длительность: " +:+ duration))
             end;
  transaction (
    other_conn (update_book_status book_id "booked");;
    other_conn (remove_from_waiting_list user_id book_title office);;
    booking_id ← insert_booking user_id book_id book_title office start_time
                   duration end_time false false;
    on_conn (set_users (alter
      (user_set_booked book_title start_time duration end_time) user_id));;
    mret (booking_id, end_time)).

(** The extension granted for each duration class, with its label. *)
Definition extension_of (original_duration : string) : option (timedelta * string) :=
  if decide (original_duration = "1 час") then Some (timedelta_minutes 15, "15 минут")
  else if decide (original_duration = "1 неделя") then Some (timedelta_weeks 1, "1 неделю")
  else if decide (original_duration = "1 месяц") then Some (timedelta_days 14, "2 недели")
  else if decide (original_duration = "3 месяца") then Some (timedelta_days 30, "1 месяц")
  else if decide (original_duration = "6 месяцев") then Some (timedelta_days 60, "2 месяца")
  else None.

(** The WHERE clause of [extend_booking]: id = $1 AND user_id = $2 AND
    status = 'active'. *)
Definition active_booking_of (booking_id user_id : Z) (b : booking) : Prop :=
  bk_id b = booking_id ∧ bk_user_id b = user_id ∧ bk_status b = "active".

Global Instance active_booking_of_dec i u b : Decision (active_booking_of i u b).
Proof. unfold active_booking_of. apply _. Defined.

Definition not_found_msg : string := "Бронирование не найдено или уже завершено".
Definition already_extended_msg : string := "Бронь уже была продлена ранее".

(** [extend_booking]. *)
Definition extend_booking (booking_id user_id : Z) (book_title office : string)
    : M state (datetime * string) :=
  booking ← fetch (λ d, head (filter (active_booking_of booking_id user_id) (bookings d)));
  match booking with
  | None => raise (ValueError not_found_msg)
  | Some booking =>
    if bk_extension_made booking then raise (ValueError already_extended_msg)
    else
      let original_duration := bk_duration booking in
      let current_end := bk_end_time booking in
      match extension_of original_duration with
      | None => raise (ValueError "Неизвестная длительность")
      | Some (extension, extension_text) =>
        let new_end := current_end + extension in
        transaction (
          on_conn (set_bookings (sql_update (λ b, bk_id b = booking_id)
                                   (booking_set_extended new_end)));;
          on_conn (set_users (alter (user_set_booking_end book_title new_end) user_id));;
          mret (new_end, extension_text))
      end
  end.

(** The INSERT ... ON CONFLICT (user_id, book_title, office) DO NOTHING of
    [add_to_waiting_list]: a row with the same key leaves the table as it is;
    otherwise the row must reference an existing user; [added_at] takes
    CURRENT_TIMESTAMP and [notified] FALSE. *)
Definition insert_waiting (now : datetime) (user_id : Z) (book_title office : string)
    : M state unit := λ s,
  if decide (Exists (waiting_key user_id book_title office) (waiting_list (st_db s)))
  then (inr (), s)
  else if decide (is_Some (users (st_db s) !! user_id))
  then (inr (), set_db (set_waiting_list
          (sql_insert (Waiting user_id book_title office now false))) s)
  else (inl ForeignKeyViolationError, s).

(** [add_to_waiting_list]. *)
Definition add_to_waiting_list (now : datetime) (user_id : Z) (book_title office : string)
    : M state bool :=
  try_except
    (insert_waiting now user_id book_title office;; mret true)
    (λ e, mret false).

(** The order of ORDER BY added_at ASC. *)
Definition added_at_le (a b : waiting) : Prop := w_added_at a ≤ w_added_at b.

Global Instance added_at_le_dec a b : Decision (added_at_le a b).
Proof. unfold added_at_le. apply _. Defined.

(** The WHERE clause of [get_first_in_waiting_list]. *)
Definition unnotified_for (book_title office : string) (w : waiting) : Prop :=
  w_book_title w = book_title ∧ w_office w = office ∧ w_notified w = false.

Global Instance unnotified_for_dec t o w : Decision (unnotified_for t o w).
Proof. unfold unnotified_for. apply _. Defined.

(** [get_first_in_waiting_list]: SELECT user_id FROM waiting_list WHERE
    book_title = $1 AND office = $2 AND NOT notified ORDER BY added_at ASC
    LIMIT 1. *)
Definition get_first_in_waiting_list (book_title office : string) : M state (option Z) :=
  fetch (λ d, w_user_id <$> head (merge_sort added_at_le
    (filter (unnotified_for book_title office) (waiting_list d)))).

(** The WHERE clause of [get_available_book_instance]. *)
Definition available_copy (LOWER : string → string) (title office : string) (b : book) : Prop :=
  LOWER (b_title b) = LOWER title ∧ b_office b = office ∧ b_status b = "available".

Global Instance available_copy_dec LOWER t o b : Decision (available_copy LOWER t o b).
Proof. unfold available_copy. apply _. Defined.

(** [get_available_book_instance]: the columns id, title, author, shelf, floor
    of the first row that a scan of [books] finds with the title (compared
    through [LOWER]), the office and status 'available'.  The query has no
    ORDER BY.  [LOWER] is the function of the database engine. *)
Definition get_available_book_instance (LOWER : string → string) (title office : string)
    : M state (option (Z * string * string * option Z * option Z)) :=
  fetch (λ d, (λ b, (b_id b, b_title b, b_author b, b_shelf b, b_floor b)) <$>
    head (filter (available_copy LOWER title office) (books d))).

Definition get_return_book_keyboard (book_title : string) : list (string * string) :=
  [("Вернуть книгу " +:+ book_title, "return_" +:+ book_title)].

Definition get_waitlist_notification_keyboard (book_title office : string)
    : list (string * string) :=
  [("Забронировать эту книгу", "waitlist_book_" +:+ book_title +:+ "_" +:+ office);
   ("Выбрать другую книгу", "action_book")].

Section Sink.

(** The notification sink: [deliver m] tells whether [bot.send_message]
    delivers [m]; when it does not, the call raises. *)
Variable deliver : message → bool.

Definition send_message (chat_id : Z) (text : string) (parse_mode : option string)
    (reply_markup : option (list (string * string))) : M state unit := λ s,
  let m := Message chat_id text parse_mode reply_markup in
  if deliver m
  then (inr (), State (st_db s) (st_sent s ++ [m]) (st_attrs s))
  else (inl TelegramAPIError, s).

(** [notify_next_in_waiting_list]. *)
Definition notify_next_in_waiting_list (book_title office : string) : M state bool :=
  waiting_user ← get_first_in_waiting_list book_title office;
  match waiting_user with
  | Some user_id =>
    user_info ← get_user_info user_id;
    match user_info with
    | Some user_info =>
      let first_name := u_first_name user_info in
      try_except
        (send_message user_id
           ("🎉 " +:+ first_name +:+ ", книга '" +:+ book_title +:+
            "' освободилась! Хотите её забронировать?")
           None (Some (get_waitlist_notification_keyboard book_title office));;
         execute (set_waiting_list (sql_update (waiting_key user_id book_title office)
                                      waiting_set_notified));;
         mret true)
        (λ e, mret false)
    | None => mret false
    end
  | None => mret false
  end.

(** [complete_booking]. *)
Definition complete_booking (user_id booking_id book_id : Z) (book_title office : string)
    : M state unit :=
  transaction (
    other_conn (update_book_status book_id "available");;
    on_conn (set_users (alter user_set_available user_id));;
    on_conn (set_bookings (sql_update (λ b, bk_id b = booking_id)
                             (booking_set_status "completed")));;
    other_conn (notify_next_in_waiting_list book_title office);;
    mret ()).

End Sink.

(** ** The reminder sweep *)

(** A row of the query of [check_reminders]. *)
Record reminder_row := ReminderRow {
  r_user_id : Z;
  r_first_name : string;
  r_last_name : option string;
  r_office : option string;
  r_booking_id : Z;
  r_book_id : Z;
  r_book_title : string;
  r_booking_start : datetime;
  r_booking_duration : string;
  r_booking_end : datetime;
  r_extension_made : bool;
  r_overdue_notified : bool
}.

(** SELECT ... FROM users u JOIN bookings b ON u.user_id = b.user_id AND
    b.status = 'active' WHERE u.status = 'booked' AND u.booking_end IS NOT
    NULL, in the order of [bookings]. *)
Definition reminder_rows (d : db) : list reminder_row :=
  omap (λ b,
    if decide (bk_status b = "active") then
      match users d !! bk_user_id b with
      | Some u =>
        if decide (u_status u = "booked" ∧ is_Some (u_booking_end u))
        then Some (ReminderRow (bk_user_id b) (u_first_name u) (u_last_name u) (u_office u)
                     (bk_id b) (bk_book_id b) (bk_book_title b) (bk_start_time b)
                     (bk_duration b) (bk_end_time b) (bk_extension_made b)
                     (bk_overdue_notified b))
        else None
      | None => None
      end
    else None) (bookings d).

(** [if P: m]. *)
Definition when {S} (P : Prop) `{Decision P} (m : M S unit) : M S unit :=
  if decide P then m else mret ().

(** [for x in l: body]. *)
Definition for_each {S A} (l : list A) (body : A → M S unit) : M S unit :=
  foldr (λ a k, body a;; k) (mret ()) l.

(** How an f-string prints a value that may be None. *)
Definition str_of_option (o : option string) : string := default "None" o.

Definition forget_not (book tail : string) : string :=
  "Не забудьте вернуть книгу '" +:+ book +:+ "' " +:+ tail.

(** [last is None or (now - last) >= timedelta(hours=2)]. *)
Definition reminder_due (now : datetime) (last : option datetime) : Prop :=
  match last with
  | None => True
  | Some last => timedelta_hours 2 ≤ now - last
  end.

Global Instance reminder_due_dec now last : Decision (reminder_due now last).
Proof. destruct last; simpl; apply _. Defined.

Section Sweep.

Variable deliver : message → bool.
Variable GROUP_CHAT_ID : Z.

(** The reminders before the end of the booking ("Напоминания до
    окончания"). *)
Definition remind_before_end (now : datetime) (rec : reminder_row) : M state unit :=
  let uid := r_user_id rec in
  let book := r_book_title rec in
  let start := r_booking_start rec in
  let dur := r_booking_duration rec in
  let end_ := r_booking_end rec in
  let kb := Some (get_return_book_keyboard book) in
  if decide (dur = "1 час") then
    let remind_15 := end_ - timedelta_minutes 15 in
    when (remind_15 ≤ now ∧ now < end_)
      (send_message deliver uid ("*" +:+ forget_not book "через 15 минут*")
         (Some "Markdown") kb)
  else if decide (dur = "1 неделя") then
    let day5 := start + timedelta_days 5 in
    when (date now = date day5 ∧ hour now = 9)
      (send_message deliver uid (forget_not book "завтра") None kb);;
    let day6 := start + timedelta_days 6 in
    when (date now = date day6 ∧ hour now = 9)
      (send_message deliver uid (forget_not book "сегодня") None kb)
  else if decide (dur = "1 месяц") then
    let day21 := start + timedelta_days 21 in
    when (date now = date day21 ∧ hour now = 9)
      (send_message deliver uid (forget_not book "через неделю") None None);;
    let day27 := start + timedelta_days 27 in
    when (date now = date day27 ∧ hour now = 9)
      (send_message deliver uid (forget_not book "сегодня") None kb)
  else if decide (dur = "3 месяца") then
    let week_before := end_ - timedelta_days 7 in
    when (date now = date week_before ∧ hour now = 9)
      (send_message deliver uid (forget_not book "через неделю") None None);;
    let day_before := end_ - timedelta_days 1 in
    when (date now = date day_before ∧ hour now = 9)
      (send_message deliver uid (forget_not book "завтра") None kb)
  else if decide (dur = "6 месяцев") then
    let month_before := end_ - timedelta_days 30 in
    when (date now = date month_before ∧ hour now = 9)
      (send_message deliver uid (forget_not book "через месяц") None None);;
    let week_before := end_ - timedelta_days 7 in
    when (date now = date week_before ∧ hour now = 9)
      (send_message deliver uid (forget_not book "через неделю") None None);;
    let day_before := end_ - timedelta_days 1 in
    when (date now = date day_before ∧ hour now = 9)
      (send_message deliver uid (forget_not book "завтра") None kb)
  else mret ().

(** The booking has ended ("Бронь закончилась"): at most one message every
    two hours, remembered in an attribute of the function object. *)
Definition remind_ended (now : datetime) (rec : reminder_row) : M state unit :=
  let uid := r_user_id rec in
  let bid := r_booking_id rec in
  let book := r_book_title rec in
  let end_ := r_booking_end rec in
  let last_key := "last_reminder_" +:+ pretty uid +:+ "_" +:+ pretty bid in
  when (end_ ≤ now) (
    last ← gets (λ s, st_attrs s !! last_key);
    when (reminder_due now last) (
      let builder :=
        [("Вернуть книгу " +:+ book, "return_" +:+ book)] ++
        (if r_extension_made rec then []
         else [("⏳ Продлить бронь", "extend_" +:+ pretty bid)]) in
      send_message deliver uid
        ("Бронь книги '" +:+ book +:+ "' закончилась. Пожалуйста, верните книгу.")
        None (Some builder);;
      modify (λ s, State (st_db s) (st_sent s) (<[last_key := now]> (st_attrs s))))).

(** More than a day overdue ("Просрочка более суток"). *)
Definition escalate_overdue (now : datetime) (rec : reminder_row) : M state unit :=
  let uid := r_user_id rec in
  let bid := r_booking_id rec in
  let book := r_book_title rec in
  let end_ := r_booking_end rec in
  when (end_ + timedelta_days 1 ≤ now ∧ r_overdue_notified rec = false) (
    send_message deliver GROUP_CHAT_ID
      ("🆘️ Просрочка: пользователь " +:+ r_first_name rec +:+ " " +:+
       str_of_option (r_last_name rec) +:+ " (ID: " +:+ pretty uid +:+ ") " +:+
       "не вернул книгу '" +:+ book +:+ "' спустя сутки от окончания бронирования")
      None None;;
    execute (set_bookings (sql_update (λ b, bk_id b = bid)
                             booking_set_overdue_notified))).

(** The body of [for rec in rows].  [start] and [end] come from NOT NULL
    columns and a [datetime] is never false, so the [continue] is never
    taken. *)
Definition check_reminders_row (now : datetime) (rec : reminder_row) : M state unit :=
  remind_before_end now rec;;
  remind_ended now rec;;
  escalate_overdue now rec.

(** The [try] block of one pass of [check_reminders], run at [now]. *)
Definition check_reminders_try (now : datetime) : M state unit :=
  rows ← fetch reminder_rows;
  for_each rows (check_reminders_row now).

(** One pass of the [while True] loop, up to the [asyncio.sleep]: the
    [except Exception] of the source logs the exception. *)
Definition check_reminders (now : datetime) : M state unit :=
  try_except (check_reminders_try now) (λ e, mret ()).

End Sweep.

Global Instance exn_eq_dec : EqDecision exn.
Proof. solve_decision. Defined.
Global Instance message_eq_dec : EqDecision message.
Proof. solve_decision. Defined.

(** ** Users *)

Definition user_set_name (first_name last_name : string) (u : user) : user :=
  User first_name (Some last_name) (u_office u) (u_current_book u) (u_booking_start u)
    (u_booking_duration u) (u_booking_end u) (u_status u) (u_rules_accepted u).

Definition user_set_rules_accepted (u : user) : user :=
  User (u_first_name u) (u_last_name u) (u_office u) (u_current_book u) (u_booking_start u)
    (u_booking_duration u) (u_booking_end u) (u_status u) true.

Definition user_set_office (office : string) (u : user) : user :=
  User (u_first_name u) (u_last_name u) (Some office) (u_current_book u)
    (u_booking_start u) (u_booking_duration u) (u_booking_end u) (u_status u)
    (u_rules_accepted u).

(** [register_user]: INSERT INTO users (user_id, first_name, last_name, status)
    VALUES ($1, $2, $3, 'available') ON CONFLICT (user_id) DO UPDATE SET
    first_name = $2, last_name = $3.  The other columns of a new row take
    their defaults: NULL, and FALSE for [rules_accepted]. *)
Definition register_user (user_id : Z) (first_name last_name : string) : M state unit :=
  execute (set_users (λ rows,
    match rows !! user_id with
    | Some u => <[user_id := user_set_name first_name last_name u]> rows
    | None => <[user_id := User first_name (Some last_name) None None None None None
                             "available" false]> rows
    end)).

(** [accept_rules]. *)
Definition accept_rules (user_id : Z) : M state unit :=
  execute (set_users (alter user_set_rules_accepted user_id)).

(** [update_user_office]. *)
Definition update_user_office (user_id : Z) (office : string) : M state unit :=
  execute (set_users (alter (user_set_office office) user_id)).

(** A row of [get_user_booking]. *)
Record user_booking := UserBooking {
  ub_booking_id : Z;
  ub_book_id : Z;
  ub_book_title : string;
  ub_booking_start : datetime;
  ub_booking_duration : string;
  ub_booking_end : datetime
}.

(** The join condition of [get_user_booking]: u.user_id = b.user_id AND
    b.status = 'active'. *)
Definition active_booking_by (user_id : Z) (b : booking) : Prop :=
  bk_user_id b = user_id ∧ bk_status b = "active".

Global Instance active_booking_by_dec u b : Decision (active_booking_by u b).
Proof. unfold active_booking_by. apply _. Defined.

(** [get_user_booking]: the first active booking of the user, when the user
    has status 'booked'. *)
Definition get_user_booking (user_id : Z) : M state (option user_booking) :=
  fetch (λ d,
    match users d !! user_id with
    | Some u =>
      if decide (u_status u = "booked")
      then (λ b, UserBooking (bk_id b) (bk_book_id b) (bk_book_title b) (bk_start_time b)
                   (bk_duration b) (bk_end_time b)) <$>
           head (filter (active_booking_by user_id) (bookings d))
      else None
    | None => None
    end).

(** ** The catalogue *)

(** The WHERE clause of [get_book_by_title_any_status]. *)
Definition copy_of (LOWER : string → string) (title office : string) (b : book) : Prop :=
  LOWER (b_title b) = LOWER title ∧ b_office b = office.

Global Instance copy_of_dec LOWER t o b : Decision (copy_of LOWER t o b).
Proof. unfold copy_of. apply _. Defined.

(** [get_book_by_title_any_status]: the columns id, title, author, shelf,
    floor, status of the first row that a scan finds with the title and the
    office. *)
Definition get_book_by_title_any_status (LOWER : string → string) (title office : string)
    : M state (option (Z * string * string * option Z * option Z * string)) :=
  fetch (λ d, (λ b, (b_id b, b_title b, b_author b, b_shelf b, b_floor b, b_status b)) <$>
    head (filter (copy_of LOWER title office) (books d))).

(** The WHERE clause of [get_books_by_office]: office = $1 AND status = $2,
    called with 'available'. *)
Definition available_in (office : string) (b : book) : Prop :=
  b_office b = office ∧ b_status b = "available".

Global Instance available_in_dec o b : Decision (available_in o b).
Proof. unfold available_in. apply _. Defined.

Section Collation.

(** The order in which the database compares two titles. *)
Variable title_le : relation string.
Context `{∀ x y, Decision (title_le x y)}.

(** ORDER BY title, id. *)
Definition by_title_id (b1 b2 : book) : Prop :=
  title_le (b_title b1) (b_title b2) ∧
  (title_le (b_title b2) (b_title b1) → b_id b1 ≤ b_id b2).

Global Instance by_title_id_dec b1 b2 : Decision (by_title_id b1 b2).
Proof. unfold by_title_id. apply _. Defined.

(** [get_books_by_office]. *)
Definition get_books_by_office (office : string)
    : M state (list (Z * string * string * option Z * option Z)) :=
  fetch (λ d, (λ b, (b_id b, b_title b, b_author b, b_shelf b, b_floor b)) <$>
    merge_sort by_title_id (filter (available_in office) (books d))).

End Collation.

(** ** Removing users and copies (the group's edit commands) *)

(** The '!!!' branch of [process_users_edit] for the id [uid] read from the
    line: the user is looked up, and when found, the user's waiting-list
    entries, bookings and row are deleted in one transaction on [conn].  The
    result is the line added to [results].  [if not user] also holds for the
    id 0. *)
Definition process_users_edit_delete (uid : Z) : M state string :=
  user ← fetch (λ d, (λ _, uid) <$> users d !! uid);
  if decide (user = None ∨ user = Some 0)
  then mret ("❌ Пользователь " +:+ pretty uid +:+ " не найден")
  else
    transaction (
      on_conn (set_waiting_list (sql_delete (λ w, w_user_id w = uid)));;
      on_conn (set_bookings (sql_delete (λ b, bk_user_id b = uid)));;
      on_conn (set_users (delete uid));;
      mret ("✅ Пользователь " +:+ pretty uid +:+ " полностью удалён")).

(** The DELETE of the '-' branch of [process_books_edit]: DELETE FROM books
    WHERE LOWER(title) = LOWER($1) AND office = $2.  The statement fails as a
    whole when a booking references one of the rows (the REFERENCES clause of
    [bookings.book_id]); otherwise it returns the number of rows deleted. *)
Definition delete_books (LOWER : string → string) (title office : string) : M state nat := λ s,
  let d := st_db s in
  if decide (Exists (λ b, copy_of LOWER title office b ∧
                          Exists (λ k, bk_book_id k = b_id b) (bookings d)) (books d))
  then (inl ForeignKeyViolationError, s)
  else (inr (length (filter (copy_of LOWER title office) (books d))),
        set_db (set_books (sql_delete (copy_of LOWER title office))) s).

(** ** Callback data

    A Python [str] is modelled by its UTF-8 bytes.  The separators and the
    prefixes that the source searches for are ASCII, and an ASCII byte never
    occurs inside the encoding of another character, so that searching the
    bytes finds the same places as searching the characters. *)

(** [s.split(sep)] for a separator of one character. *)
Fixpoint split (sep : ascii) (s : string) : list string :=
  match s with
  | EmptyString => [EmptyString]
  | String c r =>
    if decide (c = sep) then EmptyString :: split sep r
    else match split sep r with
         | h :: t => String c h :: t
         | [] => [String c EmptyString]
         end
  end.

(** [sep.join(parts)]. *)
Fixpoint join (sep : string) (parts : list string) : string :=
  match parts with
  | [] => ""
  | [x] => x
  | x :: parts => x +:+ sep +:+ join sep parts
  end.

(** The parsing of [process_waitlist_book]: [parts = data.split("_")], no
    answer when [len(parts) < 4], otherwise the title ["_".join(parts[2:-1])]
    and the office [parts[-1]]. *)
Definition process_waitlist_book_parse (data : string) : option (string * string) :=
  let parts := split "_" data in
  if decide (length parts < 4)%nat then None
  else
    let book_title := join "_" (drop 2 (take (length parts - 1) parts)) in
    let office := default "" (last parts) in
    Some (book_title, office).

(** What is left of [s] after the prefix [p], if [s] starts with [p]. *)
Fixpoint starts_with (p s : string) : option string :=
  match p, s with
  | EmptyString, _ => Some s
  | String a p, String b s => if decide (a = b) then starts_with p s else None
  | String _ _, EmptyString => None
  end.

(** [s.replace(old, new)] for a non-empty [old], as all uses in the source
    are: the occurrences of [old] are replaced from left to right, without
    overlap.  [fuel] bounds the number of steps; the length of [s] plus one
    is enough. *)
Fixpoint replace_go (fuel : nat) (old new s : string) : string :=
  match fuel with
  | O => s
  | S fuel =>
    match starts_with old s with
    | Some rest => new +:+ replace_go fuel old new rest
    | None =>
      match s with
      | EmptyString => EmptyString
      | String c r => String c (replace_go fuel old new r)
      end
    end
  end.

Definition replace (old new s : string) : string :=
  replace_go (S (String.length s)) old new s.

(** The title that [process_return_book] reads from the callback data:
    [callback.data.replace("return_", "")]. *)
Definition process_return_book_title (data : string) : string :=
  replace "return_" "" data.

(** The keyboards and the maps of the dialog that lead to [create_booking]. *)
Definition get_duration_keyboard : list (string * string) :=
  [("1 час", "duration_1h"); ("1 неделя", "duration_1w"); ("1 месяц", "duration_1m");
   ("3 месяца", "duration_3m"); ("6 месяцев", "duration_6m")].

(** [duration_map.get(callback.data)] in [process_duration]. *)
Definition duration_map (data : string) : option string :=
  if decide (data = "duration_1h") then Some "1 час"
  else if decide (data = "duration_1w") then Some "1 неделя"
  else if decide (data = "duration_1m") then Some "1 месяц"
  else if decide (data = "duration_3m") then Some "3 месяца"
  else if decide (data = "duration_6m") then Some "6 месяцев"
  else None.

Definition get_office_keyboard : list (string * string) :=
  [("Stone Towers", "office_stone"); ("Manhatten", "office_manhatten");
   ("Известия", "office_izvestia")].

(** [office_map.get(callback.data)] in [process_office]. *)
Definition office_map (data : string) : option string :=
  if decide (data = "office_stone") then Some "Stone Towers"
  else if decide (data = "office_manhatten") then Some "Manhatten"
  else if decide (data = "office_izvestia") then Some "Известия"
  else None.

(** ** The broadcast of the group handler *)

(** The line feed of the message texts. *)
Definition newline : string := String "010" "".

(** The loop of the broadcast: every user is tried, a delivery that raises is
    counted and the loop goes on. *)
Fixpoint broadcast_loop (deliver : message → bool) (broadcast_text : string)
    (user_ids : list Z) (sent failed : nat) : M state (nat * nat) :=
  match user_ids with
  | [] => mret (sent, failed)
  | uid :: user_ids =>
    delivered ← try_except
      (send_message deliver uid broadcast_text None None;; mret true)
      (λ e, mret false);
    if (delivered : bool)
    then broadcast_loop deliver broadcast_text user_ids (S sent) failed
    else broadcast_loop deliver broadcast_text user_ids sent (S failed)
  end.

(** The last part of [group_text_handler] ("МАССОВАЯ РАССЫЛКА"): the text of
    a message of the group that is no command is sent to every user.  The
    result is the pair (sent, failed) that the reply to the group reports, and
    nothing when there is no user. *)
Definition group_text_handler_broadcast (deliver : message → bool) (text : string)
    : M state (option (nat * nat)) :=
  user_ids ← fetch (λ d, (map_to_list (users d)).*1);
  if decide (user_ids = []) then mret None
  else
    let broadcast_text :=
      "📢 Сообщение от администрации:" +:+ newline +:+ newline +:+ text in
    counts ← broadcast_loop deliver broadcast_text user_ids 0 0;
    mret (Some counts).

(** ** The catalogue in parts *)

Section Parts.

(** The characters of a text, and the line feed among them; [len] is the
    number of characters. *)
Context {char : Type}.
Variable line_feed : char.

(** The loop of [send_all_books_list] that cuts a catalogue too long for one
    message: the parts sent, each with its number; [part] and [chunk] are the
    variables of the loop. *)
Fixpoint catalogue_parts (part : nat) (chunk : list char) (text_lines : list (list char))
    : list (nat * list char) :=
  match text_lines with
  | [] =>
    match chunk with
    | [] => []
    | _ => [(part, chunk)]
    end
  | line :: text_lines =>
    if decide (4000 < length chunk + length line)%nat
    then (part, chunk) :: catalogue_parts (S part) (line ++ [line_feed]) text_lines
    else catalogue_parts part (chunk ++ line ++ [line_feed]) text_lines
  end.

End Parts.

(** ** The reservation dialog *)

(** What the dialog keeps for a user between two handlers (the data of
    [state.update_data]) once [process_book_title] has offered a copy:
    [first_name] and [office], written earlier in the dialog, and the keys
    that [process_book_title] writes. *)
Record dialog_data := DialogData {
  d_first_name : string;
  d_office : string;
  d_book_title : string;
  d_author : string;
  d_book_id : Z;
  d_shelf : option Z;
  d_floor : option Z
}.

(** The branch that [process_book_title] takes. *)
Inductive book_title_outcome :=
  | Start_again
  | Nothing_suitable
  | No_such_book
  | Ask_waitlist (book_title author : string)
  | Ask_confirmation (data : dialog_data).

(** [process_book_title]: what it reads from the database and what it writes
    to the data of the dialog; its replies to the user are left out.
    [first_name] and [office] are [data.get] of these keys, [title_input] is
    [message.text.strip()], [str_lower] is [str.lower] and [LOWER] the
    function of the database engine. *)
Definition process_book_title (LOWER str_lower : string → string)
    (first_name office : option string) (title_input : string)
    : M state book_title_outcome :=
  match office, first_name with
  | Some office, Some first_name =>
    if decide (office = "" ∨ first_name = "") then mret Start_again
    else if decide (str_lower title_input = "нет") then mret Nothing_suitable
    else
      book_any ← get_book_by_title_any_status LOWER title_input office;
      match book_any with
      | None => mret No_such_book
      | Some (_, any_title, any_author, _, _, _) =>
        available_book ← get_available_book_instance LOWER title_input office;
        match available_book with
        | None => mret (Ask_waitlist any_title any_author)
        | Some (book_id, title, author, shelf, floor) =>
          mret (Ask_confirmation
                  (DialogData first_name office title author book_id shelf floor))
        end
      end
  | _, _ => mret Start_again
  end.

(** [process_duration], which follows [process_book_title] once the user has
    confirmed ([process_confirmation_yes] reads the first name and changes
    neither the database nor the data): the reservation and the message to
    the group; the reply to the user is left out.  [data] is the data of the
    dialog, [callback_data] the data of the button. *)
Definition process_duration (deliver : message → bool) (GROUP_CHAT_ID : Z) (now : datetime)
    (user_id : Z) (callback_data : string) (data : dialog_data) : M state unit :=
  match duration_map callback_data with
  | None => mret ()
  | Some dur =>
    let book_title := d_book_title data in
    let book_id := d_book_id data in
    let office := d_office data in
    let first_name := d_first_name data in
    try_except
      (create_booking now user_id book_id book_title office dur;;
       user_info ← get_user_info user_id;
       match user_info with
       | Some user_info =>
         send_message deliver GROUP_CHAT_ID
           ("✅️ Бронирование: Пользователь " +:+ first_name +:+ " " +:+
            str_of_option (u_last_name user_info) +:+ " (ID: " +:+ pretty user_id +:+ ") " +:+
            "забронировал книгу '" +:+ book_title +:+ "' на срок " +:+ dur)
           None None
       | None => mret ()
       end)
      (λ e, mret ())
  end.
(** ** The states after a call *)

(** The committed database after the two calls of [create_booking] that run on
    connections of their own and the draw from the sequence. *)
Definition create_booking_committed (user_id book_id : Z) (book_title office : string)
    (s : state) : state :=
  set_db (set_bookings_id_seq Z.succ)
    (set_db (set_waiting_list (sql_delete (waiting_key user_id book_title office)))
       (set_db (set_books (sql_update (λ b, b_id b = book_id) (book_set_status "booked")))
          s)).

(** ** Duration classes, as the specification names them *)

Inductive duration_class := OneHour | OneWeek | OneMonth | ThreeMonths | SixMonths.

(** The label under which the source stores each class. *)
Definition label (c : duration_class) : string :=
  match c with
  | OneHour => "1 час"
  | OneWeek => "1 неделя"
  | OneMonth => "1 месяц"
  | ThreeMonths => "3 месяца"
  | SixMonths => "6 месяцев"
  end.

Definition labels : list string := label <$> [OneHour; OneWeek; OneMonth; ThreeMonths; SixMonths].

(** The duration mapping [f] of the specification: 1 hour → +1h; 1 week →
    +7d; 1 month → +30d; 3 months → +90d; 6 months → +180d. *)
Definition f (c : duration_class) : timedelta :=
  match c with
  | OneHour => timedelta_hours 1
  | OneWeek => timedelta_days 7
  | OneMonth => timedelta_days 30
  | ThreeMonths => timedelta_days 90
  | SixMonths => timedelta_days 180
  end.

(** The extension mapping of the specification: 1 hour → +15 min; 1 week →
    +1 week; 1 month → +14 days; 3 months → +30 days; 6 months → +60 days. *)
Definition extension_length (c : duration_class) : timedelta :=
  match c with
  | OneHour => timedelta_minutes 15
  | OneWeek => timedelta_days 7
  | OneMonth => timedelta_days 14
  | ThreeMonths => timedelta_days 30
  | SixMonths => timedelta_days 60
  end.

(** ** A small library, for the examples *)

Definition ex_user (first_name : string) : user :=
  User first_name None (Some "L1") None None None None "available" true.

Definition ex_book (id : Z) (title : string) : book :=
  Book id title "A" "L1" "available" None None.

(** Two copies of "X" and two registered readers, 42 and 43. *)
Definition ex_db : db :=
  Db [ex_book 1 "X"; ex_book 2 "X"] []
     (<[42 := ex_user "Ann"]> (<[43 := ex_user "Bob"]> ∅)) [] 1.

Definition ex_state : state := State ex_db [] ∅.

(** Some day at 08:00. *)
Definition T0 : datetime := timedelta_days 20000 + timedelta_hours 8.

(** The constraint [unique_waiting_entry]: no two rows of [waiting_list] agree
    on (user_id, book_title, office). *)
Definition waiting_unique (d : db) : Prop :=
  NoDup ((λ w, (w_user_id w, w_book_title w, w_office w)) <$> waiting_list d).

(** Ann (42) waits since 100, Bob (43) since 200, both for "X" at "L1". *)
Definition ex_waiting_state : state :=
  set_db (set_waiting_list (λ _, [Waiting 43 "X" "L1" 200 false;
                                  Waiting 42 "X" "L1" 100 false])) ex_state.

(** LOWER on the letters A to Z, which is all the examples need. *)
Definition lower_ascii (a : ascii) : ascii :=
  let n := nat_of_ascii a in
  if ((65 <=? n) && (n <=? 90))%nat then ascii_of_nat (n + 32) else a.

Fixpoint lower (s : string) : string :=
  match s with
  | EmptyString => EmptyString
  | String a r => String (lower_ascii a) (lower r)
  end.

(** The same two copies of "X", found by a scan in the order 2, 1. *)
Definition ex_scan_state : state :=
  set_db (set_books (λ _, [ex_book 2 "X"; ex_book 1 "X"])) ex_state.

(** Copies of [book_title] at [office] are released one after the other, each
    release calling [notify_next_in_waiting_list]; [sinks] gives the
    notification sink at each release. *)
Definition releases (sinks : list (message → bool)) (book_title office : string)
    (s : state) : state :=
  foldl (λ s deliver, snd (notify_next_in_waiting_list deliver book_title office s)) s sinks.

Global Instance waiting_unique_dec d : Decision (waiting_unique d).
Proof. unfold waiting_unique. apply _. Defined.

(** ** Calls and runs *)

(** The calls that act on the reservation state. *)
Inductive call :=
  | Create_booking (now user_id book_id : Z) (book_title office duration : string)
  | Complete_booking (deliver : message → bool) (user_id booking_id book_id : Z)
      (book_title office : string)
  | Extend_booking (booking_id user_id : Z) (book_title office : string)
  | Add_to_waiting_list (now user_id : Z) (book_title office : string)
  | Remove_from_waiting_list (user_id : Z) (book_title office : string)
  | Check_reminders (deliver : message → bool) (GROUP_CHAT_ID : Z) (now : datetime).

(** The state after a call, whatever it returns or raises. *)
Definition run (c : call) (s : state) : state :=
  match c with
  | Create_booking now user_id book_id book_title office duration =>
      snd (create_booking now user_id book_id book_title office duration s)
  | Complete_booking deliver user_id booking_id book_id book_title office =>
      snd (complete_booking deliver user_id booking_id book_id book_title office s)
  | Extend_booking booking_id user_id book_title office =>
      snd (extend_booking booking_id user_id book_title office s)
  | Add_to_waiting_list now user_id book_title office =>
      snd (add_to_waiting_list now user_id book_title office s)
  | Remove_from_waiting_list user_id book_title office =>
      snd (remove_from_waiting_list user_id book_title office s)
  | Check_reminders deliver GROUP_CHAT_ID now =>
      snd (check_reminders deliver GROUP_CHAT_ID now s)
  end.

Definition run_all (cs : list call) (s : state) : state :=
  foldl (λ s c, run c s) s cs.

(** ** Copy exclusivity *)

(** An active booking of the copy [book_id]. *)
Definition active_for (book_id : Z) (k : booking) : Prop :=
  bk_status k = "active" ∧ bk_book_id k = book_id.

Global Instance active_for_dec book_id k : Decision (active_for book_id k).
Proof. unfold active_for. apply _. Defined.

(** For every copy, at most one active booking references it, and its status
    is 'booked' exactly when there is one. *)
Definition copy_exclusive (d : db) : Prop :=
  Forall (λ b,
    (length (filter (active_for (b_id b)) (bookings d)) ≤ 1)%nat ∧
    (b_status b = "booked" ↔ Exists (active_for (b_id b)) (bookings d)))
    (books d).

Global Instance copy_exclusive_dec d : Decision (copy_exclusive d).
Proof. unfold copy_exclusive. apply _. Defined.

(** The primary keys: ids are unique in [books] and in [bookings], and every
    id of [bookings] was drawn from the sequence. *)
Definition keys_ok (d : db) : Prop :=
  NoDup (b_id <$> books d) ∧ NoDup (bk_id <$> bookings d) ∧
  Forall (λ k, bk_id k < bookings_id_seq d) (bookings d).

Global Instance keys_ok_dec d : Decision (keys_ok d).
Proof. unfold keys_ok. apply _. Defined.

(** The calls under which copy exclusivity is kept: [create_booking] is given
    a registered user and a copy that is available at the time of the call,
    [complete_booking] an active booking and the copy that it references.
    The source does not establish this: the dialog reads the status of the
    copy when the title is entered ([process_book_title]), not when
    [process_duration] calls [create_booking]. *)
Definition permitted (c : call) (s : state) : Prop :=
  match c with
  | Create_booking now user_id book_id book_title office duration =>
      is_Some (users (st_db s) !! user_id) ∧
      Exists (λ b, b_id b = book_id ∧ b_status b = "available") (books (st_db s))
  | Complete_booking deliver user_id booking_id book_id book_title office =>
      Exists (λ k, bk_id k = booking_id ∧ active_for book_id k) (bookings (st_db s))
  | _ => True
  end.

Global Instance permitted_dec c s : Decision (permitted c s).
Proof. destruct c; simpl; apply _. Defined.

Fixpoint all_permitted (cs : list call) (s : state) : Prop :=
  match cs with
  | [] => True
  | c :: cs => permitted c s ∧ all_permitted cs (run c s)
  end.

Global Instance all_permitted_dec cs s : Decision (all_permitted cs s).
Proof. revert s. induction cs; simpl; intros; apply _. Defined.

(** The columns of a booking on which copy exclusivity depends. *)
Definition hold (k : booking) : Z * Z * string := (bk_id k, bk_book_id k, bk_status k).

(** Ann (42) holds copy 1 under booking 1, for one hour from [T0]. *)
Definition ex_booked_state : state :=
  snd (create_booking T0 42 1 "X" "L1" "1 час" ex_state).

(** Two states of the database with the same copies, the same sequence and
    bookings that agree on the columns of [hold]. *)
Definition same_holds (d d' : db) : Prop :=
  books d' = books d ∧ bookings_id_seq d' = bookings_id_seq d ∧
  hold <$> bookings d' = hold <$> bookings d.

(** [m] never takes the database out of the relation [R]. *)
Definition keeps (R : relation db) {A} (m : M state A) : Prop :=
  ∀ s, R (st_db s) (st_db (snd (m s))).

(** Ann reserves copy 1 and returns it, then Bob reserves the same copy. *)
Definition ex_calls : list call :=
  [Create_booking T0 42 1 "X" "L1" "1 час";
   Complete_booking (λ _, true) 42 1 1 "X" "L1";
   Create_booking (T0 + timedelta_hours 2) 43 1 "X" "L1" "1 неделя"].

(** ** Extension *)

(** Every booking with the id [booking_id] has been extended, and the ids of
    all bookings, [booking_id] among them, were drawn from the sequence. *)
Definition extended (booking_id : Z) (d : db) : Prop :=
  booking_id < bookings_id_seq d ∧
  Forall (λ k, bk_id k < bookings_id_seq d) (bookings d) ∧
  Forall (λ k, bk_id k = booking_id → bk_extension_made k = true) (bookings d).

(** ** More examples *)

(** Ann (42) waits for "X"; nobody is registered under 44. *)
Definition ex_ann_waiting_state : state :=
  set_db (set_waiting_list (λ _, [Waiting 42 "X" "L1" 100 false])) ex_state.

(** Ann (42) holds copy 1 for one week from [T0]. *)
Definition ex_week_state : state :=
  snd (create_booking T0 42 1 "X" "L1" "1 неделя" ex_state).

(** Ann (42) holds copy 1 and Bob (43) copy 2, each for one hour from [T0]. *)
Definition ex_two_bookings_state : state :=
  snd (create_booking T0 43 2 "X" "L1" "1 час" ex_booked_state).

(** The default of GROUP_CHAT_ID. *)
Definition ex_group : Z := -5126633040.

(** The reminder of the 1-hour class, for "X". *)
Definition ex_remind_15 (chat_id : Z) : message :=
  Message chat_id "*Не забудьте вернуть книгу 'X' через 15 минут*" (Some "Markdown")
    (Some [("Вернуть книгу X", "return_X")]).

(** The reminder sent on the fifth day of the 1-week class, for "X". *)
Definition ex_remind_tomorrow (chat_id : Z) : message :=
  Message chat_id "Не забудьте вернуть книгу 'X' завтра" None
    (Some [("Вернуть книгу X", "return_X")]).

(** A sink that delivers to every chat but [chat_id]. *)
Definition all_but (chat_id : Z) (m : message) : bool := bool_decide (m_chat_id m ≠ chat_id).

(** Ann has extended her booking; then she has returned the copy. *)
Definition ex_extended_state : state :=
  snd (extend_booking 1 42 "X" "L1" ex_booked_state).

Definition ex_returned_state : state :=
  snd (complete_booking (λ _, true) 42 1 1 "X" "L1" ex_extended_state).

(** A pass of the sweep at [now] with a sink that delivers everything. *)
Definition ex_pass (now : datetime) (s : state) : state :=
  snd (check_reminders (λ _, true) ex_group now s).

(** ** Definitions for the further properties *)

(** The row that [register_user] inserts for a new user. *)
Definition new_user (first_name last_name : string) : user :=
  User first_name (Some last_name) None None None None None "available" false.

(** The booking that [create_booking] inserts. *)
Definition new_booking (id user_id book_id : Z) (book_title office : string)
    (start_time : datetime) (duration : string) (end_time : datetime) : booking :=
  Booking id user_id book_id book_title office start_time duration end_time "active"
    false false.

(** A collation for the examples: titles compared by their length. *)
Definition ex_title_le (x y : string) : Prop := (String.length x ≤ String.length y)%nat.

Global Instance ex_title_le_dec x y : Decision (ex_title_le x y).
Proof. unfold ex_title_le. apply _. Defined.

(** Every booking references a copy and a user that exist, every entry of the
    waiting list a user that exists: the REFERENCES clauses of the tables. *)
Definition references_ok (d : db) : Prop :=
  Forall (λ k, Exists (λ b, b_id b = bk_book_id k) (books d) ∧
               is_Some (users d !! bk_user_id k)) (bookings d) ∧
  Forall (λ w, is_Some (users d !! w_user_id w)) (waiting_list d).

Global Instance references_ok_dec d : Decision (references_ok d).
Proof. unfold references_ok. apply _. Defined.

(** [m] never takes the state out of the relation [R]. *)
Definition stays (R : relation state) {A} (m : M state A) : Prop :=
  ∀ s, R s (snd (m s)).

(** The number of messages sent to the chat [chat_id]. *)
Definition sent_to (chat_id : Z) (s : state) : nat :=
  length (filter (λ m, m_chat_id m = chat_id) (st_sent s)).

(** The number of bookings whose [overdue_notified] is set. *)
Definition escalated (d : db) : nat :=
  length (filter (λ k, bk_overdue_notified k = true) (bookings d)).

(** The database after [d], changed at most by setting [overdue_notified] of
    bookings. *)
Definition only_overdue_set (d d' : db) : Prop :=
  books d' = books d ∧ users d' = users d ∧ waiting_list d' = waiting_list d ∧
  bookings_id_seq d' = bookings_id_seq d ∧
  Forall2 (λ k k', k' = k ∨ k' = booking_set_overdue_notified k)
    (bookings d) (bookings d').

(** All passes of the sweep among [cs] escalate to the chat [chat_id]. *)
Definition escalate_to (chat_id : Z) (cs : list call) : Prop :=
  Forall (λ c, match c with
               | Check_reminders _ GROUP_CHAT_ID _ => GROUP_CHAT_ID = chat_id
               | _ => True
               end) cs.

Global Instance escalate_to_dec chat_id cs : Decision (escalate_to chat_id cs).
Proof.
  unfold escalate_to. apply Forall_dec. intros []; apply _.
Defined.

(** Two passes of the sweep around the end of Ann's booking, one hour and two
    days after it. *)
Definition ex_overdue_calls : list call :=
  [Create_booking T0 42 1 "X" "L1" "1 час";
   Check_reminders (λ _, true) ex_group (T0 + timedelta_hours 2);
   Check_reminders (λ _, true) ex_group (T0 + timedelta_days 2);
   Check_reminders (λ _, true) ex_group (T0 + timedelta_days 3);
   Complete_booking (λ _, true) 42 1 1 "X" "L1"].

(** The ids of the bookings are unique and were drawn from the sequence. *)
Definition booking_keys_ok (d : db) : Prop :=
  NoDup (bk_id <$> bookings d) ∧
  Forall (λ k, bk_id k < bookings_id_seq d) (bookings d).

Global Instance booking_keys_ok_dec d : Decision (booking_keys_ok d).
Proof. unfold booking_keys_ok. apply _. Defined.

(** [c] does not occur in [s]. *)
Fixpoint no_char (c : ascii) (s : string) : Prop :=
  match s with
  | EmptyString => True
  | String a r => a ≠ c ∧ no_char c r
  end.

Global Instance no_char_dec c s : Decision (no_char c s).
Proof. induction s; simpl; apply _. Defined.

(** [old] occurs in [s]. *)
Definition occurs (old s : string) : Prop := ∃ s1 s2, s = s1 +:+ old +:+ s2.

(** The name of the attribute in which [check_reminders] keeps the time of
    the last reminder of an ended booking. *)
Definition last_key (uid bid : Z) : string :=
  "last_reminder_" +:+ pretty uid +:+ "_" +:+ pretty bid.


(** What a pass of the sweep at [now] over [rows] does to the time of the
    last reminder of the booking [bid] of [uid]: it is in [s'] as in [s]; or
    it is [now] in [s'], a reminder was due in [s], a message more has reached
    [uid], and the booking is one of [rows] that has ended.  No message to
    [uid] is taken back. *)
Definition cooldown_step (rows : list reminder_row) (now : datetime) (uid bid : Z)
    : relation state := λ s s',
  (sent_to uid s ≤ sent_to uid s')%nat ∧
  (st_attrs s' !! last_key uid bid = st_attrs s !! last_key uid bid ∨
   (st_attrs s' !! last_key uid bid = Some now ∧
    reminder_due now (st_attrs s !! last_key uid bid) ∧
    (sent_to uid s < sent_to uid s')%nat ∧
    ∃ rec, rec ∈ rows ∧ r_user_id rec = uid ∧ r_booking_id rec = bid ∧
           r_booking_end rec ≤ now)).

(** The message of [notify_next_in_waiting_list] to the user [user_id]. *)
Definition waitlist_notification (user_id : Z) (first_name book_title office : string)
    : message :=
  Message user_id
    ("🎉 " +:+ first_name +:+ ", книга '" +:+ book_title +:+
     "' освободилась! Хотите её забронировать?")
    None (Some (get_waitlist_notification_keyboard book_title office)).

(** The waiting list [rows] in which the row [w], and no other, is marked as
    notified. *)
Definition mark_notified (w : waiting) (rows : list waiting) : list waiting :=
  (λ x, if decide (x = w) then waiting_set_notified w else x) <$> rows.

(** What [process_book_title] offers to a reader who asks for "X" while the
    copies 1 and 2 are both available: copy 1. *)
Definition ex_offer (first_name : string) : dialog_data :=
  DialogData first_name "L1" "X" "A" 1 None None.

(** Ann chooses one hour with the offer made to her, and a minute later Bob
    does with the offer made to him. *)
Definition ex_two_dialogs_state : state :=
  snd (process_duration (λ _, true) ex_group (T0 + timedelta_minutes 1) 43 "duration_1h"
         (ex_offer "Bob")
         (snd (process_duration (λ _, true) ex_group T0 42 "duration_1h"
                 (ex_offer "Ann") ex_state))).
(** Settle a closed decidable proposition by evaluation. *)
Ltac by_evaluation := apply (bool_decide_unpack _); vm_compute; exact I.

Lemma create_booking_eq now user_id book_id book_title office duration s :
  create_booking now user_id book_id book_title office duration s =
  match booking_length duration with
  | None => (inl (ValueError ("Неизвестная длительность: " +:+ duration)), s)
  | Some length =>
    let s1 := create_booking_committed user_id book_id book_title office s in
    let id := bookings_id_seq (st_db s) in
    let end_time := now + length in
    if decide (is_Some (users (st_db s1) !! user_id) ∧
               Exists (λ b, b_id b = book_id) (books (st_db s1)))
    then (inr (id, end_time),
          set_db (set_users (alter (user_set_booked book_title now duration end_time)
                               user_id))
            (set_db (set_bookings (sql_insert
               (Booking id user_id book_id book_title office now duration end_time
                  "active" false false))) s1))
    else (inl ForeignKeyViolationError, s1)
  end.
Proof.
  unfold create_booking.
  destruct (booking_length duration) as [len|]; [|reflexivity].
  destruct s as [d sent attrs].
  unfold create_booking_committed, transaction, other_conn, on_conn, insert_booking,
    update_book_status, remove_from_waiting_list, execute, modify, view,
    mbind, M_bind, mret, M_ret.
  simpl. case_decide; reflexivity.
Qed.

Lemma booking_length_label c : booking_length (label c) = Some (f c).
Proof. destruct c; reflexivity. Qed.

Lemma booking_length_Some duration length :
  booking_length duration = Some length → ∃ c, duration = label c ∧ length = f c.
Proof.
  unfold booking_length. intros H.
  repeat case_decide; simplify_eq;
    [by exists OneHour | by exists OneWeek | by exists OneMonth
    | by exists ThreeMonths | by exists SixMonths].
Qed.

Lemma booking_length_None duration :
  duration ∉ labels → booking_length duration = None.
Proof.
  intros H. destruct (booking_length duration) as [len|] eqn:E; [|done].
  apply booking_length_Some in E as (c & -> & _).
  exfalso. apply H. unfold labels. apply list_elem_of_fmap. exists c.
  split; [done|]. destruct c; set_solver.
Qed.

(** C10: whatever the other arguments and the state, [create_booking] called
    with a duration that is none of the five labels raises the ValueError of
    its [else] branch and leaves the whole state (books, bookings, users,
    waiting list, messages sent) as it was. *)
Theorem create_booking_unknown_duration now user_id book_id book_title office duration s :
  duration ∉ ["1 час"; "1 неделя"; "1 месяц"; "3 месяца"; "6 месяцев"] →
  create_booking now user_id book_id book_title office duration s =
    (inl (ValueError ("Неизвестная длительность: " +:+ duration)), s).
Proof.
  intros H. rewrite create_booking_eq, booking_length_None; done.
Qed.

Lemma create_booking_unknown_duration_witness :
  create_booking T0 42 1 "X" "L1" "2 недели" ex_state =
    (inl (ValueError "Неизвестная длительность: 2 недели"), ex_state).
Proof.
  apply (create_booking_unknown_duration T0 42 1 "X" "L1" "2 недели" ex_state).
  by_evaluation.
Defined.

Lemma elem_of_sql_insert {A} (row : A) rows : row ∈ sql_insert row rows.
Proof. unfold sql_insert. set_solver. Qed.

Lemma Exists_sql_update_key {A B} (key : A → B) (P : A → Prop) `{∀ x, Decision (P x)}
    (set : A → A) (Q : B → Prop) rows :
  (∀ x, key (set x) = key x) →
  Exists (λ x, Q (key x)) (sql_update P set rows) ↔ Exists (λ x, Q (key x)) rows.
Proof.
  intros Hkey. unfold sql_update. rewrite Exists_fmap.
  apply Exists_proper; [|done]. intros x. simpl.
  case_decide; [by rewrite Hkey | done].
Qed.

Lemma create_booking_committed_book_ids user_id book_id book_title office s id :
  Exists (λ b, b_id b = id)
    (books (st_db (create_booking_committed user_id book_id book_title office s))) ↔
  Exists (λ b, b_id b = id) (books (st_db s)).
Proof.
  simpl. apply (Exists_sql_update_key b_id _ _ (λ i, i = id)). done.
Qed.

(** C5: a call of [create_booking] that succeeds was made with the label of
    one of the five duration classes, returns [now + f c] for that class [c]
    and stores an active booking that starts at [now] and ends at
    [now + f c]; and for each of the five classes the call does succeed, with
    that end time, whenever the user and the copy exist. *)
Theorem create_booking_end_time now user_id book_id book_title office s :
  (∀ duration booking_id end_time s',
     create_booking now user_id book_id book_title office duration s =
       (inr (booking_id, end_time), s') →
     ∃ c, duration = label c ∧ end_time = now + f c ∧
          Booking booking_id user_id book_id book_title office now duration end_time
            "active" false false ∈ bookings (st_db s')) ∧
  (∀ c, is_Some (users (st_db s) !! user_id) →
        Exists (λ b, b_id b = book_id) (books (st_db s)) →
     ∃ booking_id s',
       create_booking now user_id book_id book_title office (label c) s =
         (inr (booking_id, now + f c), s')).
Proof.
  split.
  - intros duration booking_id end_time s'. rewrite create_booking_eq.
    destruct (booking_length duration) as [len|] eqn:E; [|done].
    apply booking_length_Some in E as (c & -> & ->).
    cbv zeta. case_decide; [|done]. intros [= <- <- <-].
    exists c. split_and!; [done..|]. simpl. apply elem_of_sql_insert.
  - intros c Hu Hb. rewrite create_booking_eq, booking_length_label.
    cbv zeta. rewrite decide_True; [eauto|].
    split; [done|]. by apply create_booking_committed_book_ids.
Qed.

Lemma create_booking_end_time_witness :
  ∃ c, "1 неделя" = label c ∧ T0 + timedelta_days 7 = T0 + f c ∧
       Booking 1 42 1 "X" "L1" T0 "1 неделя" (T0 + timedelta_days 7) "active" false false
         ∈ bookings (st_db (snd (create_booking T0 42 1 "X" "L1" "1 неделя" ex_state))).
Proof.
  apply (proj1 (create_booking_end_time T0 42 1 "X" "L1" ex_state)).
  vm_compute. reflexivity.
Defined.

(** ** The waiting list *)

Lemma add_to_waiting_list_eq now user_id book_title office s :
  add_to_waiting_list now user_id book_title office s =
  if decide (Exists (waiting_key user_id book_title office) (waiting_list (st_db s)))
  then (inr true, s)
  else if decide (is_Some (users (st_db s) !! user_id))
  then (inr true, set_db (set_waiting_list
          (sql_insert (Waiting user_id book_title office now false))) s)
  else (inr false, s).
Proof.
  unfold add_to_waiting_list, try_except, insert_waiting, mbind, M_bind, mret, M_ret.
  repeat case_decide; reflexivity.
Qed.

Lemma waiting_unique_insert now user_id book_title office s :
  ¬ Exists (waiting_key user_id book_title office) (waiting_list (st_db s)) →
  waiting_unique (st_db s) →
  waiting_unique (st_db (set_db (set_waiting_list
    (sql_insert (Waiting user_id book_title office now false))) s)).
Proof.
  unfold waiting_unique, sql_insert. simpl. intros Hnew Hnd.
  rewrite fmap_app. apply NoDup_app. split_and!; [done| |apply NoDup_singleton].
  intros k Hk. simpl. rewrite list_elem_of_singleton. intros ->.
  apply Hnew, Exists_exists. apply list_elem_of_fmap in Hk as (w & Hw & Hin).
  exists w. split; [done|]. unfold waiting_key. by simplify_eq.
Qed.

(** C9 (as the code has it): [add_to_waiting_list] returns True both when the
    entry is new and when it was already there; with an entry present the
    state is left as it is, with none and a registered user the row (user,
    title, office, now, not notified) is added, with none and an unknown
    user the insert fails, nothing is changed and False is returned; in every
    case the uniqueness of (user, title, office) is kept. *)
Theorem add_to_waiting_list_spec now user_id book_title office s :
  let present := Exists (waiting_key user_id book_title office) (waiting_list (st_db s)) in
  (present → add_to_waiting_list now user_id book_title office s = (inr true, s)) ∧
  (¬ present → is_Some (users (st_db s) !! user_id) →
     add_to_waiting_list now user_id book_title office s =
       (inr true, set_db (set_waiting_list
          (λ rows, rows ++ [Waiting user_id book_title office now false])) s)) ∧
  (¬ present → users (st_db s) !! user_id = None →
     add_to_waiting_list now user_id book_title office s = (inr false, s)) ∧
  (waiting_unique (st_db s) →
     waiting_unique (st_db (snd (add_to_waiting_list now user_id book_title office s)))).
Proof.
  intros present. unfold present. rewrite add_to_waiting_list_eq.
  split_and!.
  - intros H. by rewrite decide_True.
  - intros H Hu. by rewrite decide_False, decide_True.
  - intros H Hu. rewrite decide_False, decide_False; [done| |done].
    rewrite Hu. by intros [? ?].
  - intros Hnd. repeat case_decide; simpl; [done| |done].
    by apply waiting_unique_insert.
Qed.

Lemma add_to_waiting_list_spec_witness :
  add_to_waiting_list T0 42 "X" "L1" ex_waiting_state = (inr true, ex_waiting_state) ∧
  add_to_waiting_list T0 42 "X" "L1" ex_state =
    (inr true, set_db (set_waiting_list (λ rows, rows ++ [Waiting 42 "X" "L1" T0 false]))
                 ex_state) ∧
  add_to_waiting_list T0 44 "X" "L1" ex_state = (inr false, ex_state) ∧
  waiting_unique (st_db (snd (add_to_waiting_list T0 43 "Y" "L1" ex_waiting_state))).
Proof.
  split_and!.
  - apply (add_to_waiting_list_spec T0 42 "X" "L1" ex_waiting_state). by_evaluation.
  - apply (add_to_waiting_list_spec T0 42 "X" "L1" ex_state); by_evaluation.
  - apply (add_to_waiting_list_spec T0 44 "X" "L1" ex_state); [by_evaluation|].
    vm_compute. reflexivity.
  - apply (add_to_waiting_list_spec T0 43 "Y" "L1" ex_waiting_state). by_evaluation.
Defined.

(** C9, as the claim words it, fails: with the entry already present the call
    returns the same True that it returns for a new entry. *)
Lemma add_to_waiting_list_returns_true_on_duplicate :
  Exists (waiting_key 42 "X" "L1") (waiting_list (st_db ex_waiting_state)) ∧
  fst (add_to_waiting_list T0 42 "X" "L1" ex_waiting_state) = inr true ∧
  ¬ Exists (waiting_key 42 "X" "L1") (waiting_list (st_db ex_state)) ∧
  fst (add_to_waiting_list T0 42 "X" "L1" ex_state) = inr true.
Proof.
  split_and!; [by_evaluation | by vm_compute | by_evaluation | by vm_compute].
Qed.

(** ** Picking a copy *)

Lemma head_filter_Some {A} (P : A → Prop) `{∀ x, Decision (P x)} (l : list A) x :
  head (filter P l) = Some x →
  ∃ l1 l2, l = l1 ++ x :: l2 ∧ P x ∧ Forall (λ y, ¬ P y) l1.
Proof.
  induction l as [|y l IH]; [done|].
  rewrite filter_cons. case_decide as Hy.
  - intros [= ->]. exists [], l. by split_and!.
  - intros (l1 & l2 & -> & Hx & Hl1)%IH. exists (y :: l1), l2.
    split_and!; [done..|]. by constructor.
Qed.

Lemma head_filter_None {A} (P : A → Prop) `{∀ x, Decision (P x)} (l : list A) :
  head (filter P l) = None ↔ ¬ Exists P l.
Proof.
  rewrite head_None, Exists_exists. split.
  - intros Hnil (x & Hx & HP).
    assert (x ∈ filter P l) as Hin by by apply list_elem_of_filter.
    rewrite Hnil in Hin. by apply not_elem_of_nil in Hin.
  - intros Hno. apply elem_of_nil_inv. intros x [HP Hx]%list_elem_of_filter.
    apply Hno. eauto.
Qed.

(** C8 (as the code has it): [get_available_book_instance] changes nothing, so
    that a second call on the same state picks the same copy; it returns
    nothing exactly when no copy of the title at the office is available;
    the copy it returns is available and is the first such copy that a scan
    of [books] finds; it has the lowest id when the scan returns the rows in
    the order of their ids. *)
Theorem get_available_book_instance_spec LOWER title office s :
  let r := get_available_book_instance LOWER title office s in
  snd r = s ∧
  (fst r = inr None ↔ ¬ Exists (available_copy LOWER title office) (books (st_db s))) ∧
  (∀ row, fst r = inr (Some row) →
     ∃ l1 b l2, books (st_db s) = l1 ++ b :: l2 ∧
       row = (b_id b, b_title b, b_author b, b_shelf b, b_floor b) ∧
       available_copy LOWER title office b ∧
       Forall (λ b', ¬ available_copy LOWER title office b') l1 ∧
       (StronglySorted (λ x y, b_id x ≤ b_id y) (books (st_db s)) →
        ∀ b', b' ∈ books (st_db s) → available_copy LOWER title office b' →
              b_id b ≤ b_id b')).
Proof.
  unfold get_available_book_instance, fetch, gets. simpl.
  set (P := available_copy LOWER title office).
  split_and!; [done| |].
  - destruct (head (filter P _)) as [b|] eqn:E; simpl.
    + split; [done|]. intros Hno. exfalso. apply Hno.
      apply head_filter_Some in E as (l1 & l2 & -> & Hb & _).
      apply Exists_app. right. by constructor.
    + split; [|done]. intros _. by apply head_filter_None in E.
  - intros row. destruct (head (filter P _)) as [b|] eqn:E; simpl; [|done].
    intros [= <-]. apply head_filter_Some in E as (l1 & l2 & E & Hb & Hl1).
    exists l1, b, l2. split_and!; [done..|].
    intros Hsorted b' Hin Hb'. rewrite E in Hin, Hsorted.
    apply StronglySorted_app_1_r, StronglySorted_cons in Hsorted as [Hle _].
    apply elem_of_app in Hin as [Hin|Hin].
    + rewrite Forall_forall in Hl1. by destruct (Hl1 b' Hin).
    + apply elem_of_cons in Hin as [->|Hin]; [lia|].
      rewrite Forall_forall in Hle. by apply Hle.
Qed.

Lemma get_available_book_instance_spec_witness :
  ∃ l1 b l2, books (st_db ex_scan_state) = l1 ++ b :: l2 ∧
    (2, "X", "A", None, None) = (b_id b, b_title b, b_author b, b_shelf b, b_floor b) ∧
    available_copy lower "x" "L1" b ∧
    Forall (λ b', ¬ available_copy lower "x" "L1" b') l1 ∧
    (StronglySorted (λ x y, b_id x ≤ b_id y) (books (st_db ex_scan_state)) →
     ∀ b', b' ∈ books (st_db ex_scan_state) → available_copy lower "x" "L1" b' →
           b_id b ≤ b_id b').
Proof.
  apply (get_available_book_instance_spec lower "x" "L1" ex_scan_state).
  vm_compute. reflexivity.
Defined.

(** C8, as the claim words it, fails: with the copies 2 and 1 both available
    and found by the scan in that order, the copy picked is 2, not the one
    with the lowest id. *)
Lemma get_available_book_instance_not_lowest :
  fst (get_available_book_instance lower "x" "L1" ex_scan_state) =
    inr (Some (2, "X", "A", None, None)) ∧
  ex_book 1 "X" ∈ books (st_db ex_scan_state) ∧
  available_copy lower "x" "L1" (ex_book 1 "X") ∧
  b_id (ex_book 1 "X") < 2.
Proof.
  split_and!; [by vm_compute | by_evaluation | by vm_compute | by vm_compute].
Qed.

(** ** The head of the waiting list *)

Global Instance added_at_le_trans : Transitive added_at_le.
Proof. unfold added_at_le. intros x y z. lia. Qed.

Global Instance added_at_le_total : Total added_at_le.
Proof. unfold added_at_le. intros x y. lia. Qed.

Lemma head_merge_sort_Some {A} (R : relation A) `{∀ x y, Decision (R x y)}
    `{!Transitive R, !Total R} (l : list A) x :
  head (merge_sort R l) = Some x → x ∈ l ∧ Forall (R x) l.
Proof.
  intros Hhd.
  assert (StronglySorted R (merge_sort R l)) as Hs
    by (apply (StronglySorted_merge_sort R); apply _).
  pose proof (merge_sort_Permutation R l) as Hp.
  destruct (merge_sort R l) as [|y tl]; simplify_eq/=.
  apply StronglySorted_cons in Hs as [Hle _]. split.
  - rewrite <-Hp. by left.
  - rewrite <-Hp. constructor; [|done]. by destruct (total R x x).
Qed.

Lemma head_merge_sort_None {A} (R : relation A) `{∀ x y, Decision (R x y)} (l : list A) :
  head (merge_sort R l) = None → l = [].
Proof.
  intros Hhd. pose proof (merge_sort_Permutation R l) as Hp.
  destruct (merge_sort R l); [|done]. by apply Permutation_nil_r.
Qed.

(** The row that [get_first_in_waiting_list] selects. *)
Lemma first_in_waiting_list book_title office rows :
  match head (merge_sort added_at_le (filter (unnotified_for book_title office) rows)) with
  | Some w => w ∈ rows ∧ unnotified_for book_title office w ∧
              ∀ w', w' ∈ rows → unnotified_for book_title office w' →
                    w_added_at w ≤ w_added_at w'
  | None => ∀ w', w' ∈ rows → ¬ unnotified_for book_title office w'
  end.
Proof.
  destruct (head _) as [w|] eqn:E.
  - apply head_merge_sort_Some in E as [[Hw Hin]%list_elem_of_filter Hmin]; [|apply _..].
    split_and!; [done..|]. intros w' Hin' Hw'.
    rewrite Forall_forall in Hmin. apply Hmin. by apply list_elem_of_filter.
  - apply head_merge_sort_None in E. intros w' Hin' Hw'.
    assert (w' ∈ filter (unnotified_for book_title office) rows) as Hf
      by by apply list_elem_of_filter.
    rewrite E in Hf. by apply not_elem_of_nil in Hf.
Qed.

Lemma get_first_in_waiting_list_eq book_title office s :
  get_first_in_waiting_list book_title office s =
  (inr (w_user_id <$> head (merge_sort added_at_le
          (filter (unnotified_for book_title office) (waiting_list (st_db s))))), s).
Proof. reflexivity. Qed.

Lemma waiting_unique_key d w w' :
  waiting_unique d → w ∈ waiting_list d → w' ∈ waiting_list d →
  waiting_key (w_user_id w) (w_book_title w) (w_office w) w' →
  w_added_at w' = w_added_at w ∧ w_notified w' = w_notified w.
Proof.
  unfold waiting_unique, waiting_key. intros Hnd Hw Hw' (Hu & Ht & Ho).
  apply list_elem_of_lookup in Hw as [i Hi]. apply list_elem_of_lookup in Hw' as [j Hj].
  assert (i = j) as ->; [|by simplify_eq].
  eapply NoDup_lookup; [done| |]; rewrite list_lookup_fmap.
  - by rewrite Hi.
  - rewrite Hj. simpl. by rewrite Hu, Ht, Ho.
Qed.

Lemma elem_of_sql_update_other {A} (P : A → Prop) `{∀ x, Decision (P x)} set rows x :
  x ∈ rows → ¬ P x → x ∈ sql_update P set rows.
Proof.
  intros Hin HP. unfold sql_update. apply list_elem_of_fmap. exists x.
  by rewrite decide_False.
Qed.

Lemma notify_next_in_waiting_list_eq deliver book_title office s :
  notify_next_in_waiting_list deliver book_title office s =
  match head (merge_sort added_at_le
          (filter (unnotified_for book_title office) (waiting_list (st_db s)))) with
  | None => (inr false, s)
  | Some w =>
    match users (st_db s) !! w_user_id w with
    | None => (inr false, s)
    | Some user_info =>
      let m := Message (w_user_id w)
                 ("🎉 " +:+ u_first_name user_info +:+ ", книга '" +:+ book_title +:+
                  "' освободилась! Хотите её забронировать?")
                 None (Some (get_waitlist_notification_keyboard book_title office)) in
      if deliver m
      then (inr true,
            set_db (set_waiting_list
                      (sql_update (waiting_key (w_user_id w) book_title office)
                         waiting_set_notified))
              (State (st_db s) (st_sent s ++ [m]) (st_attrs s)))
      else (inr false, s)
    end
  end.
Proof.
  unfold notify_next_in_waiting_list, get_first_in_waiting_list, get_user_info, fetch,
    gets, try_except, send_message, execute, modify, mbind, M_bind, mret, M_ret.
  simpl. destruct (head _) as [w|]; simpl; [|done].
  destruct (users (st_db s) !! w_user_id w) as [info|]; simpl; [|done].
  by destruct (deliver _).
Qed.

Lemma notify_next_in_waiting_list_rows deliver book_title office s :
  let rows := waiting_list (st_db s) in
  let s' := snd (notify_next_in_waiting_list deliver book_title office s) in
  waiting_list (st_db s') = rows ∨
  ∃ w, w ∈ rows ∧ unnotified_for book_title office w ∧
       (∀ w', w' ∈ rows → unnotified_for book_title office w' →
              w_added_at w ≤ w_added_at w') ∧
       waiting_list (st_db s') =
         sql_update (waiting_key (w_user_id w) book_title office) waiting_set_notified rows.
Proof.
  cbv zeta. rewrite notify_next_in_waiting_list_eq.
  pose proof (first_in_waiting_list book_title office (waiting_list (st_db s))) as Hw.
  destruct (head _) as [w|]; [|by left].
  destruct (users (st_db s) !! w_user_id w) as [info|]; [|by left].
  cbv zeta. destruct (deliver _); [|by left].
  right. exists w. by destruct Hw as (? & ? & ?).
Qed.

Lemma sql_update_keys {A B} (key : A → B) (P : A → Prop) `{∀ x, Decision (P x)} set rows :
  (∀ x, key (set x) = key x) → key <$> sql_update P set rows = key <$> rows.
Proof.
  intros Hkey. unfold sql_update. rewrite <-list_fmap_compose.
  apply list_fmap_ext. intros i x _. simpl. by case_decide.
Qed.

Lemma elem_of_sql_update_set {A} (P : A → Prop) `{∀ x, Decision (P x)} set rows x :
  x ∈ rows → P x → set x ∈ sql_update P set rows.
Proof.
  intros Hin HP. unfold sql_update. apply list_elem_of_fmap. exists x.
  by rewrite decide_True.
Qed.

(** The step behind the FIFO order: a release keeps the uniqueness of the
    keys, and as long as [a], enqueued before [b], has not been notified, it
    leaves the row of [b] as it is. *)
Lemma notify_next_fifo_step deliver book_title office a b s :
  let s' := snd (notify_next_in_waiting_list deliver book_title office s) in
  unnotified_for book_title office a → unnotified_for book_title office b →
  w_added_at a < w_added_at b →
  waiting_unique (st_db s) ∧
    (a ∈ waiting_list (st_db s) ∧ b ∈ waiting_list (st_db s) ∨
     waiting_set_notified a ∈ waiting_list (st_db s)) →
  waiting_unique (st_db s') ∧
    (a ∈ waiting_list (st_db s') ∧ b ∈ waiting_list (st_db s') ∨
     waiting_set_notified a ∈ waiting_list (st_db s')).
Proof.
  intros s' Ha Hb Hlt [Hnd Hab]. unfold s', waiting_unique.
  destruct (notify_next_in_waiting_list_rows deliver book_title office s)
    as [->|(w & Hin & Hw & Hmin & ->)]; [done|].
  split.
  { by rewrite (sql_update_keys (λ w, (w_user_id w, w_book_title w, w_office w))). }
  assert (∀ x, x ∈ waiting_list (st_db s) →
               waiting_key (w_user_id w) book_title office x →
               w_added_at x = w_added_at w ∧ w_notified x = false) as Hkey.
  { intros x Hx Hk. destruct Hw as (Ht & Ho & Hn). rewrite <-Hn.
    apply (waiting_unique_key (st_db s)); [done..|]. by rewrite Ht, Ho. }
  destruct Hab as [[Hina Hinb]|Hina].
  - destruct (decide (waiting_key (w_user_id w) book_title office a)) as [Hka|Hka].
    + right. by apply elem_of_sql_update_set.
    + left. split; [by apply elem_of_sql_update_other|].
      apply elem_of_sql_update_other; [done|]. intros Hkb.
      apply Hkey in Hkb as [Heq _]; [|done].
      specialize (Hmin a Hina Ha). lia.
  - right. apply elem_of_sql_update_other; [done|].
    intros Hk. by apply Hkey in Hk as [_ Hn].
Qed.

(** ** Lists of rows *)

Lemma NoDup_fmap_eq {A B} (key : A → B) (l : list A) x y :
  NoDup (key <$> l) → x ∈ l → y ∈ l → key x = key y → x = y.
Proof.
  intros Hnd [i Hi]%list_elem_of_lookup [j Hj]%list_elem_of_lookup Hk.
  assert (i = j) as ->; [|by simplify_eq].
  eapply NoDup_lookup; [done| |]; rewrite list_lookup_fmap.
  - by rewrite Hi.
  - rewrite Hj. simpl. by rewrite Hk.
Qed.

Lemma length_two_distinct {A} (l : list A) x y :
  x ∈ l → y ∈ l → x ≠ y → (2 ≤ length l)%nat.
Proof.
  intros Hx Hy Hne. destruct l as [|a [|b l]]; simpl; [| |lia].
  - by apply not_elem_of_nil in Hx.
  - apply list_elem_of_singleton in Hx, Hy. congruence.
Qed.

Lemma filter_fmap_length {A B} (P : A → Prop) (Q : B → Prop)
    `{∀ x, Decision (P x)} `{∀ y, Decision (Q y)} (g : A → B) (l : list A) :
  (∀ x, x ∈ l → (Q (g x) ↔ P x)) →
  length (filter Q (g <$> l)) = length (filter P l).
Proof.
  induction l as [|x l IH]; intros HPQ; [done|].
  rewrite fmap_cons, !filter_cons.
  assert (Q (g x) ↔ P x) as Hx by (apply HPQ; left).
  assert (length (filter Q (g <$> l)) = length (filter P l)) as Hl.
  { apply IH. intros y Hy. apply HPQ. by right. }
  repeat case_decide; simpl; tauto || lia.
Qed.

Lemma Exists_fmap_iff {A B} (P : A → Prop) (Q : B → Prop) (g : A → B) (l : list A) :
  (∀ x, x ∈ l → (Q (g x) ↔ P x)) →
  Exists Q (g <$> l) ↔ Exists P l.
Proof.
  intros HPQ. rewrite !Exists_exists. split.
  - intros (y & (x & -> & Hx)%list_elem_of_fmap & HQ). exists x. split; [done|].
    by apply HPQ.
  - intros (x & Hx & HP). exists (g x). split; [|by apply HPQ].
    apply list_elem_of_fmap. eauto.
Qed.

Lemma filter_nil_not_Exists {A} (P : A → Prop) `{∀ x, Decision (P x)} (l : list A) :
  ¬ Exists P l → filter P l = [].
Proof.
  intros Hno. apply elem_of_nil_inv. intros x [HP Hx]%list_elem_of_filter.
  apply Hno, Exists_exists. eauto.
Qed.

(** ** Copy exclusivity is kept *)

Lemma same_holds_count d d' book_id :
  same_holds d d' →
  length (filter (active_for book_id) (bookings d')) =
  length (filter (active_for book_id) (bookings d)).
Proof.
  intros (_ & _ & Hh).
  rewrite <-(filter_fmap_length (active_for book_id)
               (λ h, h.2 = "active" ∧ h.1.2 = book_id) hold (bookings d')),
          <-(filter_fmap_length (active_for book_id)
               (λ h, h.2 = "active" ∧ h.1.2 = book_id) hold (bookings d)); [|done..].
  by rewrite Hh.
Qed.

Lemma same_holds_Exists d d' book_id :
  same_holds d d' →
  Exists (active_for book_id) (bookings d') ↔ Exists (active_for book_id) (bookings d).
Proof.
  intros (_ & _ & Hh).
  rewrite <-(Exists_fmap_iff (active_for book_id)
               (λ h, h.2 = "active" ∧ h.1.2 = book_id) hold (bookings d')),
          <-(Exists_fmap_iff (active_for book_id)
               (λ h, h.2 = "active" ∧ h.1.2 = book_id) hold (bookings d)); [|done..].
  by rewrite Hh.
Qed.

Lemma same_holds_keys_ok d d' : same_holds d d' → keys_ok d → keys_ok d'.
Proof.
  intros (Hb & Hs & Hh) (Hnb & Hnk & Hlt). unfold keys_ok. rewrite Hb, Hs.
  assert (∀ l : list booking, bk_id <$> l = (λ h, h.1.1) <$> (hold <$> l)) as Hid.
  { intros l. by rewrite <-list_fmap_compose. }
  split_and!; [done| |].
  - by rewrite Hid, Hh, <-Hid.
  - assert (∀ l : list booking,
              Forall (λ k, bk_id k < bookings_id_seq d) l ↔
              Forall (λ h, h.1.1 < bookings_id_seq d) (hold <$> l)) as Hfa.
    { intros l. by rewrite Forall_fmap. }
    by rewrite Hfa, Hh, <-Hfa.
Qed.

Lemma same_holds_copy_exclusive d d' : same_holds d d' → copy_exclusive d → copy_exclusive d'.
Proof.
  intros Hsame Hex. unfold copy_exclusive. pose proof Hsame as (-> & _ & _).
  eapply Forall_impl; [exact Hex|]. intros b [Hle Hiff]. simpl.
  by rewrite (same_holds_count d d'), (same_holds_Exists d d').
Qed.

Global Instance same_holds_preorder : PreOrder same_holds.
Proof.
  split.
  - by intros d.
  - intros d1 d2 d3 (Hb & Hs & Hh) (Hb' & Hs' & Hh'). unfold same_holds. by rewrite Hb', Hs', Hh'.
Qed.

(** ** What the sweep can change *)

Section Keeps.

Context (R : relation db) `{!PreOrder R}.

Lemma keeps_ret {A} (a : A) : keeps R (mret a : M state A).
Proof. intros s. simpl. reflexivity. Qed.

Lemma keeps_bind {A B} (m : M state A) (k : A → M state B) :
  keeps R m → (∀ a, keeps R (k a)) → keeps R (m ≫= k).
Proof.
  intros Hm Hk s. unfold mbind, M_bind. specialize (Hm s).
  destruct (m s) as [[e|a] s1]; simpl in *; [done|].
  etrans; [done|]. apply Hk.
Qed.

Lemma keeps_try_except {A} (m : M state A) (h : exn → M state A) :
  keeps R m → (∀ e, keeps R (h e)) → keeps R (try_except m h).
Proof.
  intros Hm Hh s. unfold try_except. specialize (Hm s).
  destruct (m s) as [[e|a] s1]; simpl in *; [|done].
  etrans; [done|]. apply Hh.
Qed.

Lemma keeps_when (P : Prop) `{Decision P} (m : M state unit) :
  keeps R m → keeps R (when P m).
Proof. intros Hm. unfold when. case_decide; [done|apply keeps_ret]. Qed.

Lemma keeps_for_each {A} (l : list A) (body : A → M state unit) :
  (∀ a, keeps R (body a)) → keeps R (for_each l body).
Proof.
  intros Hbody. induction l as [|a l IH]; simpl; [apply keeps_ret|].
  apply keeps_bind; [apply Hbody|done].
Qed.

Lemma keeps_gets {A} (q : state → A) : keeps R (gets q).
Proof. intros s. simpl. reflexivity. Qed.

Lemma keeps_fetch {A} (q : db → A) : keeps R (fetch q).
Proof. apply keeps_gets. Qed.

Lemma keeps_send_message deliver chat_id text parse_mode reply_markup :
  keeps R (send_message deliver chat_id text parse_mode reply_markup).
Proof. intros s. unfold send_message. destruct (deliver _); simpl; reflexivity. Qed.

Lemma keeps_execute (w : db → db) : (∀ d, R d (w d)) → keeps R (execute w).
Proof. intros Hw s. simpl. apply Hw. Qed.

Hypothesis overdue_notified_kept : ∀ booking_id d,
  R d (set_bookings (sql_update (λ b, bk_id b = booking_id)
                       booking_set_overdue_notified) d).

Lemma keeps_check_reminders_row deliver GROUP_CHAT_ID now rec :
  keeps R (check_reminders_row deliver GROUP_CHAT_ID now rec).
Proof.
  unfold check_reminders_row.
  apply keeps_bind; [|intros _; apply keeps_bind; [|intros _]].
  - unfold remind_before_end. cbv zeta.
    repeat case_decide;
      repeat first [ apply keeps_ret | apply keeps_send_message | apply keeps_when
                   | apply keeps_bind; [|intros _] ].
  - unfold remind_ended. apply keeps_when, keeps_bind; [apply keeps_gets|].
    intros last. apply keeps_when, keeps_bind; [apply keeps_send_message|].
    intros _ s. simpl. reflexivity.
  - unfold escalate_overdue. apply keeps_when, keeps_bind; [apply keeps_send_message|].
    intros _. apply keeps_execute, overdue_notified_kept.
Qed.

Lemma keeps_check_reminders deliver GROUP_CHAT_ID now :
  keeps R (check_reminders deliver GROUP_CHAT_ID now).
Proof.
  unfold check_reminders, check_reminders_try.
  apply keeps_try_except; [|intros; apply keeps_ret].
  apply keeps_bind; [apply keeps_fetch|]. intros rows.
  apply keeps_for_each, keeps_check_reminders_row.
Qed.

End Keeps.

(** ** The states after [extend_booking] and [complete_booking] *)

Lemma extend_booking_eq booking_id user_id book_title office s :
  extend_booking booking_id user_id book_title office s =
  match head (filter (active_booking_of booking_id user_id) (bookings (st_db s))) with
  | None => (inl (ValueError not_found_msg), s)
  | Some booking =>
    if bk_extension_made booking then (inl (ValueError already_extended_msg), s)
    else
      match extension_of (bk_duration booking) with
      | None => (inl (ValueError "Неизвестная длительность"), s)
      | Some (extension, extension_text) =>
        let new_end := bk_end_time booking + extension in
        (inr (new_end, extension_text),
         set_db (set_users (alter (user_set_booking_end book_title new_end) user_id))
           (set_db (set_bookings (sql_update (λ b, bk_id b = booking_id)
                                    (booking_set_extended new_end))) s))
      end
  end.
Proof.
  unfold extend_booking, fetch, gets, mbind, M_bind. simpl.
  destruct (head _) as [booking|]; [|done].
  destruct (bk_extension_made booking); [done|].
  by destruct (extension_of _) as [[extension extension_text]|].
Qed.

Lemma complete_booking_eq deliver user_id booking_id book_id book_title office s :
  complete_booking deliver user_id booking_id book_id book_title office s =
  (inr (),
   set_db (set_bookings (sql_update (λ b, bk_id b = booking_id)
                           (booking_set_status "completed")))
     (set_db (set_users (alter user_set_available user_id))
        (snd (notify_next_in_waiting_list deliver book_title office
                (set_db (set_books (sql_update (λ b, b_id b = book_id)
                                      (book_set_status "available"))) s))))).
Proof.
  unfold complete_booking, transaction, other_conn, on_conn, update_book_status,
    execute, modify, mbind, M_bind, mret, M_ret. simpl.
  rewrite notify_next_in_waiting_list_eq. simpl.
  destruct (head _) as [w|]; [|done].
  destruct (users (st_db s) !! w_user_id w) as [info|]; [|done].
  cbv zeta. by destruct (deliver _).
Qed.

Lemma notify_next_in_waiting_list_same_holds deliver book_title office s :
  same_holds (st_db s) (st_db (snd (notify_next_in_waiting_list deliver book_title office s))).
Proof.
  rewrite notify_next_in_waiting_list_eq.
  destruct (head _) as [w|]; [|done].
  destruct (users (st_db s) !! w_user_id w) as [info|]; [|done].
  cbv zeta. by destruct (deliver _).
Qed.

Lemma sql_update_same_holds (P : booking → Prop) `{∀ x, Decision (P x)} set d :
  (∀ k, hold (set k) = hold k) →
  same_holds d (set_bookings (sql_update P set) d).
Proof.
  intros Hset. unfold same_holds. split_and!; [done..|].
  simpl. by apply sql_update_keys.
Qed.

Lemma check_reminders_same_holds deliver GROUP_CHAT_ID now s :
  same_holds (st_db s) (st_db (snd (check_reminders deliver GROUP_CHAT_ID now s))).
Proof.
  apply (keeps_check_reminders same_holds). intros booking_id d.
  by apply sql_update_same_holds.
Qed.

Lemma extend_booking_same_holds booking_id user_id book_title office s :
  same_holds (st_db s) (st_db (snd (extend_booking booking_id user_id book_title office s))).
Proof.
  rewrite extend_booking_eq.
  destruct (head _) as [booking|]; [|done].
  destruct (bk_extension_made booking); [done|].
  destruct (extension_of _) as [[extension extension_text]|]; [|done].
  cbv zeta. simpl. by apply (sql_update_same_holds _ _ (st_db s)).
Qed.

Lemma add_to_waiting_list_same_holds now user_id book_title office s :
  same_holds (st_db s) (st_db (snd (add_to_waiting_list now user_id book_title office s))).
Proof. rewrite add_to_waiting_list_eq. by repeat case_decide. Qed.

Lemma keys_ok_update_bookings (P : booking → Prop) `{∀ x, Decision (P x)} set d :
  (∀ k, bk_id (set k) = bk_id k) →
  keys_ok d → keys_ok (set_bookings (sql_update P set) d).
Proof.
  intros Hset (Hnb & Hnk & Hlt). unfold keys_ok. simpl. split_and!; [done| |].
  - by rewrite (sql_update_keys bk_id).
  - unfold sql_update. apply Forall_fmap. eapply Forall_impl; [exact Hlt|].
    intros k Hk. simpl. case_decide; [by rewrite Hset|done].
Qed.

Lemma create_booking_inv now user_id book_id book_title office duration s :
  permitted (Create_booking now user_id book_id book_title office duration) s →
  keys_ok (st_db s) → copy_exclusive (st_db s) →
  let s' := snd (create_booking now user_id book_id book_title office duration s) in
  keys_ok (st_db s') ∧ copy_exclusive (st_db s').
Proof.
  intros [Hu Hb] (Hnb & Hnk & Hlt) Hex. cbv zeta. rewrite create_booking_eq.
  destruct (booking_length duration) as [len|]; [|done].
  cbv zeta. rewrite decide_True.
  2:{ split; [done|]. apply create_booking_committed_book_ids.
      eapply Exists_impl; [exact Hb|]. by intros b [? _]. }
  destruct s as [d sent attrs]. simpl in *.
  apply Exists_exists in Hb as (b0 & Hb0 & Hid0 & Hst0).
  set (row := Booking _ _ _ _ _ _ _ _ _ _ _).
  split.
  - unfold keys_ok. simpl. split_and!.
    + by rewrite (sql_update_keys b_id).
    + unfold sql_insert. rewrite fmap_app. apply NoDup_app. split_and!; [done| |apply NoDup_singleton].
      intros i (k & -> & Hk)%list_elem_of_fmap. simpl. rewrite list_elem_of_singleton.
      rewrite Forall_forall in Hlt. specialize (Hlt k Hk). lia.
    + unfold sql_insert. apply Forall_app. split.
      * eapply Forall_impl; [exact Hlt|]. simpl. intros. lia.
      * apply Forall_singleton. simpl. lia.
  - unfold copy_exclusive in *. simpl. unfold sql_update at 1. apply Forall_fmap.
    rewrite Forall_forall in Hex. apply Forall_forall. intros b Hin. simpl.
    destruct (Hex b Hin) as [Hle Hiff]. unfold sql_insert.
    rewrite filter_app, length_app, Exists_app, (filter_singleton _ _ []), Exists_cons,
      Exists_nil.
    case_decide as Hidb.
    + assert (b = b0) as -> by (apply (NoDup_fmap_eq b_id (books d)); congruence).
      assert (¬ Exists (active_for (b_id b0)) (bookings d)) as Hno.
      { intros Hact. apply Hiff in Hact. by rewrite Hst0 in Hact. }
      simpl. rewrite (filter_nil_not_Exists _ _ Hno), decide_True by done.
      split; [simpl; lia|]. split; [|done]. intros _. right. by left.
    + rewrite decide_False by (intros [_ ?]; done).
      simpl. rewrite Nat.add_0_r. split; [done|]. rewrite Hiff.
      split; [tauto|]. intros [?|[[_ ?]|[]]]; done.
Qed.

Lemma complete_booking_inv deliver user_id booking_id book_id book_title office s :
  permitted (Complete_booking deliver user_id booking_id book_id book_title office) s →
  keys_ok (st_db s) → copy_exclusive (st_db s) →
  let s' := snd (complete_booking deliver user_id booking_id book_id book_title office s) in
  keys_ok (st_db s') ∧ copy_exclusive (st_db s').
Proof.
  intros Hk0 Hkeys Hex. cbv zeta. rewrite complete_booking_eq. simpl.
  set (s1 := set_db (set_books _) s).
  pose proof (notify_next_in_waiting_list_same_holds deliver book_title office s1)
    as (Hb & Hs & Hh).
  set (s2 := snd (notify_next_in_waiting_list deliver book_title office s1)) in *.
  assert (keys_ok (st_db s1) ∧
          copy_exclusive (set_bookings (sql_update (λ b, bk_id b = booking_id)
                                          (booking_set_status "completed")) (st_db s1)) ∧
          keys_ok (set_bookings (sql_update (λ b, bk_id b = booking_id)
                                   (booking_set_status "completed")) (st_db s1)))
    as (Hkeys1 & Hex1 & Hkeys1').
  2:{ assert (same_holds
                (set_bookings (sql_update (λ b, bk_id b = booking_id)
                                 (booking_set_status "completed")) (st_db s1))
                (set_bookings (sql_update (λ b, bk_id b = booking_id)
                                 (booking_set_status "completed"))
                   (set_users (alter user_set_available user_id) (st_db s2)))) as Hsame.
      { unfold same_holds. simpl. split_and!; [done..|].
        unfold sql_update. rewrite <-!list_fmap_compose.
        apply (f_equal (fmap (λ h : Z * Z * string,
                 if decide (h.1.1 = booking_id) then (h.1.1, h.1.2, "completed") else h)))
          in Hh.
        rewrite <-!list_fmap_compose in Hh.
        etrans; [|etrans; [exact Hh|]]; apply list_fmap_ext; intros i k _; simpl;
          by case_decide. }
      split; [by eapply same_holds_keys_ok|by eapply same_holds_copy_exclusive]. }
  destruct s as [d sent attrs]. subst s1. simpl in *. clear Hb Hs Hh s2.
  destruct Hkeys as (Hnb & Hnk & Hlt).
  apply Exists_exists in Hk0 as (k0 & Hin0 & Hid0 & Hact0).
  assert (keys_ok (set_books (sql_update (λ b, b_id b = book_id)
                                (book_set_status "available")) d)) as Hkeys1.
  { unfold keys_ok. simpl. by rewrite (sql_update_keys b_id). }
  split_and!; [done| |].
  2:{ by apply keys_ok_update_bookings. }
  unfold copy_exclusive in *. simpl. unfold sql_update at 1 3. apply Forall_fmap.
  rewrite Forall_forall in Hex. apply Forall_forall. intros b Hin. simpl.
  destruct (Hex b Hin) as [Hle Hiff].
  case_decide as Hidb.
  - simpl. assert (¬ Exists (active_for (b_id b))
                      (sql_update (λ k, bk_id k = booking_id)
                         (booking_set_status "completed") (bookings d))) as Hno.
    { rewrite Exists_exists. intros (k' & (k & -> & Hk)%list_elem_of_fmap & Hact).
      case_decide as Hidk; [by destruct Hact|].
      assert (2 ≤ length (filter (active_for (b_id b)) (bookings d)))%nat; [|lia].
      apply (length_two_distinct _ k0 k).
      - apply list_elem_of_filter. split; [|done]. by rewrite Hidb.
      - by apply list_elem_of_filter.
      - intros <-. done. }
    rewrite (filter_nil_not_Exists _ _ Hno). split; [simpl; lia|].
    split; [done|]. intros Hact. by destruct Hno.
  - assert (∀ k, k ∈ bookings d →
              (active_for (b_id b) (if decide (bk_id k = booking_id)
                                    then booking_set_status "completed" k else k)
               ↔ active_for (b_id b) k)) as Hsame.
    { intros k Hk. case_decide as Hidk; [|done].
      assert (k = k0) as -> by (apply (NoDup_fmap_eq bk_id (bookings d)); congruence).
      destruct Hact0 as [_ Hbook0]. unfold active_for. simpl. split; intros [? ?]; congruence. }
    unfold sql_update.
    rewrite (filter_fmap_length (active_for (b_id b)) (active_for (b_id b)) _ _ Hsame),
            (Exists_fmap_iff (active_for (b_id b)) (active_for (b_id b)) _ _ Hsame).
    done.
Qed.

Lemma run_inv c s :
  permitted c s → keys_ok (st_db s) → copy_exclusive (st_db s) →
  keys_ok (st_db (run c s)) ∧ copy_exclusive (st_db (run c s)).
Proof.
  intros Hc Hkeys Hex.
  assert (∀ s', same_holds (st_db s) (st_db s') →
                keys_ok (st_db s') ∧ copy_exclusive (st_db s')) as Hsame.
  { intros s' Hs'. split; [by eapply same_holds_keys_ok|by eapply same_holds_copy_exclusive]. }
  destruct c; simpl.
  - by apply create_booking_inv.
  - by apply complete_booking_inv.
  - apply Hsame, extend_booking_same_holds.
  - apply Hsame, add_to_waiting_list_same_holds.
  - by apply Hsame.
  - apply Hsame, check_reminders_same_holds.
Qed.

(** X21: copy exclusivity (for every copy at most one active booking
    references it, and its status is 'booked' exactly when one does),
    together with the uniqueness of the primary keys, is kept by every
    sequence of calls of [create_booking], [complete_booking],
    [extend_booking], [add_to_waiting_list], [remove_from_waiting_list] and
    [check_reminders], in any order, in which each [create_booking] is given a
    registered user and a copy that is available at that moment and each
    [complete_booking] an active booking together with the copy that it
    references. *)
Theorem copy_exclusivity_kept cs s :
  keys_ok (st_db s) → copy_exclusive (st_db s) → all_permitted cs s →
  keys_ok (st_db (run_all cs s)) ∧ copy_exclusive (st_db (run_all cs s)).
Proof.
  revert s. induction cs as [|c cs IH]; intros s Hkeys Hex Hcs; [done|].
  destruct Hcs as [Hc Hcs]. simpl.
  destruct (run_inv c s) as [Hkeys' Hex']; [done..|].
  by apply IH.
Qed.

Lemma copy_exclusivity_kept_witness :
  keys_ok (st_db (run_all ex_calls ex_state)) ∧
  copy_exclusive (st_db (run_all ex_calls ex_state)).
Proof.
  apply (copy_exclusivity_kept ex_calls ex_state); by_evaluation.
Defined.

(** C1 fails in the code: [create_booking] does not look at the status of the
    copy, and the dialog looks at it when the title is entered, not when the
    reservation is made.  In a state that has copy exclusivity, Ann and Bob
    both ask for "X" while the copies 1 and 2 are available, and
    [process_book_title] offers copy 1 to each of them.  Ann chooses a
    duration and [process_duration] reserves copy 1 for her; Bob then chooses
    a duration and [process_duration] reserves copy 1 for him as well: two
    active bookings reference copy 1, and copy 2 is still available. *)
Lemma double_booking_by_two_dialogs :
  keys_ok (st_db ex_state) ∧ copy_exclusive (st_db ex_state) ∧
  process_book_title lower lower (Some "Ann") (Some "L1") "X" ex_state =
    (inr (Ask_confirmation (ex_offer "Ann")), ex_state) ∧
  process_book_title lower lower (Some "Bob") (Some "L1") "X" ex_state =
    (inr (Ask_confirmation (ex_offer "Bob")), ex_state) ∧
  (λ k, (bk_id k, bk_user_id k)) <$>
    filter (active_for 1) (bookings (st_db ex_two_dialogs_state)) = [(1, 42); (2, 43)] ∧
  ex_book 2 "X" ∈ books (st_db ex_two_dialogs_state) ∧
  ¬ copy_exclusive (st_db ex_two_dialogs_state).
Proof.
  split_and!; [by_evaluation | by_evaluation | by vm_compute | by vm_compute
              | by vm_compute | by_evaluation |].
  by_evaluation.
Qed.

(** ** Extension *)

Lemma extension_of_Some duration extension text :
  extension_of duration = Some (extension, text) →
  ∃ c, duration = label c ∧ extension = extension_length c.
Proof.
  unfold extension_of. intros H.
  repeat case_decide; simplify_eq;
    [by exists OneHour | by exists OneWeek | by exists OneMonth
    | by exists ThreeMonths | by exists SixMonths].
Qed.

Lemma extension_of_label c :
  ∃ text, extension_of (label c) = Some (extension_length c, text).
Proof. destruct c; eexists; reflexivity. Qed.

Lemma extended_ext booking_id d d' :
  bookings d' = bookings d → bookings_id_seq d' = bookings_id_seq d →
  extended booking_id d → extended booking_id d'.
Proof. unfold extended. by intros -> ->. Qed.

Lemma extended_update booking_id (P : booking → Prop) `{∀ x, Decision (P x)} set d :
  (∀ k, bk_id (set k) = bk_id k) →
  (∀ k, bk_extension_made k = true → bk_extension_made (set k) = true) →
  extended booking_id d → extended booking_id (set_bookings (sql_update P set) d).
Proof.
  intros Hid Hext (Hlt & Hseq & Hmade). unfold extended, sql_update. simpl.
  split_and!; [done|apply Forall_fmap..].
  - eapply Forall_impl; [exact Hseq|]. intros k Hk. simpl.
    case_decide; [by rewrite Hid|done].
  - eapply Forall_impl; [exact Hmade|]. intros k Hk. simpl.
    case_decide; [|done]. rewrite Hid. auto.
Qed.

Lemma notify_next_in_waiting_list_bookings deliver book_title office s :
  let s' := snd (notify_next_in_waiting_list deliver book_title office s) in
  bookings (st_db s') = bookings (st_db s) ∧
  bookings_id_seq (st_db s') = bookings_id_seq (st_db s).
Proof.
  cbv zeta. rewrite notify_next_in_waiting_list_eq.
  destruct (head _) as [w|]; [|done].
  destruct (users (st_db s) !! w_user_id w) as [info|]; [|done].
  cbv zeta. by destruct (deliver _).
Qed.

Lemma extended_run booking_id c s :
  extended booking_id (st_db s) → extended booking_id (st_db (run c s)).
Proof.
  intros Hext. destruct c; simpl.
  - rewrite create_booking_eq. destruct (booking_length duration) as [len|]; [|done].
    cbv zeta. destruct Hext as (Hlt & Hseq & Hmade).
    assert (Forall (λ k, bk_id k < Z.succ (bookings_id_seq (st_db s))) (bookings (st_db s)))
      as Hseq' by (eapply Forall_impl; [exact Hseq|]; simpl; intros; lia).
    case_decide; unfold extended, sql_insert; simpl; (split_and!; [lia| |]);
      rewrite ?Forall_app, ?Forall_singleton; simpl; try done.
    + split; [done|lia].
    + split; [done|lia].
  - rewrite complete_booking_eq. simpl.
    apply (extended_update _ _ _ (set_users _ _)); [done..|].
    destruct (notify_next_in_waiting_list_bookings deliver book_title office
                (set_db (set_books (sql_update (λ b, b_id b = book_id)
                                      (book_set_status "available"))) s)) as [Hb Hs].
    by eapply extended_ext.
  - rewrite extend_booking_eq.
    destruct (head _) as [booking|]; [|done].
    destruct (bk_extension_made booking); [done|].
    destruct (extension_of _) as [[extension extension_text]|]; [|done].
    cbv zeta. simpl. by apply (extended_update _ _ _ (st_db s)).
  - rewrite add_to_waiting_list_eq. by repeat case_decide.
  - done.
  - assert (PreOrder (λ d d', extended booking_id d → extended booking_id d')) as Hpre.
    { split; [by intros d|]. intros d1 d2 d3 H12 H23 H1. auto. }
    refine (@keeps_check_reminders _ Hpre _ deliver GROUP_CHAT_ID now s Hext).
    intros. by apply extended_update.
Qed.

Lemma extended_run_all booking_id cs s :
  extended booking_id (st_db s) → extended booking_id (st_db (run_all cs s)).
Proof.
  revert s. induction cs as [|c cs IH]; intros s Hext; [done|].
  simpl. by apply IH, extended_run.
Qed.

Lemma extend_booking_extended booking_id user_id book_title office s :
  extended booking_id (st_db s) →
  extend_booking booking_id user_id book_title office s =
    (inl (ValueError
       (if decide (Exists (active_booking_of booking_id user_id) (bookings (st_db s)))
        then already_extended_msg else not_found_msg)), s).
Proof.
  intros (_ & _ & Hmade). rewrite extend_booking_eq.
  destruct (head _) as [k|] eqn:E.
  - apply head_filter_Some in E as (l1 & l2 & E & (Hid & Hu & Hact) & _).
    rewrite Forall_forall in Hmade. rewrite Hmade; [|rewrite E; set_solver|done].
    rewrite decide_True; [done|]. rewrite E. apply Exists_app. right. by left.
  - apply head_filter_None in E. by rewrite decide_False.
Qed.

(** C6 (as the code has it): in a state whose booking ids were drawn from the
    sequence, an [extend_booking] that finds the booking active, of that user,
    not yet extended and of duration class [c] succeeds; the call that
    succeeds returns the old end time plus the extension of the class (1 hour
    → +15 min; 1 week → +1 week; 1 month → +14 days; 3 months → +30 days;
    6 months → +60 days) and stores it with [extension_made] set; and after
    it, whatever calls are made in between, every further [extend_booking] of
    that booking raises and changes nothing: "already extended" while the
    booking is still active and the user is its holder, "not found" once it is
    completed or for another user. *)
Theorem extend_booking_once booking_id user_id book_title office s :
  Forall (λ k, bk_id k < bookings_id_seq (st_db s)) (bookings (st_db s)) →
  (∀ k c,
     head (filter (active_booking_of booking_id user_id) (bookings (st_db s))) = Some k →
     bk_extension_made k = false → bk_duration k = label c →
     ∃ text s1, extend_booking booking_id user_id book_title office s =
                  (inr (bk_end_time k + extension_length c, text), s1)) ∧
  (∀ new_end text s1,
     extend_booking booking_id user_id book_title office s = (inr (new_end, text), s1) →
     (∃ k c, k ∈ bookings (st_db s) ∧ active_booking_of booking_id user_id k ∧
             bk_extension_made k = false ∧ bk_duration k = label c ∧
             new_end = bk_end_time k + extension_length c ∧
             booking_set_extended new_end k ∈ bookings (st_db s1)) ∧
     (∀ cs user_id' book_title' office',
        let s2 := run_all cs s1 in
        extend_booking booking_id user_id' book_title' office' s2 =
          (inl (ValueError
             (if decide (Exists (active_booking_of booking_id user_id')
                           (bookings (st_db s2)))
              then already_extended_msg else not_found_msg)), s2))).
Proof.
  intros Hseq. split.
  - intros k c Hk Hmade Hdur. rewrite extend_booking_eq, Hk, Hmade, Hdur.
    destruct (extension_of_label c) as [text ->]. eauto.
  - intros new_end text s1. rewrite extend_booking_eq.
    destruct (head _) as [k|] eqn:E; [|done].
    destruct (bk_extension_made k) eqn:Hmade; [done|].
    destruct (extension_of _) as [[extension extension_text]|] eqn:Hext; [|done].
    cbv zeta. intros [= <- <- <-].
    apply extension_of_Some in Hext as (c & Hdur & ->).
    apply head_filter_Some in E as (l1 & l2 & E & Hk & _).
    assert (k ∈ bookings (st_db s)) as Hin by (rewrite E; set_solver).
    split.
    + exists k, c. split_and!; [done..|]. simpl.
      apply elem_of_sql_update_set; [done|]. by destruct Hk.
    + intros cs user_id' book_title' office'. cbv zeta.
      apply extend_booking_extended, extended_run_all. simpl.
      destruct Hk as (Hid & _ & _). rewrite Forall_forall in Hseq.
      unfold extended, sql_update. simpl. split_and!.
      * rewrite <-Hid. by apply Hseq.
      * apply Forall_fmap, Forall_forall. intros k' Hk'. simpl.
        case_decide; simpl; by apply Hseq.
      * apply Forall_fmap, Forall_forall. intros k' Hk'. simpl.
        by case_decide.
Qed.

Lemma extend_booking_once_witness :
  (∃ k c, k ∈ bookings (st_db ex_booked_state) ∧ active_booking_of 1 42 k ∧
          bk_extension_made k = false ∧ bk_duration k = label c ∧
          T0 + timedelta_minutes 75 = bk_end_time k + extension_length c ∧
          booking_set_extended (T0 + timedelta_minutes 75) k
            ∈ bookings (st_db ex_extended_state)) ∧
  extend_booking 1 42 "X" "L1"
    (run_all [Check_reminders (λ _, true) ex_group (T0 + timedelta_minutes 70)]
       ex_extended_state) =
    (inl (ValueError already_extended_msg),
     run_all [Check_reminders (λ _, true) ex_group (T0 + timedelta_minutes 70)]
       ex_extended_state).
Proof.
  destruct (extend_booking_once 1 42 "X" "L1" ex_booked_state) as [_ Hsecond];
    [by_evaluation|].
  destruct (Hsecond (T0 + timedelta_minutes 75) "15 минут" ex_extended_state)
    as [Hfirst Hlater]; [vm_compute; reflexivity|].
  split; [exact Hfirst|].
  rewrite (Hlater [Check_reminders (λ _, true) ex_group (T0 + timedelta_minutes 70)]
             42 "X" "L1").
  cbv zeta. rewrite decide_True; [reflexivity|]. by_evaluation.
Defined.

(** C6, as the claim words it, fails: once the extended booking has been
    completed, a further [extend_booking] raises "not found", not "already
    extended". *)
Lemma extend_booking_after_completion_not_found :
  extend_booking 1 42 "X" "L1" ex_booked_state =
    (inr (T0 + timedelta_minutes 75, "15 минут"), ex_extended_state) ∧
  extend_booking 1 42 "X" "L1" ex_returned_state =
    (inl (ValueError not_found_msg), ex_returned_state) ∧
  not_found_msg ≠ already_extended_msg.
Proof.
  split_and!; [by vm_compute | by vm_compute | by_evaluation].
Qed.

(** ** Where the code departs from the specification *)

Lemma create_booking_foreign_key_violation now user_id book_id book_title office c s :
  ¬ (is_Some (users (st_db s) !! user_id) ∧
     Exists (λ b, b_id b = book_id) (books (st_db s))) →
  create_booking now user_id book_id book_title office (label c) s =
    (inl ForeignKeyViolationError,
     create_booking_committed user_id book_id book_title office s).
Proof.
  intros Hfk. rewrite create_booking_eq, booking_length_label. cbv zeta.
  rewrite decide_False; [done|]. intros [Hu Hb]. apply Hfk. split; [done|].
  by apply create_booking_committed_book_ids in Hb.
Qed.

(** C2: [create_booking] is not atomic.  Called for the user 44, who is not
    (or no longer) in [users], it raises when the booking is inserted, and
    copy 1 stays 'booked' with no booking; called for Ann, who waits for "X",
    and a copy 9 that is not (or no longer) in [books], it raises and Ann's
    entry in the waiting list is gone. *)
Theorem create_booking_not_atomic :
  (fst (create_booking T0 44 1 "X" "L1" "1 неделя" ex_state) =
     inl ForeignKeyViolationError ∧
   books (st_db ex_state) = [ex_book 1 "X"; ex_book 2 "X"] ∧
   books (st_db (snd (create_booking T0 44 1 "X" "L1" "1 неделя" ex_state))) =
     [book_set_status "booked" (ex_book 1 "X"); ex_book 2 "X"] ∧
   bookings (st_db (snd (create_booking T0 44 1 "X" "L1" "1 неделя" ex_state))) = []) ∧
  (fst (create_booking T0 42 9 "X" "L1" "1 неделя" ex_ann_waiting_state) =
     inl ForeignKeyViolationError ∧
   waiting_list (st_db ex_ann_waiting_state) = [Waiting 42 "X" "L1" 100 false] ∧
   waiting_list (st_db (snd (create_booking T0 42 9 "X" "L1" "1 неделя"
                               ex_ann_waiting_state))) = [] ∧
   bookings (st_db (snd (create_booking T0 42 9 "X" "L1" "1 неделя"
                           ex_ann_waiting_state))) = []).
Proof. split_and!; by vm_compute. Qed.

(** C4: the reminders before the end are sent at every pass that falls into
    their window.  Two passes five minutes apart, 10 and 5 minutes before the
    end of a 1-hour booking, send the 15-minute reminder twice; two passes at
    09:00 and 09:05 of the fifth day of a 1-week booking send the reminder of
    that day twice. *)
Theorem reminder_sent_at_every_pass :
  st_sent (ex_pass (T0 + timedelta_minutes 55)
             (ex_pass (T0 + timedelta_minutes 50) ex_booked_state)) =
    [ex_remind_15 42; ex_remind_15 42] ∧
  st_sent (ex_pass (T0 + timedelta_days 5 + timedelta_minutes 65)
             (ex_pass (T0 + timedelta_days 5 + timedelta_minutes 60) ex_week_state)) =
    [ex_remind_tomorrow 42; ex_remind_tomorrow 42].
Proof. split; by vm_compute. Qed.

(** C7: a delivery failure ends the pass.  With the 15-minute reminder due for
    Ann and for Bob, a sink that delivers to both sends both; when the
    delivery to Ann fails, the [try] block ends with that exception and Bob,
    whose row comes after Ann's, is sent nothing in that pass. *)
Theorem delivery_failure_ends_sweep :
  st_sent (snd (check_reminders (λ _, true) ex_group (T0 + timedelta_minutes 50)
                  ex_two_bookings_state)) =
    [ex_remind_15 42; ex_remind_15 43] ∧
  fst (check_reminders_try (all_but 42) ex_group (T0 + timedelta_minutes 50)
         ex_two_bookings_state) = inl TelegramAPIError ∧
  st_sent (snd (check_reminders (all_but 42) ex_group (T0 + timedelta_minutes 50)
                  ex_two_bookings_state)) = [].
Proof. split_and!; by vm_compute. Qed.

(** ** The first in line *)

(** With unique keys, the UPDATE of [notify_next_in_waiting_list] by the key
    of a row marks that row and no other. *)
Lemma sql_update_waiting_key d w :
  waiting_unique d → w ∈ waiting_list d →
  sql_update (waiting_key (w_user_id w) (w_book_title w) (w_office w))
    waiting_set_notified (waiting_list d) = mark_notified w (waiting_list d).
Proof.
  intros Hnd Hw. unfold sql_update, mark_notified.
  apply list_fmap_ext. intros i x Hx. apply list_elem_of_lookup_2 in Hx.
  destruct (decide (waiting_key _ _ _ x)) as [Hk|Hk].
  - destruct (waiting_unique_key d w x Hnd Hw Hx Hk) as [Hat Hn].
    destruct Hk as (Hu & Ht & Ho).
    assert (x = w) as -> by (destruct x, w; simpl in *; congruence).
    by rewrite decide_True.
  - rewrite decide_False; [done|]. intros ->. by apply Hk.
Qed.

(** The row that [get_first_in_waiting_list] selects when [a] is first in
    line: [a] itself. *)
Lemma head_first_in_line book_title office rows a :
  a ∈ rows → unnotified_for book_title office a →
  (∀ w, w ∈ rows → unnotified_for book_title office w →
        w = a ∨ w_added_at a < w_added_at w) →
  head (merge_sort added_at_le (filter (unnotified_for book_title office) rows)) = Some a.
Proof.
  intros Ha Hua Hfirst.
  pose proof (first_in_waiting_list book_title office rows) as Hw.
  destruct (head _) as [w|].
  - destruct Hw as (Hin & Hu & Hmin).
    destruct (Hfirst w Hin Hu) as [->|Hlt]; [done|].
    specialize (Hmin a Ha Hua). lia.
  - by destruct (Hw a Ha).
Qed.

(** C3: [get_first_in_waiting_list] changes nothing; it returns nothing
    exactly when the waiting list of the title at the office has no entry
    that is not yet notified; otherwise it returns the user of such an entry
    whose enqueue time [added_at] is the earliest among them.  Hence, with [a]
    enqueued before [b] and both not yet notified: after any number of
    releases of copies of the title either [b] is still waiting, not notified,
    or [a] has been notified; and when [a] is first in line, its user is
    registered and the message can be delivered, a release returns True,
    sends that one message to the user of [a], and marks the row of [a], and
    no other row, as notified.  A release that does not return True returns
    False and changes nothing; and [complete_booking] does to the waiting
    list and to the messages what [notify_next_in_waiting_list] does. *)
Theorem waiting_list_fifo book_title office s :
  let rows := waiting_list (st_db s) in
  let r := get_first_in_waiting_list book_title office s in
  snd r = s ∧
  (fst r = inr None ↔ ∀ w, w ∈ rows → ¬ unnotified_for book_title office w) ∧
  (∀ user_id, fst r = inr (Some user_id) →
     ∃ w, w ∈ rows ∧ w_user_id w = user_id ∧ unnotified_for book_title office w ∧
          ∀ w', w' ∈ rows → unnotified_for book_title office w' →
                w_added_at w ≤ w_added_at w') ∧
  (∀ a b sinks,
     waiting_unique (st_db s) → a ∈ rows → b ∈ rows →
     unnotified_for book_title office a → unnotified_for book_title office b →
     w_added_at a < w_added_at b →
     let rows' := waiting_list (st_db (releases sinks book_title office s)) in
     b ∈ rows' ∨ waiting_set_notified a ∈ rows') ∧
  (∀ deliver a info,
     waiting_unique (st_db s) → a ∈ rows → unnotified_for book_title office a →
     (∀ w, w ∈ rows → unnotified_for book_title office w →
           w = a ∨ w_added_at a < w_added_at w) →
     users (st_db s) !! w_user_id a = Some info →
     deliver (waitlist_notification (w_user_id a) (u_first_name info) book_title office)
       = true →
     fst r = inr (Some (w_user_id a)) ∧
     notify_next_in_waiting_list deliver book_title office s =
       (inr true,
        set_db (set_waiting_list (mark_notified a))
          (State (st_db s)
             (st_sent s ++
              [waitlist_notification (w_user_id a) (u_first_name info) book_title office])
             (st_attrs s)))) ∧
  (∀ deliver,
     fst (notify_next_in_waiting_list deliver book_title office s) = inr true ∨
     notify_next_in_waiting_list deliver book_title office s = (inr false, s)) ∧
  (∀ deliver user_id booking_id book_id,
     let released :=
       snd (complete_booking deliver user_id booking_id book_id book_title office s) in
     let notified := snd (notify_next_in_waiting_list deliver book_title office s) in
     waiting_list (st_db released) = waiting_list (st_db notified) ∧
     st_sent released = st_sent notified).
Proof.
  cbv zeta. rewrite get_first_in_waiting_list_eq. simpl.
  pose proof (first_in_waiting_list book_title office (waiting_list (st_db s))) as Hw.
  split_and!; [done| | | | | |].
  - destruct (head _) as [w|]; simpl; [|done].
    split; [done|]. intros Hno. destruct Hw as (Hin & Hu & _). by destruct (Hno w).
  - intros user_id. destruct (head _) as [w|]; simpl; [|done].
    intros [= <-]. exists w. by destruct Hw as (? & ? & ?).
  - intros a b sinks Hnd Ha Hb Hua Hub Hlt.
    cut (waiting_unique (st_db (releases sinks book_title office s)) ∧
         (a ∈ waiting_list (st_db (releases sinks book_title office s)) ∧
          b ∈ waiting_list (st_db (releases sinks book_title office s)) ∨
          waiting_set_notified a ∈ waiting_list (st_db (releases sinks book_title office s)))).
    { intros [_ [[_ ?]|?]]; eauto. }
    assert (waiting_unique (st_db s) ∧
            (a ∈ waiting_list (st_db s) ∧ b ∈ waiting_list (st_db s) ∨
             waiting_set_notified a ∈ waiting_list (st_db s))) as Hinv by eauto.
    clear Hnd Ha Hb Hw. revert s Hinv. unfold releases.
    induction sinks as [|deliver sinks IH]; intros s Hinv; [done|].
    simpl. apply IH. by apply notify_next_fifo_step.
  - intros deliver a info Hnd Ha Hua Hfirst Hinfo Hdeliver.
    pose proof (head_first_in_line book_title office _ a Ha Hua Hfirst) as Hhead.
    rewrite notify_next_in_waiting_list_eq, Hhead. split; [done|].
    rewrite Hinfo. cbv zeta. unfold waitlist_notification in Hdeliver. rewrite Hdeliver.
    destruct Hua as (Ht & Ho & _).
    pose proof (sql_update_waiting_key (st_db s) a Hnd Ha) as Hmark.
    rewrite Ht, Ho in Hmark. unfold set_db, set_waiting_list. simpl.
    by rewrite Hmark.
  - intros deliver. rewrite notify_next_in_waiting_list_eq.
    destruct (head _) as [w|]; [|by right].
    destruct (users (st_db s) !! w_user_id w) as [info|]; [|by right].
    cbv zeta. destruct (deliver _); [by left|by right].
  - intros deliver user_id booking_id book_id.
    rewrite complete_booking_eq, !notify_next_in_waiting_list_eq. simpl.
    destruct (head _) as [w|]; [|done].
    destruct (users (st_db s) !! w_user_id w) as [info|]; [|done].
    cbv zeta. by destruct (deliver _).
Qed.

Lemma waiting_list_fifo_witness :
  (∃ w, w ∈ waiting_list (st_db ex_waiting_state) ∧ w_user_id w = 42 ∧
        unnotified_for "X" "L1" w ∧
        ∀ w', w' ∈ waiting_list (st_db ex_waiting_state) → unnotified_for "X" "L1" w' →
              w_added_at w ≤ w_added_at w') ∧
  (Waiting 43 "X" "L1" 200 false
     ∈ waiting_list (st_db (releases [λ _, false; λ _, true] "X" "L1" ex_waiting_state)) ∨
   waiting_set_notified (Waiting 42 "X" "L1" 100 false)
     ∈ waiting_list (st_db (releases [λ _, false; λ _, true] "X" "L1" ex_waiting_state))) ∧
  notify_next_in_waiting_list (λ _, true) "X" "L1" ex_waiting_state =
    (inr true,
     set_db (set_waiting_list (mark_notified (Waiting 42 "X" "L1" 100 false)))
       (State (st_db ex_waiting_state)
          (st_sent ex_waiting_state ++ [waitlist_notification 42 "Ann" "X" "L1"])
          (st_attrs ex_waiting_state))).
Proof.
  destruct (waiting_list_fifo "X" "L1" ex_waiting_state)
    as (_ & _ & Hfirst & Hfifo & Hnotify & _).
  split_and!.
  - apply Hfirst. vm_compute. reflexivity.
  - apply Hfifo; by_evaluation.
  - apply (Hnotify (λ _, true) (Waiting 42 "X" "L1" 100 false) (ex_user "Ann"));
      [by_evaluation|by_evaluation|by_evaluation| |by vm_compute|done].
    intros w Hw Hu. apply list_elem_of_In in Hw. simpl in Hw.
    destruct Hw as [<-|[<-|[]]]; [right; simpl; lia|by left].
Defined.

(** * Further properties of the code *)

(** ** Users *)

(** X1: after [register_user] the row of the user carries the names given; a
    user who was already registered keeps office, status, current booking and
    accepted rules, a new one is 'available' and has not accepted the rules;
    the rows of all other users are as before. *)
Theorem register_user_lookup user_id first_name last_name s :
  let s' := snd (register_user user_id first_name last_name s) in
  fst (get_user_info user_id s') =
    inr (Some (from_option (user_set_name first_name last_name)
                 (new_user first_name last_name) (users (st_db s) !! user_id))) ∧
  ∀ other, other ≠ user_id →
    fst (get_user_info other s') = fst (get_user_info other s).
Proof.
  cbv zeta. unfold register_user, get_user_info, execute, fetch, gets, modify. simpl.
  destruct (users (st_db s) !! user_id) as [u|]; simpl.
  - split; [by rewrite lookup_insert_eq|]. intros other Hne. by rewrite lookup_insert_ne.
  - split; [by rewrite lookup_insert_eq|]. intros other Hne. by rewrite lookup_insert_ne.
Qed.

Lemma register_user_lookup_witness :
  fst (get_user_info 42 (snd (register_user 42 "Anna" "Lee" ex_state))) =
    inr (Some (user_set_name "Anna" "Lee" (ex_user "Ann"))) ∧
  fst (get_user_info 43 (snd (register_user 42 "Anna" "Lee" ex_state))) =
    fst (get_user_info 43 ex_state).
Proof.
  destruct (register_user_lookup 42 "Anna" "Lee" ex_state) as [Hown Hother].
  split; [exact Hown|]. apply Hother. done.
Defined.

Lemma get_user_booking_eq user_id s :
  get_user_booking user_id s =
  (inr (match users (st_db s) !! user_id with
        | Some u =>
          if decide (u_status u = "booked")
          then (λ b, UserBooking (bk_id b) (bk_book_id b) (bk_book_title b)
                       (bk_start_time b) (bk_duration b) (bk_end_time b)) <$>
               head (filter (active_booking_by user_id) (bookings (st_db s)))
          else None
        | None => None
        end), s).
Proof. reflexivity. Qed.

Lemma get_user_booking_ext user_id s s' :
  bookings (st_db s') = bookings (st_db s) →
  u_status <$> users (st_db s') !! user_id = u_status <$> users (st_db s) !! user_id →
  fst (get_user_booking user_id s') = fst (get_user_booking user_id s).
Proof.
  intros Hb Hu. rewrite !get_user_booking_eq. simpl. rewrite Hb.
  destruct (users (st_db s') !! user_id) as [u'|], (users (st_db s) !! user_id) as [u|];
    simplify_eq/=; [|done]. by rewrite Hu.
Qed.

Lemma register_user_get_user_booking user_id first_name last_name other s :
  fst (get_user_booking other (snd (register_user user_id first_name last_name s))) =
  fst (get_user_booking other s).
Proof.
  rewrite !get_user_booking_eq. unfold register_user, execute, modify. simpl.
  destruct (decide (other = user_id)) as [->|Hne].
  - by destruct (users (st_db s) !! user_id) as [u|]; rewrite lookup_insert_eq.
  - by destruct (users (st_db s) !! user_id) as [u|]; rewrite lookup_insert_ne.
Qed.

Lemma alter_get_user_booking (set : user → user) user_id other s :
  (∀ u, u_status (set u) = u_status u) →
  fst (get_user_booking other (set_db (set_users (alter set user_id)) s)) =
  fst (get_user_booking other s).
Proof.
  intros Hset. apply get_user_booking_ext; [done|]. simpl.
  destruct (decide (other = user_id)) as [->|Hne].
  - rewrite lookup_alter_eq. destruct (users (st_db s) !! user_id); simpl; [|done].
    by rewrite Hset.
  - by rewrite lookup_alter_ne.
Qed.

(** X2: [register_user], [accept_rules] and [update_user_office] change
    neither the copies, the bookings and the waiting list nor what
    [get_user_booking] answers for any user: registering again under another
    name never loses a reader's booking. *)
Theorem profile_updates_keep_bookings user_id first_name last_name office other s :
  Forall (λ s', books (st_db s') = books (st_db s) ∧
                bookings (st_db s') = bookings (st_db s) ∧
                waiting_list (st_db s') = waiting_list (st_db s) ∧
                fst (get_user_booking other s') = fst (get_user_booking other s))
    [snd (register_user user_id first_name last_name s);
     snd (accept_rules user_id s);
     snd (update_user_office user_id office s)].
Proof.
  repeat apply Forall_cons_2; [..|apply Forall_nil_2]; (split_and!; [done..|]).
  - apply register_user_get_user_booking.
  - by apply alter_get_user_booking.
  - by apply alter_get_user_booking.
Qed.

(** ** A booking, from reservation to return *)

Lemma create_booking_success now user_id book_id book_title office duration s r s' :
  create_booking now user_id book_id book_title office duration s = (inr r, s') →
  ∃ length,
    booking_length duration = Some length ∧
    is_Some (users (st_db s) !! user_id) ∧
    Exists (λ b, b_id b = book_id) (books (st_db s)) ∧
    r = (bookings_id_seq (st_db s), now + length) ∧
    st_db s' =
      Db (sql_update (λ b, b_id b = book_id) (book_set_status "booked") (books (st_db s)))
         (bookings (st_db s) ++
          [new_booking (bookings_id_seq (st_db s)) user_id book_id book_title office now
             duration (now + length)])
         (alter (user_set_booked book_title now duration (now + length)) user_id
            (users (st_db s)))
         (sql_delete (waiting_key user_id book_title office) (waiting_list (st_db s)))
         (Z.succ (bookings_id_seq (st_db s))) ∧
    st_sent s' = st_sent s ∧ st_attrs s' = st_attrs s.
Proof.
  rewrite create_booking_eq.
  destruct (booking_length duration) as [len|]; [|done].
  cbv zeta. case_decide as Hfk; [|done]. intros [= <- <-].
  destruct Hfk as [Hu Hb]. apply create_booking_committed_book_ids in Hb.
  exists len. by split_and!.
Qed.

(** X3: after a [create_booking] that succeeded for a user who had no active
    booking, [get_user_booking] returns the new booking: the id and the end
    time that [create_booking] returned, the copy, the title, the start and
    the duration. *)
Theorem get_user_booking_after_create now user_id book_id book_title office duration s
    booking_id end_time s' :
  create_booking now user_id book_id book_title office duration s =
    (inr (booking_id, end_time), s') →
  ¬ Exists (active_booking_by user_id) (bookings (st_db s)) →
  fst (get_user_booking user_id s') =
    inr (Some (UserBooking booking_id book_id book_title now duration end_time)).
Proof.
  intros (len & _ & [u Hu] & _ & [= -> ->] & Hdb & _)%create_booking_success Hnone.
  rewrite get_user_booking_eq, Hdb. simpl.
  rewrite lookup_alter_eq, Hu. simpl.
  rewrite filter_app, (filter_nil_not_Exists _ _ Hnone). simpl.
  by rewrite filter_cons_True.
Qed.

Lemma get_user_booking_after_create_witness :
  fst (get_user_booking 42 ex_booked_state) =
    inr (Some (UserBooking 1 1 "X" T0 "1 час" (T0 + timedelta_hours 1))).
Proof.
  apply (get_user_booking_after_create T0 42 1 "X" "L1" "1 час" ex_state).
  - vm_compute. reflexivity.
  - by_evaluation.
Defined.

(** X4: after [complete_booking] for a user, [get_user_booking] finds no
    booking of that user, whatever the other arguments and the state were. *)
Theorem get_user_booking_after_complete deliver user_id booking_id book_id book_title
    office s :
  fst (get_user_booking user_id
         (snd (complete_booking deliver user_id booking_id book_id book_title office s))) =
  inr None.
Proof.
  rewrite complete_booking_eq, get_user_booking_eq. simpl.
  rewrite lookup_alter_eq.
  by destruct (users _ !! user_id).
Qed.

Lemma sql_update_none {A} (P : A → Prop) `{∀ x, Decision (P x)} set (rows : list A) :
  Forall (λ x, ¬ P x) rows → sql_update P set rows = rows.
Proof.
  intros Hno. unfold sql_update. rewrite <-(list_fmap_id rows) at 2.
  apply list_fmap_ext. intros i x Hx. simpl.
  rewrite decide_False; [done|].
  rewrite Forall_forall in Hno. apply Hno. by eapply list_elem_of_lookup_2.
Qed.

Lemma sql_update_twice {A} (P : A → Prop) `{∀ x, Decision (P x)} set1 set2 (rows : list A) :
  (∀ x, P x → P (set1 x)) →
  sql_update P set2 (sql_update P set1 rows) = sql_update P (set2 ∘ set1) rows.
Proof.
  intros HP. unfold sql_update. rewrite <-list_fmap_compose.
  apply list_fmap_ext. intros i x _. simpl.
  destruct (decide (P x)) as [Hx|Hx];
    [rewrite decide_True by (by apply HP)|rewrite decide_False by done]; done.
Qed.

Lemma sql_update_id {A} (P : A → Prop) `{∀ x, Decision (P x)} set (rows : list A) :
  Forall (λ x, P x → set x = x) rows → sql_update P set rows = rows.
Proof.
  intros Hid. unfold sql_update. rewrite <-(list_fmap_id rows) at 2.
  apply list_fmap_ext. intros i x Hx. simpl. case_decide; [|done].
  rewrite Forall_forall in Hid. apply Hid; [|done]. by eapply list_elem_of_lookup_2.
Qed.

(** X5: a reservation followed by its return.  When [create_booking] succeeds
    on a copy that was available, in a state whose booking ids were drawn
    from the sequence, and [complete_booking] is then called with the id it
    returned, the copies are again exactly as they were before the
    reservation, the booking is kept with status 'completed', and the user's
    row is the original one with the booking columns cleared and status
    'available'. *)
Theorem create_then_complete deliver now user_id book_id book_title office duration s
    booking_id end_time s1 :
  Forall (λ k, bk_id k < bookings_id_seq (st_db s)) (bookings (st_db s)) →
  Forall (λ b, b_id b = book_id → b_status b = "available") (books (st_db s)) →
  create_booking now user_id book_id book_title office duration s =
    (inr (booking_id, end_time), s1) →
  let s2 := snd (complete_booking deliver user_id booking_id book_id book_title office s1) in
  books (st_db s2) = books (st_db s) ∧
  bookings (st_db s2) =
    bookings (st_db s) ++
    [booking_set_status "completed"
       (new_booking booking_id user_id book_id book_title office now duration end_time)] ∧
  users (st_db s2) = alter user_set_available user_id (users (st_db s)).
Proof.
  intros Hseq Havail
    (len & _ & _ & _ & [= -> ->] & Hdb & _)%create_booking_success.
  cbv zeta. rewrite complete_booking_eq. simpl.
  set (s1' := set_db _ s1).
  destruct (notify_next_in_waiting_list_bookings deliver book_title office s1')
    as [Hbk _].
  pose proof (notify_next_in_waiting_list_same_holds deliver book_title office s1')
    as (Hbooks & _ & _).
  assert (users (st_db (snd (notify_next_in_waiting_list deliver book_title office s1')))
          = users (st_db s1')) as Husers.
  { rewrite notify_next_in_waiting_list_eq.
    destruct (head _) as [w|]; [|done].
    destruct (users (st_db s1') !! w_user_id w) as [info|]; [|done].
    cbv zeta. by destruct (deliver _). }
  rewrite Hbk, Hbooks, Husers. subst s1'. simpl. rewrite Hdb. simpl. split_and!.
  - rewrite sql_update_twice by done. apply sql_update_id.
    eapply Forall_impl; [exact Havail|]. intros [] Hst Hid. simpl in *.
    by rewrite Hst.
  - unfold sql_update. rewrite fmap_app. simpl. rewrite decide_True by done.
    f_equal. apply (sql_update_none (λ b, bk_id b = bookings_id_seq (st_db s))).
    eapply Forall_impl; [exact Hseq|]. simpl. intros k Hk. lia.
  - apply map_eq. intros i. destruct (decide (i = user_id)) as [->|Hne].
    + rewrite !lookup_alter_eq. by destruct (users (st_db s) !! user_id).
    + by rewrite !lookup_alter_ne.
Qed.

Lemma create_then_complete_witness :
  books (st_db (snd (complete_booking (λ _, true) 42 1 1 "X" "L1" ex_booked_state))) =
    books (st_db ex_state) ∧
  bookings (st_db (snd (complete_booking (λ _, true) 42 1 1 "X" "L1" ex_booked_state))) =
    bookings (st_db ex_state) ++
    [booking_set_status "completed"
       (new_booking 1 42 1 "X" "L1" T0 "1 час" (T0 + timedelta_hours 1))] ∧
  users (st_db (snd (complete_booking (λ _, true) 42 1 1 "X" "L1" ex_booked_state))) =
    alter user_set_available 42 (users (st_db ex_state)).
Proof.
  apply (create_then_complete (λ _, true) T0 42 1 "X" "L1" "1 час" ex_state
           1 (T0 + timedelta_hours 1) ex_booked_state).
  - by_evaluation.
  - by_evaluation.
  - vm_compute. reflexivity.
Defined.

(** ** Leaving the waiting list *)

Lemma sql_delete_none {A} (P : A → Prop) `{∀ x, Decision (P x)} (rows : list A) :
  ¬ Exists P rows → sql_delete P rows = rows.
Proof.
  intros Hno. unfold sql_delete. induction rows as [|x rows IH]; [done|].
  rewrite filter_cons_True.
  - f_equal. apply IH. intros Hex. apply Hno. by right.
  - intros Hx. apply Hno. by left.
Qed.

Lemma sql_delete_insert {A} (P : A → Prop) `{∀ x, Decision (P x)} (rows : list A) row :
  P row → sql_delete P (sql_insert row rows) = sql_delete P rows.
Proof.
  intros Hrow. unfold sql_delete, sql_insert.
  rewrite filter_app, (filter_singleton_False _ _ []), app_nil_r; [done|]. by intros Hn.
Qed.

Lemma not_Exists_sql_delete {A} (P : A → Prop) `{∀ x, Decision (P x)} (rows : list A) :
  ¬ Exists P (sql_delete P rows).
Proof.
  rewrite Exists_exists. intros (x & [Hn _]%list_elem_of_filter & Hx). done.
Qed.

(** X6: entering and leaving the waiting list.  For a registered user with no
    entry for the title and office, [add_to_waiting_list] followed by
    [remove_from_waiting_list] gives back the database as it was; and a user
    who leaves and enters again stands last, with the new time and not
    notified, whatever the old entry was. *)
Theorem waiting_list_add_remove now user_id book_title office s :
  is_Some (users (st_db s) !! user_id) →
  (¬ Exists (waiting_key user_id book_title office) (waiting_list (st_db s)) →
   st_db (snd (remove_from_waiting_list user_id book_title office
                 (snd (add_to_waiting_list now user_id book_title office s)))) =
   st_db s) ∧
  waiting_list (st_db (snd (add_to_waiting_list now user_id book_title office
                              (snd (remove_from_waiting_list user_id book_title office s)))))
  = sql_delete (waiting_key user_id book_title office) (waiting_list (st_db s)) ++
    [Waiting user_id book_title office now false].
Proof.
  intros Hu. split.
  - intros Hnew. rewrite add_to_waiting_list_eq, decide_False, decide_True by done.
    simpl. destruct s as [[] ? ?]. simpl in *. unfold set_waiting_list. simpl.
    f_equal. rewrite sql_delete_insert by done. by apply sql_delete_none.
  - rewrite add_to_waiting_list_eq. simpl.
    rewrite decide_False by apply not_Exists_sql_delete.
    by rewrite decide_True by done.
Qed.

Lemma waiting_list_add_remove_witness :
  (¬ Exists (waiting_key 42 "Y" "L1") (waiting_list (st_db ex_waiting_state)) →
   st_db (snd (remove_from_waiting_list 42 "Y" "L1"
                 (snd (add_to_waiting_list T0 42 "Y" "L1" ex_waiting_state)))) =
   st_db ex_waiting_state) ∧
  waiting_list (st_db (snd (add_to_waiting_list T0 42 "X" "L1"
                              (snd (remove_from_waiting_list 42 "X" "L1"
                                      ex_waiting_state))))) =
  sql_delete (waiting_key 42 "X" "L1") (waiting_list (st_db ex_waiting_state)) ++
  [Waiting 42 "X" "L1" T0 false].
Proof.
  split.
  - apply (waiting_list_add_remove T0 42 "Y" "L1" ex_waiting_state). by_evaluation.
  - apply (waiting_list_add_remove T0 42 "X" "L1" ex_waiting_state). by_evaluation.
Defined.

(** ** The catalogue *)

(** X7: the three answers of the title dialog.  [get_book_by_title_any_status]
    finds nothing exactly when the office has no copy of the title; whenever
    [get_available_book_instance] finds a copy, [get_book_by_title_any_status]
    finds one too; and a copy is found by the latter but none by the former
    exactly when the office has copies of the title and none of them is
    available. *)
Theorem title_lookup_cases LOWER title office s :
  let any := fst (get_book_by_title_any_status LOWER title office s) in
  let free := fst (get_available_book_instance LOWER title office s) in
  (any = inr None ↔ ¬ Exists (copy_of LOWER title office) (books (st_db s))) ∧
  (free ≠ inr None → any ≠ inr None) ∧
  (any ≠ inr None ∧ free = inr None ↔
     Exists (copy_of LOWER title office) (books (st_db s)) ∧
     Forall (λ b, copy_of LOWER title office b → b_status b ≠ "available") (books (st_db s))).
Proof.
  cbv zeta. unfold get_book_by_title_any_status, get_available_book_instance, fetch, gets.
  simpl.
  assert (∀ {A B} (g : A → B) (o : option A),
            (inr (g <$> o) : exn + option B) = inr None ↔ o = None) as Hnone.
  { intros A B g []; simpl; naive_solver. }
  rewrite !Hnone, !head_filter_None.
  assert (Exists (available_copy LOWER title office) (books (st_db s)) ↔
          ¬ Forall (λ b, copy_of LOWER title office b → b_status b ≠ "available")
              (books (st_db s))) as Hfree.
  { split.
    - intros (b & Hin & Ht & Ho & Hst)%Exists_exists Hall.
      rewrite Forall_forall in Hall. by apply (Hall b).
    - intros Hnot. apply dec_stable. intros Hno. apply Hnot, Forall_forall.
      intros b Hin [Ht Ho] Hst. apply Hno, Exists_exists. by exists b. }
  split_and!.
  - done.
  - intros Hf Hany. apply Hf. intros Hex. apply Hany.
    eapply Exists_impl; [exact Hex|]. by intros b (? & ? & ?).
  - rewrite Hfree. split.
    + intros [Hany Hno]. split; [by apply dec_stable|by apply dec_stable].
    + intros [Hany Hall]. split; [by intros ?|by intros ?].
Qed.

Lemma title_lookup_cases_witness :
  fst (get_book_by_title_any_status lower "x" "L1" ex_booked_state) ≠ inr None ∧
  fst (get_book_by_title_any_status lower "x" "L1" ex_two_bookings_state) ≠ inr None ∧
  fst (get_available_book_instance lower "x" "L1" ex_two_bookings_state) = inr None.
Proof.
  split.
  - destruct (title_lookup_cases lower "x" "L1" ex_booked_state) as (_ & Hfree & _).
    apply Hfree. by_evaluation.
  - destruct (title_lookup_cases lower "x" "L1" ex_two_bookings_state)
      as (_ & _ & Htaken).
    apply Htaken. split; by_evaluation.
Defined.

Section Collation_facts.

Context (title_le : relation string) `{∀ x y, Decision (title_le x y)}
  `{!Transitive title_le, !Total title_le}.

Global Instance by_title_id_trans : Transitive (by_title_id title_le).
Proof.
  intros b1 b2 b3 [H12 Hid12] [H23 Hid23]. split; [by etrans|].
  intros H31.
  assert (title_le (b_title b2) (b_title b1)) by by etrans.
  assert (title_le (b_title b3) (b_title b2)) by by etrans.
  specialize (Hid12 ltac:(done)). specialize (Hid23 ltac:(done)). lia.
Qed.

Global Instance by_title_id_total : Total (by_title_id title_le).
Proof.
  intros b1 b2. unfold by_title_id.
  destruct (decide (title_le (b_title b1) (b_title b2))) as [H12|H12],
           (decide (title_le (b_title b2) (b_title b1))) as [H21|H21].
  - destruct (decide (b_id b1 ≤ b_id b2)); [left|right]; (split; [done|intros _; lia]).
  - left. by split.
  - right. by split.
  - by destruct (total title_le (b_title b1) (b_title b2)).
Qed.

(** X8: [get_books_by_office] changes nothing and lists exactly the copies of
    the office whose status is 'available', each once, ordered by title and,
    among equal titles, by id, for whatever total order the database
    compares titles with. *)
Theorem get_books_by_office_sorted office s :
  snd (get_books_by_office title_le office s) = s ∧
  ∃ rows,
    fst (get_books_by_office title_le office s) =
      inr ((λ b, (b_id b, b_title b, b_author b, b_shelf b, b_floor b)) <$> rows) ∧
    rows ≡ₚ filter (available_in office) (books (st_db s)) ∧
    StronglySorted (by_title_id title_le) rows.
Proof.
  split; [done|].
  exists (merge_sort (by_title_id title_le) (filter (available_in office) (books (st_db s)))).
  split_and!; [done|apply merge_sort_Permutation|].
  apply (StronglySorted_merge_sort (by_title_id title_le)).
Qed.

End Collation_facts.

Global Instance ex_title_le_trans : Transitive ex_title_le.
Proof. unfold ex_title_le. intros x y z. lia. Qed.

Global Instance ex_title_le_total : Total ex_title_le.
Proof. unfold ex_title_le. intros x y. lia. Qed.

Lemma get_books_by_office_sorted_witness :
  ∃ rows,
    fst (get_books_by_office ex_title_le "L1" ex_booked_state) =
      inr ((λ b, (b_id b, b_title b, b_author b, b_shelf b, b_floor b)) <$> rows) ∧
    rows ≡ₚ filter (available_in "L1") (books (st_db ex_booked_state)) ∧
    StronglySorted (by_title_id ex_title_le) rows.
Proof.
  apply (get_books_by_office_sorted ex_title_le "L1" ex_booked_state).
Defined.

(** ** References between the tables *)

Lemma references_ok_step d d' :
  (∀ i, Exists (λ b, b_id b = i) (books d) → Exists (λ b, b_id b = i) (books d')) →
  (∀ u, is_Some (users d !! u) → is_Some (users d' !! u)) →
  Forall (λ k', (∃ k, k ∈ bookings d ∧ bk_book_id k' = bk_book_id k ∧
                      bk_user_id k' = bk_user_id k) ∨
                (Exists (λ b, b_id b = bk_book_id k') (books d') ∧
                 is_Some (users d' !! bk_user_id k'))) (bookings d') →
  Forall (λ w', (∃ w, w ∈ waiting_list d ∧ w_user_id w' = w_user_id w) ∨
                is_Some (users d' !! w_user_id w')) (waiting_list d') →
  references_ok d → references_ok d'.
Proof.
  intros Hbooks Husers Hbk Hwl [Hrb Hrw].
  rewrite Forall_forall in Hrb. rewrite Forall_forall in Hrw. split.
  - eapply Forall_impl; [exact Hbk|]. intros k' [(k & Hk & -> & ->)|Hnew]; [|done].
    destruct (Hrb k Hk). auto.
  - eapply Forall_impl; [exact Hwl|]. intros w' [(w & Hw & ->)|Hnew]; [|done].
    auto.
Qed.

Lemma Forall_sql_update_from {A} (P : A → Prop) `{∀ x, Decision (P x)} set (rows : list A)
    (Q : A → A → Prop) :
  (∀ x, Q x x) → (∀ x, Q (set x) x) →
  Forall (λ x', ∃ x, x ∈ rows ∧ Q x' x) (sql_update P set rows).
Proof.
  intros Hrefl Hset. unfold sql_update. apply Forall_fmap, Forall_forall.
  intros x Hx. simpl. exists x. split; [done|]. by case_decide.
Qed.

Lemma Forall_sql_delete_from {A} (P : A → Prop) `{∀ x, Decision (P x)} (rows : list A)
    (Q : A → A → Prop) :
  (∀ x, Q x x) →
  Forall (λ x', ∃ x, x ∈ rows ∧ Q x' x) (sql_delete P rows).
Proof.
  intros Hrefl. apply Forall_forall. intros x [_ Hx]%list_elem_of_filter. eauto.
Qed.

Lemma Forall_from_refl {A} (rows : list A) (Q : A → A → Prop) :
  (∀ x, Q x x) → Forall (λ x', ∃ x, x ∈ rows ∧ Q x' x) rows.
Proof. intros Hrefl. apply Forall_forall. eauto. Qed.

Lemma is_Some_alter (set : user → user) i (m : gmap Z user) u :
  is_Some (m !! u) → is_Some (alter set i m !! u).
Proof.
  intros Hu. destruct (decide (u = i)) as [->|Hne].
  - rewrite lookup_alter_eq. by apply fmap_is_Some.
  - by rewrite lookup_alter_ne.
Qed.

Lemma Exists_sql_update_book_id book_id status rows i :
  Exists (λ b, b_id b = i) rows →
  Exists (λ b, b_id b = i)
    (sql_update (λ b, b_id b = book_id) (book_set_status status) rows).
Proof. intros Hex. by apply (Exists_sql_update_key b_id _ _ (λ j, j = i)). Qed.

Local Ltac same_rows Q :=
  eapply Forall_impl;
    [first [ apply (Forall_sql_update_from _ _ _ Q); done
           | apply (Forall_sql_delete_from _ _ Q); done
           | apply (Forall_from_refl _ Q); done ]
    | intros ? (? & ? & ?); left; eauto ].

Lemma references_ok_run c s :
  references_ok (st_db s) → references_ok (st_db (run c s)).
Proof.
  set (Qb := λ k' k : booking, bk_book_id k' = bk_book_id k ∧ bk_user_id k' = bk_user_id k).
  set (Qw := λ w' w : waiting, w_user_id w' = w_user_id w).
  intros Hok. destruct c; simpl.
  - rewrite create_booking_eq. destruct (booking_length duration) as [len|]; [|done].
    cbv zeta. case_decide as Hfk; simpl.
    + destruct Hfk as [Hu Hb]. simpl in Hu, Hb.
      eapply references_ok_step; [| | | |exact Hok]; simpl.
      * intros i. apply Exists_sql_update_book_id.
      * intros u. apply is_Some_alter.
      * unfold sql_insert. apply Forall_app. split; [same_rows Qb|].
        apply Forall_singleton. right. simpl. split; [done|]. by apply is_Some_alter.
      * same_rows Qw.
    + eapply references_ok_step; [| | | |exact Hok]; simpl.
      * intros i. apply Exists_sql_update_book_id.
      * done.
      * same_rows Qb.
      * same_rows Qw.
  - rewrite complete_booking_eq. simpl.
    set (s1 := set_db _ s).
    assert (references_ok (st_db s1)) as Hok1.
    { eapply references_ok_step; [| | | |exact Hok]; simpl.
      - intros i. apply Exists_sql_update_book_id.
      - done.
      - same_rows Qb.
      - same_rows Qw. }
    clearbody s1.
    assert (references_ok
              (st_db (snd (notify_next_in_waiting_list deliver book_title office s1))))
      as Hok2.
    { rewrite notify_next_in_waiting_list_eq.
      destruct (head _) as [w|]; [|done].
      destruct (users (st_db s1) !! w_user_id w) as [info|]; [|done].
      cbv zeta. destruct (deliver _); [|done]. simpl.
      eapply references_ok_step; [| | | |exact Hok1]; simpl; [done|done| |].
      - same_rows Qb.
      - same_rows Qw. }
    eapply references_ok_step; [| | | |exact Hok2]; simpl.
    + done.
    + intros u. apply is_Some_alter.
    + same_rows Qb.
    + same_rows Qw.
  - rewrite extend_booking_eq.
    destruct (head _) as [booking|]; [|done].
    destruct (bk_extension_made booking); [done|].
    destruct (extension_of _) as [[extension extension_text]|]; [|done].
    cbv zeta. simpl.
    eapply references_ok_step; [| | | |exact Hok]; simpl.
    + done.
    + intros u. apply is_Some_alter.
    + same_rows Qb.
    + same_rows Qw.
  - rewrite add_to_waiting_list_eq. repeat case_decide; simpl; [done| |done].
    eapply references_ok_step; [| | | |exact Hok]; simpl; [done|done| |].
    + same_rows Qb.
    + unfold sql_insert. apply Forall_app. split; [same_rows Qw|].
      apply Forall_singleton. by right.
  - eapply references_ok_step; [| | | |exact Hok]; simpl; [done|done| |].
    + same_rows Qb.
    + same_rows Qw.
  - assert (PreOrder (λ d d', references_ok d → references_ok d')) as Hpre.
    { split; [by intros d|]. intros d1 d2 d3 H12 H23 H1. auto. }
    refine (@keeps_check_reminders _ Hpre _ deliver GROUP_CHAT_ID now s Hok).
    intros booking_id d Hd.
    eapply references_ok_step; [| | | |exact Hd]; simpl; [done|done| |].
    + same_rows Qb.
    + same_rows Qw.
Qed.

(** X9: the references between the tables are kept.  If every booking
    references a copy and a user that exist and every entry of the waiting
    list a user that exists, the same holds after any sequence of calls of
    [create_booking], [complete_booking], [extend_booking],
    [add_to_waiting_list], [remove_from_waiting_list] and [check_reminders],
    whatever their arguments and whether they succeed or raise. *)
Theorem references_kept cs s :
  references_ok (st_db s) → references_ok (st_db (run_all cs s)).
Proof.
  revert s. induction cs as [|c cs IH]; intros s Hok; [done|].
  simpl. by apply IH, references_ok_run.
Qed.

Lemma references_kept_witness : references_ok (st_db (run_all ex_calls ex_state)).
Proof. apply (references_kept ex_calls ex_state). by_evaluation. Defined.

(** ** Removing copies and users *)

Lemma filter_sql_delete_books (P : book → Prop) `{∀ x, Decision (P x)} d :
  NoDup (b_id <$> books d) → NoDup (b_id <$> sql_delete P (books d)).
Proof.
  unfold sql_delete. induction (books d) as [|b l IH]; [done|].
  rewrite fmap_cons, NoDup_cons. intros [Hb Hl]. rewrite filter_cons.
  case_decide; [|by apply IH]. rewrite fmap_cons. apply NoDup_cons. split; [|by apply IH].
  intros (b' & Hid & [_ Hin]%list_elem_of_filter)%list_elem_of_fmap.
  apply Hb, list_elem_of_fmap. eauto.
Qed.

(** X10: deleting the copies of a title.  [delete_books] deletes nothing and
    raises when some copy of the title at the office is referenced by a
    booking, be it active or completed; otherwise it removes exactly the copies
    of the title at the office and returns their number.  In both cases the
    references between the tables, the uniqueness of the keys and copy
    exclusivity are kept. *)
Theorem delete_books_spec LOWER title office s :
  let r := delete_books LOWER title office s in
  let referenced b := Exists (λ k, bk_book_id k = b_id b) (bookings (st_db s)) in
  (Exists (λ b, copy_of LOWER title office b ∧ referenced b) (books (st_db s)) →
   r = (inl ForeignKeyViolationError, s)) ∧
  (¬ Exists (λ b, copy_of LOWER title office b ∧ referenced b) (books (st_db s)) →
   fst r = inr (length (filter (copy_of LOWER title office) (books (st_db s)))) ∧
   books (st_db (snd r)) =
     filter (λ b, ¬ copy_of LOWER title office b) (books (st_db s))) ∧
  (references_ok (st_db s) → references_ok (st_db (snd r))) ∧
  (keys_ok (st_db s) → keys_ok (st_db (snd r))) ∧
  (copy_exclusive (st_db s) → copy_exclusive (st_db (snd r))).
Proof.
  cbv zeta. unfold delete_books. case_decide as Hfk; simpl.
  { split_and!; first [done | by intros []]. }
  split_and!; try done.
  - intros [Hrb Hrw]. split; [|done]. simpl.
    rewrite Forall_forall in Hrb. apply Forall_forall. intros k Hk.
    destruct (Hrb k Hk) as [Hb Hu]. split; [|done].
    apply Exists_exists in Hb as (b & Hb & Hid). apply Exists_exists. exists b.
    split; [|done]. apply list_elem_of_filter. split; [|done].
    intros Hcopy. apply Hfk, Exists_exists. exists b. split_and!; [done..|].
    apply Exists_exists. eauto.
  - intros (Hnb & Hnk & Hlt). split_and!; [|done..]. by apply filter_sql_delete_books.
  - unfold copy_exclusive. simpl. intros Hex. rewrite Forall_forall in Hex.
    apply Forall_forall. intros b [_ Hb]%list_elem_of_filter. by apply Hex.
Qed.

Lemma delete_books_spec_witness :
  delete_books lower "x" "L1" ex_returned_state =
    (inl ForeignKeyViolationError, ex_returned_state) ∧
  fst (delete_books lower "x" "L1" ex_state) = inr 2%nat ∧
  books (st_db (snd (delete_books lower "x" "L1" ex_state))) = [] ∧
  references_ok (st_db (snd (delete_books lower "x" "L1" ex_state))) ∧
  keys_ok (st_db (snd (delete_books lower "x" "L1" ex_state))) ∧
  copy_exclusive (st_db (snd (delete_books lower "x" "L1" ex_state))).
Proof.
  destruct (delete_books_spec lower "x" "L1" ex_returned_state) as (Hfk & _).
  destruct (delete_books_spec lower "x" "L1" ex_state) as (_ & Hok & Href & Hkeys & Hex).
  split; [apply Hfk; by_evaluation|].
  destruct Hok as [Hn Hb]; [by_evaluation|].
  split_and!; [exact Hn|exact Hb|apply Href|apply Hkeys|apply Hex]; by_evaluation.
Defined.

Lemma process_users_edit_delete_eq uid s :
  process_users_edit_delete uid s =
  if decide (users (st_db s) !! uid = None ∨ uid = 0)
  then (inr ("❌ Пользователь " +:+ pretty uid +:+ " не найден"), s)
  else (inr ("✅ Пользователь " +:+ pretty uid +:+ " полностью удалён"),
        set_db (set_users (delete uid))
          (set_db (set_bookings (sql_delete (λ b, bk_user_id b = uid)))
             (set_db (set_waiting_list (sql_delete (λ w, w_user_id w = uid))) s))).
Proof.
  unfold process_users_edit_delete, fetch, gets, transaction, on_conn,
    mbind, M_bind, mret, M_ret. simpl.
  destruct (users (st_db s) !! uid) as [u|]; simpl; [|done].
  destruct (decide (uid = 0)) as [->|Hne].
  - by rewrite !decide_True by (by right).
  - rewrite !decide_False; [done|intros [[=]|?]; done|intros [[=]|[=]]; done].
Qed.

(** X11: removing a user.  For an id that is not registered, or the id 0,
    [process_users_edit_delete] reports "not found" and changes nothing.
    Otherwise the user is gone afterwards, no booking and no waiting-list
    entry references the id, the rows of the other users and the copies are as
    they were, and the references between the tables are kept. *)
Theorem process_users_edit_delete_spec uid s :
  let s' := snd (process_users_edit_delete uid s) in
  (users (st_db s) !! uid = None ∨ uid = 0 → s' = s) ∧
  (is_Some (users (st_db s) !! uid) → uid ≠ 0 →
   users (st_db s') = delete uid (users (st_db s)) ∧
   Forall (λ k, bk_user_id k ≠ uid) (bookings (st_db s')) ∧
   Forall (λ w, w_user_id w ≠ uid) (waiting_list (st_db s')) ∧
   books (st_db s') = books (st_db s)) ∧
  (references_ok (st_db s) → references_ok (st_db s')).
Proof.
  cbv zeta. rewrite process_users_edit_delete_eq. case_decide as Hnot; simpl.
  { split_and!; [done| |done]. intros [u Hu] Hne. destruct Hnot; simplify_eq. }
  split_and!.
  - by intros.
  - intros _ _. split_and!; [done| | |done].
    + apply Forall_forall. by intros k [Hk _]%list_elem_of_filter.
    + apply Forall_forall. by intros w [Hw _]%list_elem_of_filter.
  - intros [Hrb Hrw]. rewrite Forall_forall in Hrb. rewrite Forall_forall in Hrw.
    split; simpl; apply Forall_forall.
    + intros k [Hne Hk]%list_elem_of_filter. destruct (Hrb k Hk) as [Hb Hu].
      split; [done|]. by rewrite lookup_delete_ne.
    + intros w [Hne Hw]%list_elem_of_filter. rewrite lookup_delete_ne by done. auto.
Qed.

Lemma process_users_edit_delete_spec_witness :
  snd (process_users_edit_delete 44 ex_booked_state) = ex_booked_state ∧
  users (st_db (snd (process_users_edit_delete 42 ex_booked_state))) =
    delete 42 (users (st_db ex_booked_state)) ∧
  references_ok (st_db (snd (process_users_edit_delete 42 ex_booked_state))).
Proof.
  destruct (process_users_edit_delete_spec 44 ex_booked_state) as (Hnone & _).
  destruct (process_users_edit_delete_spec 42 ex_booked_state) as (_ & Hdel & Href).
  split_and!.
  - apply Hnone. left. by vm_compute.
  - apply Hdel; by_evaluation.
  - apply Href. by_evaluation.
Defined.

(** X12: removing a user does not release the user's copy.  When copy
    exclusivity holds and the user holds a copy under an active booking, then
    after [process_users_edit_delete] the copy is still in [books] with status
    'booked' and no active booking references it, so that
    [get_available_book_instance] will not offer it again. *)
Theorem process_users_edit_delete_leaves_copy_booked uid s k b :
  copy_exclusive (st_db s) →
  is_Some (users (st_db s) !! uid) → uid ≠ 0 →
  k ∈ bookings (st_db s) → bk_user_id k = uid → active_for (b_id b) k →
  b ∈ books (st_db s) →
  let s' := snd (process_users_edit_delete uid s) in
  b ∈ books (st_db s') ∧ b_status b = "booked" ∧
  ¬ Exists (active_for (b_id b)) (bookings (st_db s')) ∧
  ¬ copy_exclusive (st_db s').
Proof.
  intros Hex [u Hu] Hne Hk Hku Hact Hb. cbv zeta.
  rewrite process_users_edit_delete_eq.
  destruct (decide _) as [[Hnone|Hz]|_]; [by rewrite Hu in Hnone|done|].
  simpl. pose proof Hex as Hex'. unfold copy_exclusive in Hex'.
  rewrite Forall_forall in Hex'. destruct (Hex' b Hb) as [Hle Hiff].
  assert (b_status b = "booked") as Hst.
  { apply Hiff, Exists_exists. eauto. }
  assert (¬ Exists (active_for (b_id b))
              (sql_delete (λ b0, bk_user_id b0 = uid) (bookings (st_db s)))) as Hno.
  { intros (k' & [Hne' Hk']%list_elem_of_filter & Hact')%Exists_exists.
    assert (2 ≤ length (filter (active_for (b_id b)) (bookings (st_db s))))%nat; [|lia].
    apply (length_two_distinct _ k k'); [by apply list_elem_of_filter..|].
    intros ->. done. }
  split_and!; [done..|].
  unfold copy_exclusive. simpl. rewrite Forall_forall. intros Hall.
  destruct (Hall b Hb) as [_ Hiff']. by apply Hno, Hiff'.
Qed.

Lemma process_users_edit_delete_leaves_copy_booked_witness :
  book_set_status "booked" (ex_book 1 "X")
    ∈ books (st_db (snd (process_users_edit_delete 42 ex_booked_state))) ∧
  ¬ copy_exclusive (st_db (snd (process_users_edit_delete 42 ex_booked_state))).
Proof.
  destruct (process_users_edit_delete_leaves_copy_booked 42 ex_booked_state
              (new_booking 1 42 1 "X" "L1" T0 "1 час" (T0 + timedelta_hours 1))
              (book_set_status "booked" (ex_book 1 "X")))
    as (Hin & _ & _ & Hbroken); [by_evaluation..|].
  by split.
Defined.

(** ** The sweep, message by message *)

Section Stays.

Context (R : relation state) `{!PreOrder R}.

Lemma stays_ret {A} (a : A) : stays R (mret a : M state A).
Proof. intros s. simpl. reflexivity. Qed.

Lemma stays_bind {A B} (m : M state A) (k : A → M state B) :
  stays R m → (∀ a, stays R (k a)) → stays R (m ≫= k).
Proof.
  intros Hm Hk s. unfold mbind, M_bind. specialize (Hm s).
  destruct (m s) as [[e|a] s1]; simpl in *; [done|].
  etrans; [done|]. apply Hk.
Qed.

Lemma stays_try_except {A} (m : M state A) (h : exn → M state A) :
  stays R m → (∀ e, stays R (h e)) → stays R (try_except m h).
Proof.
  intros Hm Hh s. unfold try_except. specialize (Hm s).
  destruct (m s) as [[e|a] s1]; simpl in *; [|done].
  etrans; [done|]. apply Hh.
Qed.

Lemma stays_when (P : Prop) `{Decision P} (m : M state unit) :
  stays R m → stays R (when P m).
Proof. intros Hm. unfold when. destruct (decide P); [done|apply stays_ret]. Qed.

Lemma stays_for_each {A} (l : list A) (body : A → M state unit) :
  (∀ a, a ∈ l → stays R (body a)) → stays R (for_each l body).
Proof.
  induction l as [|a l IH]; intros Hbody; simpl; [apply stays_ret|].
  apply stays_bind; [apply Hbody; by left|]. intros _. apply IH.
  intros b Hb. apply Hbody. by right.
Qed.

Lemma stays_gets {A} (q : state → A) : stays R (gets q).
Proof. intros s. simpl. reflexivity. Qed.

End Stays.

Section Stays_sweep.

Context (R : relation state) `{!PreOrder R}.

(** The chats to which a message may be sent without leaving [R]. *)
Variable quiet : Z → Prop.

Hypothesis send_message_stays : ∀ deliver chat_id text parse_mode reply_markup,
  quiet chat_id → stays R (send_message deliver chat_id text parse_mode reply_markup).

Hypothesis attrs_stay : ∀ s attrs, R s (State (st_db s) (st_sent s) attrs).

Lemma remind_before_end_stays deliver now rec :
  quiet (r_user_id rec) → stays R (remind_before_end deliver now rec).
Proof.
  intros Hq. unfold remind_before_end. cbv zeta.
  repeat destruct (decide (r_booking_duration rec = _));
    repeat first [ apply stays_ret; done | by apply send_message_stays
                 | apply stays_when; [done|] | apply stays_bind; [done| |intros _] ].
Qed.

Lemma remind_ended_stays deliver now rec :
  quiet (r_user_id rec) → stays R (remind_ended deliver now rec).
Proof.
  intros Hq. unfold remind_ended. cbv zeta.
  apply stays_when; [done|]. apply stays_bind; [done|by apply stays_gets|].
  intros last. apply stays_when; [done|].
  apply stays_bind; [done|by apply send_message_stays|].
  intros _ s. apply attrs_stay.
Qed.

Hypothesis overdue_notified_stays : ∀ booking_id s,
  R s (set_db (set_bookings (sql_update (λ b, bk_id b = booking_id)
                               booking_set_overdue_notified)) s).

Lemma check_reminders_stays deliver GROUP_CHAT_ID now :
  quiet GROUP_CHAT_ID → (∀ s rec, rec ∈ reminder_rows (st_db s) → quiet (r_user_id rec)) →
  stays R (check_reminders deliver GROUP_CHAT_ID now).
Proof.
  intros Hg Hrows. unfold check_reminders, check_reminders_try.
  apply stays_try_except; [done| |intros; by apply stays_ret].
  intros s. unfold mbind, M_bind, fetch, gets. simpl.
  apply stays_for_each; [done|]. intros rec Hrec.
  unfold check_reminders_row.
  apply stays_bind; [done|by eapply remind_before_end_stays, Hrows|intros _].
  apply stays_bind; [done|by eapply remind_ended_stays, Hrows|intros _].
  unfold escalate_overdue. cbv zeta. apply stays_when; [done|].
  apply stays_bind; [done|by apply send_message_stays|intros _].
  intros s'. apply overdue_notified_stays.
Qed.

End Stays_sweep.

Global Instance only_overdue_set_preorder : PreOrder only_overdue_set.
Proof.
  split.
  - intros d. unfold only_overdue_set. split_and!; [done..|].
    apply Forall2_same_length_lookup. split; [done|]. intros i k k' Hk Hk'. left. congruence.
  - intros d1 d2 d3 (Hb & Hu & Hw & Hs & Hk) (Hb' & Hu' & Hw' & Hs' & Hk').
    unfold only_overdue_set. rewrite Hb', Hu', Hw', Hs'. split_and!; [done..|].
    eapply Forall2_trans; [|exact Hk|exact Hk'].
    intros k1 k2 k3 [-> | ->] [-> | ->]; auto.
Qed.

Lemma only_overdue_set_update booking_id d :
  only_overdue_set d (set_bookings (sql_update (λ b, bk_id b = booking_id)
                                      booking_set_overdue_notified) d).
Proof.
  unfold only_overdue_set. simpl. split_and!; [done..|].
  unfold sql_update. apply Forall2_fmap_r, Forall2_same_length_lookup.
  split; [done|]. intros i k k' Hk Hk'.
  assert (k' = k) as -> by congruence. simpl. destruct (decide _); auto.
Qed.

(** X13: what a pass of the sweep can change.  Whether it completes or is
    ended by an exception, a pass of [check_reminders] leaves the copies, the
    users, the waiting list and the sequence as they are, changes no column of
    a booking other than [overdue_notified], which it only sets, and only adds
    to the messages sent. *)
Theorem check_reminders_only_sets_overdue deliver GROUP_CHAT_ID now s :
  let s' := snd (check_reminders deliver GROUP_CHAT_ID now s) in
  only_overdue_set (st_db s) (st_db s') ∧ st_sent s `prefix_of` st_sent s'.
Proof.
  set (R := λ s s', only_overdue_set (st_db s) (st_db s') ∧
                    st_sent s `prefix_of` st_sent s').
  assert (PreOrder R) as Hpre.
  { split; [by intros ?|]. intros s1 s2 s3 [Hd Hp] [Hd' Hp']. split; by etrans. }
  refine (@check_reminders_stays R Hpre (λ _, True) _ _ _ deliver GROUP_CHAT_ID now I _ s);
    [| | |done].
  - intros dl chat_id text parse_mode reply_markup _ s0. unfold send_message.
    destruct (dl _); simpl; [|done]. split; [done|]. by apply prefix_app_r.
  - done.
  - intros booking_id s0. split; [|done]. apply only_overdue_set_update.
Qed.

(** ** One escalation for each booking *)

Lemma sent_to_app chat_id s m :
  sent_to chat_id (State (st_db s) (st_sent s ++ [m]) (st_attrs s)) =
  (sent_to chat_id s + if decide (m_chat_id m = chat_id) then 1 else 0)%nat.
Proof.
  unfold sent_to. simpl. rewrite filter_app, length_app, (filter_singleton _ _ []).
  by destruct (decide _).
Qed.

Lemma sql_update_cons {A} (P : A → Prop) `{∀ x, Decision (P x)} set x (rows : list A) :
  sql_update P set (x :: rows) =
  (if decide (P x) then set x else x) :: sql_update P set rows.
Proof. reflexivity. Qed.

Lemma escalated_update booking_id k rows :
  NoDup (bk_id <$> rows) → k ∈ rows → bk_id k = booking_id →
  bk_overdue_notified k = false →
  length (filter (λ k, bk_overdue_notified k = true)
            (sql_update (λ b, bk_id b = booking_id) booking_set_overdue_notified rows)) =
  S (length (filter (λ k, bk_overdue_notified k = true) rows)).
Proof.
  intros Hnd Hk Hid Hflag. induction rows as [|x rows IH]; [by apply not_elem_of_nil in Hk|].
  rewrite fmap_cons, NoDup_cons in Hnd. destruct Hnd as [Hx Hnd].
  rewrite sql_update_cons.
  apply elem_of_cons in Hk as [<-|Hk].
  - rewrite decide_True by done. rewrite filter_cons_True by done.
    rewrite (filter_cons_False _ k) by (by rewrite Hflag). simpl. f_equal.
    rewrite (sql_update_none (λ b, bk_id b = booking_id)); [done|].
    apply Forall_forall. intros y Hy Hyid. apply Hx, list_elem_of_fmap.
    exists y. split; [congruence|done].
  - rewrite decide_False.
    2:{ intros Hxid. apply Hx, list_elem_of_fmap. exists k. split; [congruence|done]. }
    rewrite !filter_cons. destruct (decide _); simpl; by rewrite IH.
Qed.

Lemma reminder_rows_elem d rec :
  rec ∈ reminder_rows d →
  ∃ k, k ∈ bookings d ∧ is_Some (users d !! bk_user_id k) ∧
       r_user_id rec = bk_user_id k ∧ r_booking_id rec = bk_id k ∧
       r_overdue_notified rec = bk_overdue_notified k.
Proof.
  unfold reminder_rows. intros (k & Hk & Hrow)%list_elem_of_omap.
  exists k. split; [done|].
  destruct (decide _); [|done].
  destruct (users d !! bk_user_id k) as [u|]; [|done].
  destruct (decide _); [|done]. by simplify_eq.
Qed.

Lemma reminder_rows_NoDup d :
  NoDup (bk_id <$> bookings d) → NoDup (r_booking_id <$> reminder_rows d).
Proof.
  unfold reminder_rows. generalize (users d). intros us.
  induction (bookings d) as [|k rows IH]; [intros; constructor|].
  rewrite fmap_cons, NoDup_cons. intros [Hk Hnd]. simpl.
  destruct (decide _); [|by apply IH].
  destruct (us !! bk_user_id k) as [u|]; [|by apply IH].
  destruct (decide _); [|by apply IH].
  simpl. apply NoDup_cons. split; [|by apply IH].
  intros (rec & Hid & (k' & Hk' & Hrow)%list_elem_of_omap)%list_elem_of_fmap.
  apply Hk, list_elem_of_fmap. exists k'. split; [|done].
  destruct (decide _); [|done].
  destruct (us !! bk_user_id k') as [u'|]; [|done].
  destruct (decide _); [|done]. by simplify_eq.
Qed.

Section Ledger.

Context (deliver : message → bool) (GROUP_CHAT_ID : Z) (now : datetime).

(** The database is as it was and no message went to the group. *)
Let quiet_step (s s' : state) : Prop :=
  st_db s' = st_db s ∧ sent_to GROUP_CHAT_ID s' = sent_to GROUP_CHAT_ID s.

Local Instance quiet_step_preorder : PreOrder quiet_step.
Proof.
  split; [by intros ?|]. intros s1 s2 s3 [Hd Hn] [Hd' Hn']. split; congruence.
Qed.

Lemma reminders_quiet rec s :
  r_user_id rec ≠ GROUP_CHAT_ID →
  quiet_step s (snd ((remind_before_end deliver now rec;;
                      remind_ended deliver now rec) s)).
Proof.
  intros Hne.
  assert (∀ dl chat_id text parse_mode reply_markup,
            chat_id ≠ GROUP_CHAT_ID →
            stays quiet_step (send_message dl chat_id text parse_mode reply_markup))
    as Hsend.
  { intros dl chat_id text parse_mode reply_markup Hc s0. unfold send_message.
    destruct (dl _); simpl; [|done]. split; [done|].
    rewrite sent_to_app, decide_False by done. lia. }
  apply (stays_bind quiet_step).
  - by apply (remind_before_end_stays quiet_step (λ c, c ≠ GROUP_CHAT_ID)).
  - intros _. by apply (remind_ended_stays quiet_step (λ c, c ≠ GROUP_CHAT_ID)).
Qed.

Lemma escalate_overdue_effect rec s :
  let s' := snd (escalate_overdue deliver GROUP_CHAT_ID now rec s) in
  s' = s ∨
  r_overdue_notified rec = false ∧
  st_db s' = set_bookings (sql_update (λ b, bk_id b = r_booking_id rec)
                             booking_set_overdue_notified) (st_db s) ∧
  sent_to GROUP_CHAT_ID s' = S (sent_to GROUP_CHAT_ID s).
Proof.
  cbv zeta. unfold escalate_overdue, when. cbv zeta.
  destruct (decide _) as [[_ Hflag]|_]; [|by left].
  unfold mbind, M_bind, send_message, execute, modify.
  destruct (deliver _); [|by left]. right. simpl. split_and!; [done..|].
  unfold sent_to. simpl.
  rewrite filter_app, length_app, (filter_singleton _ _ []), decide_True by done.
  simpl. lia.
Qed.

Lemma check_reminders_row_effect rec s :
  r_user_id rec ≠ GROUP_CHAT_ID →
  let s' := snd (check_reminders_row deliver GROUP_CHAT_ID now rec s) in
  (st_db s' = st_db s ∧ sent_to GROUP_CHAT_ID s' = sent_to GROUP_CHAT_ID s) ∨
  r_overdue_notified rec = false ∧
  st_db s' = set_bookings (sql_update (λ b, bk_id b = r_booking_id rec)
                             booking_set_overdue_notified) (st_db s) ∧
  sent_to GROUP_CHAT_ID s' = S (sent_to GROUP_CHAT_ID s).
Proof.
  intros Hne. cbv zeta. pose proof (reminders_quiet rec s Hne) as [Hd Hn].
  unfold check_reminders_row.
  assert (∀ (m1 m2 m3 : M state unit) s0,
            (m1;; m2;; m3) s0 =
            match (m1;; m2) s0 with
            | (inr _, s1) => m3 s1
            | (inl e, s1) => (inl e, s1)
            end) as Hassoc.
  { intros m1 m2 m3 s0. unfold mbind, M_bind.
    destruct (m1 s0) as [[e|[]] s1]; [done|]. by destruct (m2 s1) as [[e|[]] s2]. }
  rewrite Hassoc.
  destruct ((remind_before_end deliver now rec;; remind_ended deliver now rec) s)
    as [[e|[]] s1]; simpl in *; [by left|].
  destruct (escalate_overdue_effect rec s1) as [->|(Hflag & Hdb & Hsent)]; [by left|].
  right. by rewrite Hdb, Hsent, Hd, Hn.
Qed.

Lemma for_each_rows_ledger rows s :
  NoDup (bk_id <$> bookings (st_db s)) →
  NoDup (r_booking_id <$> rows) →
  (∀ rec, rec ∈ rows →
     r_user_id rec ≠ GROUP_CHAT_ID ∧
     (r_overdue_notified rec = false →
      ∃ k, k ∈ bookings (st_db s) ∧ bk_id k = r_booking_id rec ∧
           bk_overdue_notified k = false)) →
  let s' := snd (for_each rows (check_reminders_row deliver GROUP_CHAT_ID now) s) in
  (sent_to GROUP_CHAT_ID s' + escalated (st_db s) =
   sent_to GROUP_CHAT_ID s + escalated (st_db s'))%nat.
Proof.
  revert s. induction rows as [|rec rows IH]; intros s Hnd Hrows Hinv; [done|].
  cbv zeta. simpl. unfold mbind, M_bind.
  rewrite fmap_cons, NoDup_cons in Hrows. destruct Hrows as [Hrec Hrows].
  destruct (Hinv rec) as [Hne Hflagged]; [by left|].
  pose proof (check_reminders_row_effect rec s Hne) as Heff. cbv zeta in Heff.
  destruct (check_reminders_row deliver GROUP_CHAT_ID now rec s) as [[e|[]] s1];
    simpl in *.
  - destruct Heff as [[Hd Hn]|(Hflag & Hd & Hn)].
    + rewrite Hd, Hn. lia.
    + destruct (Hflagged Hflag) as (k & Hk & Hid & Hkf).
      rewrite Hd, Hn. unfold escalated. simpl.
      rewrite (escalated_update _ k) by done. lia.
  - assert (sent_to GROUP_CHAT_ID s1 + escalated (st_db s) =
            sent_to GROUP_CHAT_ID s + escalated (st_db s1))%nat as Hstep.
    { destruct Heff as [[Hd Hn]|(Hflag & Hd & Hn)].
      - rewrite Hd, Hn. lia.
      - destruct (Hflagged Hflag) as (k & Hk & Hid & Hkf).
        rewrite Hd, Hn. unfold escalated. simpl.
        rewrite (escalated_update _ k) by done. lia. }
    cut (sent_to GROUP_CHAT_ID
           (snd (for_each rows (check_reminders_row deliver GROUP_CHAT_ID now) s1)) +
         escalated (st_db s1) =
         sent_to GROUP_CHAT_ID s1 +
         escalated (st_db (snd (for_each rows
                                  (check_reminders_row deliver GROUP_CHAT_ID now) s1))))%nat.
    { lia. }
    apply IH; [|done|].
    + destruct Heff as [[-> _]|(_ & -> & _)]; [done|]. simpl.
      by rewrite (sql_update_keys bk_id).
    + intros rec' Hrec'. destruct (Hinv rec') as [Hne' Hflagged']; [by right|].
      split; [done|]. intros Hflag'.
      destruct (Hflagged' Hflag') as (k' & Hk' & Hid' & Hkf').
      exists k'. split_and!; [|done..].
      destruct Heff as [[-> _]|(_ & -> & _)]; [done|]. simpl.
      apply elem_of_sql_update_other; [done|]. intros Hsame.
      apply Hrec, list_elem_of_fmap. exists rec'. split; [congruence|done].
Qed.

Lemma check_reminders_ledger s :
  NoDup (bk_id <$> bookings (st_db s)) →
  users (st_db s) !! GROUP_CHAT_ID = None →
  let s' := snd (check_reminders deliver GROUP_CHAT_ID now s) in
  (sent_to GROUP_CHAT_ID s' + escalated (st_db s) =
   sent_to GROUP_CHAT_ID s + escalated (st_db s'))%nat.
Proof.
  intros Hnd Hgroup. cbv zeta.
  assert (snd (check_reminders deliver GROUP_CHAT_ID now s) =
          snd (for_each (reminder_rows (st_db s))
                 (check_reminders_row deliver GROUP_CHAT_ID now) s)) as ->.
  { unfold check_reminders, check_reminders_try, try_except, mbind, M_bind, fetch, gets.
    simpl. by destruct (for_each _ _ s) as [[e|[]] s1]. }
  apply for_each_rows_ledger; [done|by apply reminder_rows_NoDup|].
  intros rec (k & Hk & Hu & Huid & Hid & Hflag)%reminder_rows_elem. split.
  - intros Heq. rewrite Huid in Heq. rewrite Heq, Hgroup in Hu. by destruct Hu.
  - intros Hf. exists k. split_and!; [done..|]. by rewrite <-Hflag.
Qed.

End Ledger.

Lemma booking_keys_ok_update (P : booking → Prop) `{∀ x, Decision (P x)} set d :
  (∀ k, bk_id (set k) = bk_id k) →
  booking_keys_ok d → booking_keys_ok (set_bookings (sql_update P set) d).
Proof.
  intros Hset [Hnd Hlt]. split; simpl; [by rewrite (sql_update_keys bk_id)|].
  unfold sql_update. apply Forall_fmap. eapply Forall_impl; [exact Hlt|].
  intros k Hk. simpl. destruct (decide _); [by rewrite Hset|done].
Qed.

Lemma booking_keys_ok_ext d d' :
  bookings d' = bookings d → bookings_id_seq d' = bookings_id_seq d →
  booking_keys_ok d → booking_keys_ok d'.
Proof. unfold booking_keys_ok. by intros -> ->. Qed.

Lemma escalated_update_same (P : booking → Prop) `{∀ x, Decision (P x)} set rows :
  (∀ k, bk_overdue_notified (set k) = bk_overdue_notified k) →
  length (filter (λ k, bk_overdue_notified k = true) (sql_update P set rows)) =
  length (filter (λ k, bk_overdue_notified k = true) rows).
Proof.
  intros Hset. unfold sql_update.
  apply (filter_fmap_length (λ k, bk_overdue_notified k = true)
           (λ k, bk_overdue_notified k = true)).
  intros k _. destruct (decide _); [by rewrite Hset|done].
Qed.

Lemma notify_next_in_waiting_list_sent deliver book_title office chat_id s :
  users (st_db s) !! chat_id = None →
  let s' := snd (notify_next_in_waiting_list deliver book_title office s) in
  sent_to chat_id s' = sent_to chat_id s ∧ users (st_db s') = users (st_db s).
Proof.
  intros Hgroup. cbv zeta. rewrite notify_next_in_waiting_list_eq.
  destruct (head _) as [w|]; [|done].
  destruct (users (st_db s) !! w_user_id w) as [info|] eqn:Hw; [|done].
  cbv zeta. destruct (deliver _); [|done]. split; [|done].
  unfold sent_to. simpl.
  rewrite filter_app, length_app, (filter_singleton_False _ _ []); [simpl; lia|].
  simpl. intros Heq. rewrite Heq in Hw. congruence.
Qed.

(** The part of the state that the ledger of escalations depends on. *)
Lemma ledger_run chat_id c s :
  escalate_to chat_id [c] →
  booking_keys_ok (st_db s) → users (st_db s) !! chat_id = None →
  booking_keys_ok (st_db (run c s)) ∧ users (st_db (run c s)) !! chat_id = None ∧
  (sent_to chat_id (run c s) + escalated (st_db s) =
   sent_to chat_id s + escalated (st_db (run c s)))%nat.
Proof.
  intros Hc Hkeys Hgroup. unfold escalate_to in Hc.
  rewrite Forall_singleton in Hc.
  assert (∀ set u, alter set u (users (st_db s)) !! chat_id = None) as Halter.
  { intros set u. destruct (decide (chat_id = u)) as [->|Hne].
    - by rewrite lookup_alter_eq, Hgroup.
    - by rewrite lookup_alter_ne. }
  destruct c; simpl.
  - rewrite create_booking_eq. destruct (booking_length duration) as [len|]; [|done].
    cbv zeta. destruct Hkeys as [Hnd Hlt].
    assert (Forall (λ k, bk_id k < Z.succ (bookings_id_seq (st_db s))) (bookings (st_db s)))
      as Hlt' by (eapply Forall_impl; [exact Hlt|]; simpl; intros; lia).
    destruct (decide _); simpl; (split_and!; [|done|]).
    + split; simpl; unfold sql_insert.
      * rewrite fmap_app. apply NoDup_app. split_and!; [done| |apply NoDup_singleton].
        intros i (k & -> & Hk)%list_elem_of_fmap. simpl. rewrite list_elem_of_singleton.
        rewrite Forall_forall in Hlt. specialize (Hlt k Hk). lia.
      * apply Forall_app. split; [done|]. apply Forall_singleton. simpl. lia.
    + unfold escalated, sql_insert. simpl.
      rewrite filter_app, length_app, (filter_singleton_False _ _ []) by done.
      simpl. unfold sent_to. simpl. lia.
    + by split.
    + done.
  - rewrite complete_booking_eq. simpl.
    set (s1 := set_db _ s).
    destruct (notify_next_in_waiting_list_sent deliver book_title office chat_id s1)
      as [Hsent Husers]; [done|].
    destruct (notify_next_in_waiting_list_bookings deliver book_title office s1)
      as [Hbk Hseq].
    set (s2 := snd (notify_next_in_waiting_list deliver book_title office s1)) in *.
    split_and!.
    + apply (booking_keys_ok_update _ _ (set_users _ (st_db s2))); [done|].
      by apply (booking_keys_ok_ext (st_db s)).
    + rewrite Husers. apply Halter.
    + unfold escalated, sent_to in *. simpl in *.
      rewrite escalated_update_same by done. rewrite Hbk, Hsent. done.
  - rewrite extend_booking_eq.
    destruct (head _) as [booking|]; [|done].
    destruct (bk_extension_made booking); [done|].
    destruct (extension_of _) as [[extension extension_text]|]; [|done].
    cbv zeta. simpl. split_and!; [|done|].
    + by apply (booking_keys_ok_update _ _ (st_db s)).
    + unfold escalated. simpl. by rewrite escalated_update_same.
  - rewrite add_to_waiting_list_eq. by repeat destruct (decide _).
  - done.
  - simpl in Hc. subst GROUP_CHAT_ID.
    pose proof (check_reminders_only_sets_overdue deliver chat_id now s)
      as [(_ & Hu & _ & Hs & Hk) _].
    split_and!.
    + assert (PreOrder (λ d d', booking_keys_ok d → booking_keys_ok d')) as Hpre.
      { split; [by intros d|]. intros d1 d2 d3 H12 H23 H1. auto. }
      refine (@keeps_check_reminders _ Hpre _ deliver chat_id now s Hkeys).
      intros. by apply booking_keys_ok_update.
    + by rewrite Hu.
    + apply check_reminders_ledger; [by destruct Hkeys|done].
Qed.

(** X14: one escalation for each booking.  In a state with unique booking
    ids in which the group chat is not the id of a user, after any sequence of
    calls whose sweeps escalate to that chat, the number of messages sent to
    the group chat has grown by exactly the number of bookings whose
    [overdue_notified] has been set meanwhile; as [check_reminders] never
    resets the flag, no booking is escalated twice. *)
Theorem escalation_ledger chat_id cs s :
  booking_keys_ok (st_db s) → users (st_db s) !! chat_id = None →
  escalate_to chat_id cs →
  (sent_to chat_id (run_all cs s) + escalated (st_db s) =
   sent_to chat_id s + escalated (st_db (run_all cs s)))%nat.
Proof.
  revert s. induction cs as [|c cs IH]; intros s Hkeys Hgroup Hcs; [done|].
  apply Forall_cons in Hcs as [Hc Hcs]. simpl.
  destruct (ledger_run chat_id c s) as (Hkeys' & Hgroup' & Hstep);
    [by apply Forall_cons_2; [|apply Forall_nil_2]|done..|].
  specialize (IH (run c s) Hkeys' Hgroup' Hcs). lia.
Qed.

Lemma escalation_ledger_witness :
  (sent_to ex_group (run_all ex_overdue_calls ex_state) + escalated (st_db ex_state) =
   sent_to ex_group ex_state + escalated (st_db (run_all ex_overdue_calls ex_state)))%nat ∧
  sent_to ex_group (run_all ex_overdue_calls ex_state) = 1%nat.
Proof.
  split.
  - apply (escalation_ledger ex_group ex_overdue_calls ex_state); [by_evaluation| |].
    + by vm_compute.
    + by_evaluation.
  - by vm_compute.
Defined.

(** ** Callback data *)

Lemma split_cons sep s : ∃ h t, split sep s = h :: t.
Proof.
  induction s as [|c r (h & t & IH)]; simpl; [by eauto|].
  destruct (decide _); [by eauto|]. rewrite IH. eauto.
Qed.

Lemma split_app sep s1 s2 :
  split sep (s1 +:+ String sep s2) = split sep s1 ++ split sep s2.
Proof.
  induction s1 as [|c r IH]; simpl.
  - by rewrite decide_True.
  - destruct (decide _); [by rewrite IH|].
    rewrite IH. by destruct (split_cons sep r) as (h & t & ->).
Qed.

Lemma split_no_char sep s : no_char sep s → split sep s = [s].
Proof.
  induction s as [|c r IH]; simpl; [done|]. intros [Hc Hr].
  by rewrite decide_False, IH.
Qed.

Lemma join_cons_cons sep x y parts :
  join sep (x :: y :: parts) = x +:+ sep +:+ join sep (y :: parts).
Proof. reflexivity. Qed.

Lemma join_split sep s : join (String sep "") (split sep s) = s.
Proof.
  induction s as [|c r IH]; [done|]. cbn [split].
  destruct (split_cons sep r) as (h & t & Hr). rewrite Hr in *.
  destruct (decide _) as [->|Hne].
  - by rewrite join_cons_cons, IH.
  - destruct t as [|y t].
    + simpl in *. by subst.
    + rewrite join_cons_cons in IH. rewrite join_cons_cons.
      change (String c h +:+ String sep "" +:+ join (String sep "") (y :: t))
        with (String c (h +:+ String sep "" +:+ join (String sep "") (y :: t))).
      by rewrite IH.
Qed.

(** X15: the callback data of the waiting-list notification is cut at its
    last underscore.  For every title, with or without underscores, and
    every office that contains no underscore, [process_waitlist_book_parse]
    reads from the data "waitlist_book_{title}_{office}" of the button that
    [get_waitlist_notification_keyboard] builds exactly that title and that
    office; and each office that [office_map] can yield contains no
    underscore. *)
Theorem waitlist_book_round_trip book_title office :
  no_char "_" office →
  ∃ text rest,
    get_waitlist_notification_keyboard book_title office = (text, "waitlist_book_" +:+
      book_title +:+ "_" +:+ office) :: rest ∧
    process_waitlist_book_parse ("waitlist_book_" +:+ book_title +:+ "_" +:+ office) =
      Some (book_title, office) ∧
    Forall (λ button, ∃ o, office_map button.2 = Some o ∧ no_char "_" o)
      get_office_keyboard.
Proof.
  intros Hoffice. eexists _, _. split; [reflexivity|]. split.
  - unfold process_waitlist_book_parse. cbv zeta.
    assert (split "_" ("waitlist_book_" +:+ book_title +:+ "_" +:+ office) =
            "waitlist" :: "book" :: split "_" book_title ++ [office]) as ->.
    { change ("waitlist_book_" +:+ book_title +:+ "_" +:+ office)
        with ("waitlist" +:+ String "_" ("book" +:+ String "_"
                (book_title +:+ String "_" office))).
      rewrite !split_app, (split_no_char _ office) by done. reflexivity. }
    destruct (split_cons "_" book_title) as (h & t & Hsplit).
    rewrite decide_False.
    2:{ rewrite Hsplit. simpl. rewrite length_app. simpl. lia. }
    f_equal. f_equal.
    + replace (length ("waitlist" :: "book" :: split "_" book_title ++ [office]) - 1)%nat
        with (2 + length (split "_" book_title))%nat
        by (simpl; rewrite length_app; simpl; lia).
      simpl. rewrite take_app_length. apply join_split.
    + by rewrite !last_cons, last_snoc.
  - repeat constructor; eexists; (split; [reflexivity|by_evaluation]).
Qed.

Lemma waitlist_book_round_trip_witness :
  ∃ text rest,
    get_waitlist_notification_keyboard "a_b" "Stone Towers" =
      (text, "waitlist_book_" +:+ "a_b" +:+ "_" +:+ "Stone Towers") :: rest ∧
    process_waitlist_book_parse ("waitlist_book_" +:+ "a_b" +:+ "_" +:+ "Stone Towers") =
      Some ("a_b", "Stone Towers") ∧
    Forall (λ button, ∃ o, office_map button.2 = Some o ∧ no_char "_" o)
      get_office_keyboard.
Proof. apply (waitlist_book_round_trip "a_b" "Stone Towers"). by_evaluation. Defined.

Lemma starts_with_Some p s rest : starts_with p s = Some rest ↔ s = p +:+ rest.
Proof.
  revert s. induction p as [|a p IH]; intros s; simpl.
  - split; [by intros [= ->]|by intros ->].
  - destruct s as [|b s]; [split; intros; discriminate|].
    destruct (decide (a = b)) as [->|Hne].
    + rewrite IH. split; [by intros ->|]. by intros [= ->].
    + split; [done|]. by intros [= ? ?].
Qed.

Lemma string_length_app (s1 s2 : string) :
  String.length (s1 +:+ s2) = (String.length s1 + String.length s2)%nat.
Proof. induction s1; simpl; auto. Qed.

Lemma replace_go_no_occurrence fuel old s :
  ¬ occurs old s → replace_go fuel old "" s = s.
Proof.
  revert s. induction fuel as [|fuel IH]; intros s Hno; [done|]. simpl.
  destruct (starts_with old s) as [rest|] eqn:E.
  - apply starts_with_Some in E. exfalso. apply Hno. by exists "", rest.
  - destruct s as [|c r]; [done|]. f_equal. apply IH.
    intros (s1 & s2 & ->). apply Hno. by exists (String c s1), s2.
Qed.

Lemma replace_go_length fuel old s :
  (String.length (replace_go fuel old "" s) ≤ String.length s)%nat.
Proof.
  revert s. induction fuel as [|fuel IH]; intros s; [done|]. simpl.
  destruct (starts_with old s) as [rest|] eqn:E.
  - apply starts_with_Some in E. subst s. specialize (IH rest).
    rewrite !string_length_app. simpl. lia.
  - destruct s as [|c r]; [done|]. simpl. specialize (IH r). lia.
Qed.

Lemma replace_go_shorter fuel old s :
  old ≠ "" → occurs old s → (String.length s < fuel)%nat →
  (String.length (replace_go fuel old "" s) < String.length s)%nat.
Proof.
  intros Hold. revert s. induction fuel as [|fuel IH]; intros s Hocc Hfuel; [lia|].
  simpl. destruct (starts_with old s) as [rest|] eqn:E.
  - apply starts_with_Some in E. subst s.
    pose proof (replace_go_length fuel old rest). rewrite !string_length_app.
    destruct old; [done|]. simpl. lia.
  - destruct s as [|c r].
    + destruct Hocc as (s1 & s2 & Hs). destruct s1, old; done.
    + simpl. cut (String.length (replace_go fuel old "" r) < String.length r)%nat; [lia|].
      apply IH; [|simpl in Hfuel; lia].
      destruct Hocc as ([|c' s1] & s2 & Hs).
      * assert (starts_with old (String c r) = Some s2) as Hp
          by (apply starts_with_Some; exact Hs).
        congruence.
      * injection Hs as -> ->. by exists s1, s2.
Qed.

(** X16: the callback data of the return button.  [process_return_book_title]
    reads from the data "return_{title}" of the button that
    [get_return_book_keyboard] builds the title itself exactly when "return_"
    does not occur in the title; when it occurs, a shorter string is read,
    every occurrence being removed together with the prefix. *)
Theorem return_book_round_trip book_title :
  get_return_book_keyboard book_title =
    [("Вернуть книгу " +:+ book_title, "return_" +:+ book_title)] ∧
  (process_return_book_title ("return_" +:+ book_title) = book_title ↔
   ¬ occurs "return_" book_title) ∧
  (occurs "return_" book_title →
   (String.length (process_return_book_title ("return_" +:+ book_title)) <
    String.length book_title)%nat).
Proof.
  split; [done|].
  assert (process_return_book_title ("return_" +:+ book_title) =
          replace_go (7 + String.length book_title) "return_" "" book_title) as ->.
  { unfold process_return_book_title, replace.
    change (String.length ("return_" +:+ book_title))
      with (7 + String.length book_title)%nat.
    cbn [replace_go Nat.add].
    by rewrite (proj2 (starts_with_Some "return_" ("return_" +:+ book_title) book_title)). }
  assert (occurs "return_" book_title →
          (String.length (replace_go (7 + String.length book_title) "return_" ""
                            book_title) < String.length book_title)%nat) as Hshort.
  { intros Hocc. apply replace_go_shorter; [done|done|lia]. }
  split; [|done]. split.
  - intros Heq Hocc. specialize (Hshort Hocc). rewrite Heq in Hshort. lia.
  - apply replace_go_no_occurrence.
Qed.

Lemma return_book_round_trip_witness :
  (¬ occurs "return_" "" → process_return_book_title ("return_" +:+ "") = "") ∧
  (String.length (process_return_book_title ("return_" +:+ "No return_ticket")) <
   String.length "No return_ticket")%nat.
Proof.
  destruct (return_book_round_trip "") as (_ & Hiff & _).
  destruct (return_book_round_trip "No return_ticket") as (_ & _ & Hshort).
  split; [apply Hiff|]. apply Hshort. by exists "No ", "ticket".
Defined.

(** X17: the durations of the dialog.  Whatever callback data
    [process_duration] receives, a duration that [duration_map] yields is one
    of the five labels, so that [create_booking] accepts it and
    [extend_booking] knows its extension; and each button of
    [get_duration_keyboard] is mapped to the label that it shows. *)
Theorem duration_map_accepted :
  (∀ data duration, duration_map data = Some duration →
     ∃ c, duration = label c ∧ booking_length duration = Some (f c) ∧
          ∃ text, extension_of duration = Some (extension_length c, text)) ∧
  Forall (λ button, duration_map button.2 = Some button.1) get_duration_keyboard.
Proof.
  split.
  - intros data duration. unfold duration_map.
    repeat destruct (decide _); intros [= <-];
      [exists OneHour|exists OneWeek|exists OneMonth|exists ThreeMonths|exists SixMonths];
      (split_and!; [done|done|by eexists]).
  - repeat constructor.
Qed.

Lemma duration_map_accepted_witness :
  ∃ c, "1 неделя" = label c ∧ booking_length "1 неделя" = Some (f c) ∧
       ∃ text, extension_of "1 неделя" = Some (extension_length c, text).
Proof.
  apply (proj1 duration_map_accepted "duration_1w"). reflexivity.
Defined.

(** ** The broadcast *)

Lemma broadcast_loop_eq deliver broadcast_text user_ids sent failed s :
  let messages := (λ uid, Message uid broadcast_text None None) <$> user_ids in
  broadcast_loop deliver broadcast_text user_ids sent failed s =
  (inr ((sent + length (filter (λ m, deliver m = true) messages))%nat,
        (failed + length (filter (λ m, deliver m ≠ true) messages))%nat),
   State (st_db s) (st_sent s ++ filter (λ m, deliver m = true) messages) (st_attrs s)).
Proof.
  cbv zeta. revert sent failed s.
  induction user_ids as [|uid user_ids IH]; intros sent failed s.
  - simpl. destruct s. simpl. by rewrite !Nat.add_0_r, app_nil_r.
  - cbn [broadcast_loop]. unfold mbind, M_bind, try_except, send_message, mret, M_ret.
    rewrite fmap_cons, !filter_cons.
    destruct (deliver (Message uid broadcast_text None None)) eqn:Hd.
    + destruct (decide (true = true)); [|done].
      destruct (decide (true ≠ true)); [done|].
      rewrite IH. simpl. rewrite <-app_assoc. simpl. do 3 f_equal. lia.
    + destruct (decide (false = true)); [done|].
      destruct (decide (false ≠ true)); [|done].
      rewrite IH. simpl. do 3 f_equal. lia.
Qed.

(** X18: the broadcast reaches every user that can be reached.  With at
    least one user, [group_text_handler_broadcast] never raises and leaves the
    database as it is; the message goes to exactly the users to whom it can be
    delivered, each once, a failed delivery stopping nothing; and the two
    counts it reports add up to the number of users. *)
Theorem broadcast_reaches_everyone deliver text s :
  users (st_db s) ≠ ∅ →
  ∃ sent failed s',
    group_text_handler_broadcast deliver text s = (inr (Some (sent, failed)), s') ∧
    st_db s' = st_db s ∧
    (sent + failed = size (users (st_db s)))%nat ∧
    st_sent s' = st_sent s ++
      filter (λ m, deliver m = true)
        ((λ uid, Message uid ("📢 Сообщение от администрации:" +:+ newline +:+ newline
                               +:+ text) None None) <$> (map_to_list (users (st_db s))).*1) ∧
    sent = length (filter (λ uid, deliver (Message uid
              ("📢 Сообщение от администрации:" +:+ newline +:+ newline +:+ text)
              None None) = true) (map_to_list (users (st_db s))).*1).
Proof.
  intros Hne. unfold group_text_handler_broadcast, fetch, gets.
  unfold mbind at 1, M_bind at 1. simpl.
  rewrite decide_False.
  2:{ intros Hnil. apply Hne, map_to_list_empty_iff. by apply fmap_nil_inv in Hnil. }
  cbv zeta. unfold mbind, M_bind. rewrite broadcast_loop_eq. cbv zeta. simpl.
  eexists _, _, _. split; [reflexivity|]. simpl. split_and!; [done| |done|].
  - set (msgs := _ <$> _).
    pose proof (filter_app_complement (λ m, deliver m = true) msgs) as Hperm.
    apply Permutation_length in Hperm. rewrite length_app in Hperm.
    rewrite Hperm. unfold msgs. by rewrite !length_fmap, length_map_to_list.
  - apply (filter_fmap_length _ (λ m, deliver m = true)). done.
Qed.

Lemma broadcast_reaches_everyone_witness :
  ∃ sent failed s',
    group_text_handler_broadcast (all_but 42) "Hi" ex_state =
      (inr (Some (sent, failed)), s') ∧
    st_db s' = st_db ex_state ∧
    (sent + failed = size (users (st_db ex_state)))%nat ∧
    st_sent s' = st_sent ex_state ++
      filter (λ m, all_but 42 m = true)
        ((λ uid, Message uid ("📢 Сообщение от администрации:" +:+ newline +:+ newline
                               +:+ "Hi") None None) <$>
         (map_to_list (users (st_db ex_state))).*1) ∧
    sent = length (filter (λ uid, all_but 42 (Message uid
              ("📢 Сообщение от администрации:" +:+ newline +:+ newline +:+ "Hi")
              None None) = true) (map_to_list (users (st_db ex_state))).*1).
Proof.
  apply (broadcast_reaches_everyone (all_but 42) "Hi" ex_state). by_evaluation.
Defined.

(** ** The catalogue in parts *)

Section Parts_facts.

Context {char : Type} (line_feed : char).

Lemma catalogue_parts_bodies part chunk (text_lines : list (list char)) :
  concat (catalogue_parts line_feed part chunk text_lines).*2 =
  chunk ++ concat ((λ line, line ++ [line_feed]) <$> text_lines).
Proof.
  revert part chunk. induction text_lines as [|line text_lines IH]; intros part chunk.
  - simpl. destruct chunk; simpl; by rewrite ?app_nil_r.
  - cbn [catalogue_parts]. destruct (decide _).
    + rewrite fmap_cons. simpl. by rewrite IH.
    + rewrite IH. simpl. by rewrite <-!app_assoc.
Qed.

Lemma catalogue_parts_numbers part chunk (text_lines : list (list char)) :
  (catalogue_parts line_feed part chunk text_lines).*1 =
  seq part (length (catalogue_parts line_feed part chunk text_lines)).
Proof.
  revert part chunk. induction text_lines as [|line text_lines IH]; intros part chunk.
  - simpl. by destruct chunk.
  - cbn [catalogue_parts]. destruct (decide _); [|by apply IH].
    rewrite fmap_cons. simpl. by rewrite IH.
Qed.

Lemma catalogue_parts_lengths part chunk (text_lines : list (list char)) :
  (length chunk ≤ 4001)%nat → Forall (λ line, (length line ≤ 4000)%nat) text_lines →
  Forall (λ p, (length p.2 ≤ 4001)%nat) (catalogue_parts line_feed part chunk text_lines).
Proof.
  revert part chunk. induction text_lines as [|line text_lines IH]; intros part chunk Hc Hl.
  - simpl. destruct chunk; [by constructor|]. by apply Forall_singleton.
  - apply Forall_cons in Hl as [Hline Hl]. cbn [catalogue_parts]. destruct (decide _).
    + constructor; [done|]. apply IH; [|done]. rewrite length_app. simpl. lia.
    + apply IH; [|done]. rewrite !length_app. simpl. lia.
Qed.

(** X19: the catalogue in parts.  When no line of the catalogue is longer
    than 4000 characters, the parts that [send_all_books_list] sends hold, one
    after the other, every line of the catalogue followed by a line feed, none
    of them lost, repeated or out of place; the parts are numbered from 1 on
    without a gap; and no part is longer than 4001 characters. *)
Theorem catalogue_parts_spec (text_lines : list (list char)) :
  Forall (λ line, (length line ≤ 4000)%nat) text_lines →
  let parts := catalogue_parts line_feed 1 [] text_lines in
  concat parts.*2 = concat ((λ line, line ++ [line_feed]) <$> text_lines) ∧
  parts.*1 = seq 1 (length parts) ∧
  Forall (λ p, (length p.2 ≤ 4001)%nat) parts.
Proof.
  intros Hl. cbv zeta. split_and!.
  - by rewrite catalogue_parts_bodies.
  - apply catalogue_parts_numbers.
  - apply catalogue_parts_lengths; [simpl; lia|done].
Qed.

End Parts_facts.

Lemma catalogue_parts_spec_witness :
  ∃ parts, parts = catalogue_parts 0%nat 1 [] [[1%nat; 2%nat]; [3%nat]] ∧
  concat parts.*2 = [1%nat; 2%nat; 0%nat; 3%nat; 0%nat] ∧ parts.*1 = [1%nat] ∧
  Forall (λ p, (length p.2 ≤ 4001)%nat) parts.
Proof.
  eexists. split; [reflexivity|].
  apply (catalogue_parts_spec 0%nat [[1%nat; 2%nat]; [3%nat]]).
  apply Forall_cons; split; [simpl; lia|]. apply Forall_singleton. simpl. lia.
Defined.

(** ** The time of the last reminder *)

Lemma no_char_pretty_N_go c x s :
  (∀ d, pretty_N_char d ≠ c) → no_char c s → no_char c (pretty_N_go x s).
Proof.
  intros Hc. revert s. induction (N.lt_wf_0 x) as [x _ IH]; intros s Hs.
  destruct (decide (x = 0)%N) as [->|]; [by rewrite pretty_N_go_0|].
  rewrite pretty_N_go_step by lia. apply IH; [apply N.div_lt; lia|]. by split.
Qed.

Lemma no_char_pretty_Z (z : Z) : no_char "_" (pretty z).
Proof.
  assert (∀ d, pretty_N_char d ≠ "_"%char) as Hd.
  { intros d. unfold pretty_N_char. by repeat case_match. }
  assert (∀ p : positive, no_char "_" (pretty p)) as Hp.
  { intros p. unfold pretty, pretty_positive, pretty, pretty_N.
    rewrite decide_False by done. by apply no_char_pretty_N_go. }
  destruct z as [|p|p]; [by vm_compute|apply Hp|].
  unfold pretty, pretty_Z. simpl. split; [done|apply Hp].
Qed.

Lemma separator_inj c a a' b b' :
  no_char c a → no_char c a' →
  a +:+ String c b = a' +:+ String c b' → a = a' ∧ b = b'.
Proof.
  revert a'. induction a as [|x a IH]; intros [|x' a']; simpl; intros Ha Ha' Heq.
  - by injection Heq.
  - injection Heq as <- _. by destruct Ha' as [? _].
  - injection Heq as -> _. by destruct Ha as [? _].
  - injection Heq as -> Heq. destruct Ha as [_ Ha], Ha' as [_ Ha'].
    by destruct (IH a' Ha Ha' Heq) as [-> ->].
Qed.

Lemma last_key_inj uid bid uid' bid' :
  last_key uid bid = last_key uid' bid' → uid = uid' ∧ bid = bid'.
Proof.
  unfold last_key. intros Heq. apply (inj (String.append "last_reminder_")) in Heq.
  apply separator_inj in Heq as [Hu Hb]; [|apply no_char_pretty_Z..].
  split; by apply (inj pretty).
Qed.

Global Instance cooldown_step_preorder rows now uid bid :
  PreOrder (cooldown_step rows now uid bid).
Proof.
  split.
  - intros s. split; [done|by left].
  - intros s1 s2 s3 [Hle [Heq|(Hnow & Hdue & Hlt & Hrec)]]
      [Hle' [Heq'|(Hnow' & Hdue' & Hlt' & Hrec')]]; (split; [lia|]).
    + left. congruence.
    + right. rewrite <-Heq. split_and!; [done|done|lia|done].
    + right. rewrite Heq'. split_and!; [done|done|lia|done].
    + right. split_and!; [done|done|lia|done].
Qed.

Lemma sent_to_snoc chat_id d sent attrs m :
  sent_to chat_id (State d (sent ++ [m]) attrs) =
  (length (filter (λ m, m_chat_id m = chat_id) sent) +
   if decide (m_chat_id m = chat_id) then 1 else 0)%nat.
Proof.
  unfold sent_to. simpl. rewrite filter_app, length_app, (filter_singleton _ _ []).
  by destruct (decide _).
Qed.

Section Cooldown.

Context (rows : list reminder_row) (now : datetime) (uid bid : Z).

Let R := cooldown_step rows now uid bid.

Lemma send_message_cooldown deliver chat_id text parse_mode reply_markup :
  stays R (send_message deliver chat_id text parse_mode reply_markup).
Proof.
  intros s. unfold send_message. destruct (deliver _); simpl; [|reflexivity].
  split; [|by left]. rewrite sent_to_app. lia.
Qed.

Lemma remind_ended_cooldown deliver rec :
  rec ∈ rows → stays R (remind_ended deliver now rec).
Proof.
  intros Hrec s. unfold remind_ended. cbv zeta.
  change ("last_reminder_" +:+ pretty (r_user_id rec) +:+ "_" +:+ pretty (r_booking_id rec))
    with (last_key (r_user_id rec) (r_booking_id rec)).
  unfold when. destruct (decide (r_booking_end rec ≤ now)) as [Hend|]; [|reflexivity].
  unfold mbind at 1, M_bind at 1, gets. simpl.
  destruct (decide (reminder_due now _)) as [Hdue|]; [|reflexivity].
  unfold mbind, M_bind, send_message, modify. destruct (deliver _); simpl; [|reflexivity].
  split; [rewrite sent_to_snoc; unfold sent_to; lia|]. simpl.
  destruct (decide (r_user_id rec = uid ∧ r_booking_id rec = bid)) as [[<- <-]|Hne].
  - right. rewrite lookup_insert_eq. split_and!; [done|done| |by exists rec].
    rewrite sent_to_snoc. simpl. rewrite decide_True by done. unfold sent_to. lia.
  - left. apply lookup_insert_ne. intros Hkey. apply Hne. by apply last_key_inj.
Qed.

Lemma check_reminders_row_cooldown deliver GROUP_CHAT_ID rec :
  rec ∈ rows → stays R (check_reminders_row deliver GROUP_CHAT_ID now rec).
Proof.
  intros Hrec. unfold check_reminders_row.
  apply stays_bind; [apply _| |intros _].
  { apply (remind_before_end_stays R (λ _, True)); [|done].
    intros. apply send_message_cooldown. }
  apply stays_bind; [apply _|by apply remind_ended_cooldown|intros _].
  unfold escalate_overdue. cbv zeta. apply stays_when; [apply _|].
  apply stays_bind; [apply _|apply send_message_cooldown|intros _].
  intros s. split; [done|by left].
Qed.

End Cooldown.

(** X20: the time of the last reminder of an ended booking.  A pass of
    [check_reminders] at [now] leaves the time recorded for a booking as it
    is, unless the booking is among the rows of the pass, has ended, the
    recorded time is absent or two hours or more ago, and a message more has
    reached its user; then the recorded time is [now].  So the reminders of a
    booking never touch the time recorded for another one, and two recorded
    reminders of one booking are two hours or more apart. *)
Theorem cooldown_entry deliver GROUP_CHAT_ID now uid bid s :
  let s' := snd (check_reminders deliver GROUP_CHAT_ID now s) in
  st_attrs s' !! last_key uid bid = st_attrs s !! last_key uid bid ∨
  (st_attrs s' !! last_key uid bid = Some now ∧
   reminder_due now (st_attrs s !! last_key uid bid) ∧
   (sent_to uid s < sent_to uid s')%nat ∧
   ∃ rec, rec ∈ reminder_rows (st_db s) ∧ r_user_id rec = uid ∧ r_booking_id rec = bid ∧
          r_booking_end rec ≤ now).
Proof.
  cbv zeta.
  cut (cooldown_step (reminder_rows (st_db s)) now uid bid s
         (snd (check_reminders deliver GROUP_CHAT_ID now s))); [by intros [_ ?]|].
  unfold check_reminders, check_reminders_try, try_except.
  unfold mbind at 1, M_bind at 1, fetch, gets. simpl.
  pose proof (stays_for_each (cooldown_step (reminder_rows (st_db s)) now uid bid)
    (reminder_rows (st_db s)) (check_reminders_row deliver GROUP_CHAT_ID now)
    (λ rec Hrec, check_reminders_row_cooldown _ now uid bid deliver GROUP_CHAT_ID rec Hrec) s)
    as Hpass.
  by destruct (for_each _ _ s) as [[e|[]] s'].
Qed.
